(** * Media converter bot: credit ledger, sessions, pipeline and sweep

    A shallow embedding of the bot's services and handlers
    (userService, mediaService, commandHandlers, mediaHandlers) and the
    properties of its credit ledger, conversion sessions, conversion
    pipeline, referral bonus and storage sweep.

    Firestore collections are finite maps from document ids to
    documents; asynchronous service calls are computations in a
    state-and-exception monad over the database, the per-user session
    store and the trace of externally visible actions (replies, console
    errors).  Telegram, ffmpeg and the file system are outside the
    program: their answers are supplied by a record of oracles. *)

From Stdlib Require Import ZArith String Ascii.
From stdpp Require Import base option list gmap fin_maps fin_sets.

Local Open Scope string_scope.
Local Open Scope list_scope.
Local Open Scope Z_scope.

(** ** JavaScript string helpers used by the handlers *)

Module Js.

Fixpoint startsWith (p s : string) : bool :=
  match p, s with
  | EmptyString, _ => true
  | String a p', String b s' => if Ascii.eqb a b then startsWith p' s' else false
  | String _ _, EmptyString => false
  end.

Fixpoint drop (n : nat) (s : string) : string :=
  match n, s with
  | O, _ => s
  | S n', String _ s' => drop n' s'
  | S _, EmptyString => EmptyString
  end.

(** [s.replace(p, '')]: the first occurrence of [p] is removed. *)
Fixpoint replace_first (p s : string) : string :=
  if startsWith p s then drop (String.length p) s
  else match s with
       | EmptyString => EmptyString
       | String c s' => String c (replace_first p s')
       end.

Definition is_space (c : ascii) : bool :=
  let n := nat_of_ascii c in
  (Nat.eqb n 32 || Nat.eqb n 9 || Nat.eqb n 10 || Nat.eqb n 11
   || Nat.eqb n 12 || Nat.eqb n 13)%bool.

Fixpoint skip_spaces (s : string) : string :=
  match s with
  | String c s' => if is_space c then skip_spaces s' else s
  | EmptyString => s
  end.

Definition digit_of (radix : Z) (c : ascii) : option Z :=
  let n := Z.of_nat (nat_of_ascii c) in
  let d := if (48 <=? n) && (n <=? 57) then Some (n - 48)
           else if (97 <=? n) && (n <=? 122) then Some (n - 87)
           else if (65 <=? n) && (n <=? 90) then Some (n - 55)
           else None in
  match d with
  | Some v => if v <? radix then Some v else None
  | None => None
  end.

(** Longest prefix of digits; [None] when there is no digit at all. *)
Fixpoint digits (radix : Z) (acc : option Z) (s : string) : option Z :=
  match s with
  | String c s' =>
      match digit_of radix c with
      | Some d => digits radix (Some (radix * default 0 acc + d)) s'
      | None => acc
      end
  | EmptyString => acc
  end.

Definition unsigned (s : string) : option Z :=
  if startsWith "0x" s || startsWith "0X" s
  then digits 16 None (drop 2 s)
  else digits 10 None s.

(** [parseInt(s)]; [None] is NaN. *)
Definition parseInt (s : string) : option Z :=
  match skip_spaces s with
  | String "-" s' => Z.opp <$> unsigned s'
  | String "+" s' => unsigned s'
  | s' => unsigned s'
  end.

Fixpoint split_last (c : ascii) (s : string) : option (string * string) :=
  match s with
  | EmptyString => None
  | String a s' =>
      match split_last c s' with
      | Some (l, r) => Some (String a l, r)
      | None => if Ascii.eqb a c then Some (EmptyString, s') else None
      end
  end.

(** [path.basename(p)] *)
Definition basename (p : string) : string :=
  match split_last "/" p with
  | Some (_, r) => r
  | None => p
  end.

(** [path.extname(p)]: from the last dot of the last segment, unless
    that dot starts the segment. *)
Definition extname (p : string) : string :=
  match split_last "." (basename p) with
  | Some (EmptyString, _) => EmptyString
  | Some (_, r) => String "." r
  | None => EmptyString
  end.

(** [path.basename(p, path.extname(p))] *)
Definition stem (p : string) : string :=
  match split_last "." (basename p) with
  | Some (EmptyString, _) => basename p
  | Some (l, _) => l
  | None => basename p
  end.

Definition lower (c : ascii) : ascii :=
  let n := nat_of_ascii c in
  if (Nat.leb 65 n && Nat.leb n 90)%bool then ascii_of_nat (n + 32) else c.

Fixpoint toLowerCase (s : string) : string :=
  match s with
  | EmptyString => EmptyString
  | String c s' => String (lower c) (toLowerCase s')
  end.

(** Truthiness of a number that may be null or NaN ([None]). *)
Definition truthy_num (v : option Z) : bool :=
  match v with
  | Some n => negb (n =? 0)
  | None => false
  end.

(** Truthiness of an optional object-valued field (a timestamp). *)
Definition truthy_obj {A} (v : option A) : bool :=
  match v with Some _ => true | None => false end.

End Js.

(** ** The server's clock

    Times are milliseconds since the epoch.  [new Date()] and the
    setters [setHours] and [setDate] work on local time: the local time
    value of the instant, changed, then taken back to an instant. *)

Definition msPerDay : Z := 24 * 60 * 60 * 1000.

(** [today.setHours(0, 0, 0, 0)] with [today = new Date()] at [now]:
    [tza t true] is the offset of local time from UTC at the instant
    [t], [tza t false] the offset that takes the local time value [t]
    back to an instant (ECMAScript's LocalTZA). *)
Definition localMidnight (tza : Z → bool → Z) (now : Z) : Z :=
  let t := now + tza now true in
  let date := t - t mod msPerDay in
  date - tza date false.

(** [d.setDate(d.getDate() - days)] with [d = new Date()] at [now]: the
    same local time of day, [days] calendar days earlier. *)
Definition localDaysAgo (tza : Z → bool → Z) (days now : Z) : Z :=
  let t := now + tza now true in
  let date := t - days * msPerDay in
  date - tza date false.

(** The time zone of the server.  The start of the local day is never
    after the instant it is computed at. *)
Record Zone := {
  LocalTZA : Z → bool → Z;
  midnight_past : ∀ now, localMidnight LocalTZA now ≤ now
}.

(** ** Configuration: the integers read with [parseInt(process.env.X)]
    and the time zone the process runs in *)

Record Config := {
  CREDIT_PER_CONVERSION : Z;
  REFERRAL_BONUS : Z;
  MAX_FILE_SIZE_MB : Z;
  FILE_DELETE_AFTER_HOURS : Z;
  DAILY_LIMIT : Z;
  STORAGE_CHANNEL_ID : Z;
  TZ : Zone
}.

(** ** Data model *)

(** A document of the [users] collection.  Timestamps are milliseconds
    since the epoch. *)
Record User := {
  user_id : Z;
  credits : Z;
  referrals : Z;
  usage_count : Z;
  last_activity : Z;
  created_at : option Z;
  username : option string;
  referrer_id : option Z
}.

Definition set_last_activity (t : Z) (u : User) : User :=
  {| user_id := user_id u; credits := credits u; referrals := referrals u;
     usage_count := usage_count u; last_activity := t;
     created_at := created_at u; username := username u;
     referrer_id := referrer_id u |}.

Definition set_credits (c : Z) (u : User) : User :=
  {| user_id := user_id u; credits := c; referrals := referrals u;
     usage_count := usage_count u; last_activity := last_activity u;
     created_at := created_at u; username := username u;
     referrer_id := referrer_id u |}.

Definition set_referrals (r : Z) (u : User) : User :=
  {| user_id := user_id u; credits := credits u; referrals := r;
     usage_count := usage_count u; last_activity := last_activity u;
     created_at := created_at u; username := username u;
     referrer_id := referrer_id u |}.

Definition set_usage_count (n : Z) (u : User) : User :=
  {| user_id := user_id u; credits := credits u; referrals := referrals u;
     usage_count := n; last_activity := last_activity u;
     created_at := created_at u; username := username u;
     referrer_id := referrer_id u |}.

(** The optional second argument of [getOrCreateUser]. *)
Record UserData := {
  ud_username : option string;
  ud_referrer_id : option Z
}.

Definition noUserData : UserData :=
  {| ud_username := None; ud_referrer_id := None |}.

(** A document of the schemaless [conversions] collection: a field that
    a writer does not set is absent ([None]). *)
Record ConvDoc := {
  doc_message_id : option Z;
  doc_chat_id : option Z;
  doc_file_id : option string;
  doc_created_at : option Z;
  doc_expires_at : option Z;
  doc_user_id : option Z;
  doc_original_file_id : option string;
  doc_converted_file_id : option string;
  doc_format : option string
}.

Inductive FileType := Video | Audio.

(** [file_name || `video_${Date.now()}.mp4`] *)
Inductive FileName :=
| Given (name : string)
| Generated (prefix : string) (stamp : Z) (ext : string).

(** [ctx.session.fileInfo] *)
Record FileInfo := {
  fileId : string;
  fileType : FileType;
  fileName : FileName;
  fileSize : Z
}.

Inductive Error :=
| UserNotFound
| InsufficientCredits
| FailedToDownload
| FailedToConvertVideo
| FailedToConvertAudio
| UnsupportedFormat
| FailedToUpload
| TelegramError
| FfmpegError
| TypeError
| NotFound
| TransactionAborted.

Inductive Reply :=
| NotEnoughCredits
| DailyLimitReached
| FileTooLarge
| SelectFormat (formats : list string)
| UnsupportedFile
| ErrorOccurred
| SessionExpired
| Processing
| ConversionFailed
| ConvertedVideo (file format : string) (remaining : Z)
| ConvertedAudio (file format : string) (remaining : Z)
| Welcome (balance : Z).

Inductive Event :=
| Replied (user : Z) (r : Reply)
| ConsoleError (e : Error)
| RemovedTemp (paths : list string).

(** The two Firestore collections, keyed by document id; the
    [fileInfo] of the session of each user (the bot talks to a user in
    the user's private chat, so the session key is the user); and the
    replies and console errors written so far, oldest first.  Firestore
    itself is taken to answer every call: the only rejected write is the
    update of a document that does not exist. *)
Record State := {
  users : gmap Z User;
  conversions : gmap nat ConvDoc;
  sessions : gmap Z FileInfo;
  trace : list Event
}.

Definition with_users (m : gmap Z User) (st : State) : State :=
  {| users := m; conversions := conversions st; sessions := sessions st;
     trace := trace st |}.

Definition with_conversions (m : gmap nat ConvDoc) (st : State) : State :=
  {| users := users st; conversions := m; sessions := sessions st;
     trace := trace st |}.

Definition with_sessions (m : gmap Z FileInfo) (st : State) : State :=
  {| users := users st; conversions := conversions st; sessions := m;
     trace := trace st |}.

Definition with_trace (t : list Event) (st : State) : State :=
  {| users := users st; conversions := conversions st;
     sessions := sessions st; trace := t |}.

(** ** Computations: state plus exceptions *)

Inductive result (A : Type) :=
| Ok (a : A)
| Throw (e : Error).
Arguments Ok {A} a.
Arguments Throw {A} e.

Definition M (A : Type) : Type := State -> result A * State.

Definition ret {A} (a : A) : M A := fun st => (Ok a, st).

Definition throw {A} (e : Error) : M A := fun st => (Throw e, st).

Definition bind {A B} (m : M A) (k : A -> M B) : M B :=
  fun st =>
    match m st with
    | (Ok a, st') => k a st'
    | (Throw e, st') => (Throw e, st')
    end.

Definition try_catch {A} (m : M A) (h : Error -> M A) : M A :=
  fun st =>
    match m st with
    | (Ok a, st') => (Ok a, st')
    | (Throw e, st') => h e st'
    end.

Definition get : M State := fun st => (Ok st, st).
Definition modify (f : State -> State) : M unit := fun st => (Ok tt, f st).
Definition emit (e : Event) : M unit :=
  modify (fun st => with_trace (trace st ++ [e]) st).

Notation "'let*' x ':=' m 'in' k" := (bind m (fun x => k))
  (at level 10, x name, m at level 100, k at level 200,
   format "'[v' 'let*'  x  ':='  m  'in' '/' k ']'").
Notation "'run' m 'in' k" := (bind m (fun _ => k))
  (at level 10, m at level 100, k at level 200,
   format "'[v' 'run'  m  'in' '/' k ']'").

(** ** userService *)

Definition getOrCreateUser (now userId : Z) (userData : UserData) : M User :=
  fun st =>
    match users st !! userId with
    | Some u =>
        (Ok u, with_users (<[userId := set_last_activity now u]> (users st)) st)
    | None =>
        let newUser :=
          {| user_id := userId; credits := 10; referrals := 0;
             usage_count := 0; last_activity := now; created_at := Some now;
             username := ud_username userData;
             referrer_id := ud_referrer_id userData |} in
        (Ok newUser, with_users (<[userId := newUser]> (users st)) st)
    end.

(** [updateCredits] when no other client writes while its transaction
    runs ([updateCreditsAmong] below has the other clients): nothing is
    written unless the callback reaches [transaction.update]. *)
Definition updateCredits (now userId amount : Z) : M Z :=
  fun st =>
    match users st !! userId with
    | None => (Throw UserNotFound, st)
    | Some userData =>
        let newCredits := credits userData + amount in
        if newCredits <? 0 then (Throw InsufficientCredits, st)
        else (Ok newCredits,
              with_users
                (<[userId := set_last_activity now (set_credits newCredits userData)]>
                   (users st)) st)
    end.

(** *** The transaction of [updateCredits]

    [db.runTransaction] is part of the Firestore client.  Its contract:
    the callback reads through the transaction and its update is
    buffered; the commit applies the update only if the document read
    has not changed since it was read, otherwise the attempt is dropped
    and the callback runs again on a fresh read, up to [maxAttempts]
    attempts; an error thrown by the callback ends the transaction
    without a write.  Other clients write to the database while an
    attempt is under way.  (Firestore compares update times; a client
    that writes a document back to what it was counts as no change
    here, and the commit then goes onto the same content.) *)

#[global] Instance User_eq_dec : EqDecision User.
Proof. solve_decision. Defined.

(** What a callback that works on one user document ends with: an
    error, or [transaction.update(userRef, fields)] and a value. *)
Inductive TxOutcome (A : Type) :=
| TxThrow (e : Error)
| TxUpdate (fields : User → User) (a : A).
Arguments TxThrow {A} e.
Arguments TxUpdate {A} fields a.

(** The default of the client. *)
Definition maxAttempts : nat := 5.

(** The commit of a buffered update: the fields are set on the document
    as it is stored. *)
Definition commit {A} (userId : Z) (fields : User → User) (a : A) : M A :=
  fun st =>
    match users st !! userId with
    | Some d => (Ok a, with_users (<[userId := fields d]> (users st)) st)
    | None => (Throw NotFound, st)
    end.

(** [others] is what the other clients write during each attempt, the
    first attempt first; after the last of them the transaction is
    alone. *)
Fixpoint attempt {A} (attempts : nat) (others : list (State → State)) (userId : Z)
    (callback : option User → TxOutcome A) (st : State) : result A * State :=
  match attempts with
  | O => (Throw TransactionAborted, st)
  | S attempts' =>
      let userDoc := users st !! userId in
      match callback userDoc with
      | TxThrow e => (Throw e, st)
      | TxUpdate fields a =>
          match others with
          | [] => commit userId fields a st
          | other :: rest =>
              let st' := other st in
              if decide (users st' !! userId = userDoc)
              then commit userId fields a st'
              else attempt attempts' rest userId callback st'
          end
      end
  end.

Definition runTransaction {A} (others : list (State → State)) (userId : Z)
    (callback : option User → TxOutcome A) : M A :=
  attempt maxAttempts others userId callback.

(** The callback [updateCredits] passes to [db.runTransaction]. *)
Definition updateCreditsCallback (now amount : Z) (userDoc : option User)
    : TxOutcome Z :=
  match userDoc with
  | None => TxThrow UserNotFound
  | Some userData =>
      let newCredits := credits userData + amount in
      if newCredits <? 0 then TxThrow InsufficientCredits
      else TxUpdate (fun d => set_last_activity now (set_credits newCredits d))
             newCredits
  end.

(** [updateCredits] while other clients write.  The [updateCredits]
    above is this transaction when it is alone. *)
Definition updateCreditsAmong (others : list (State → State))
    (now userId amount : Z) : M Z :=
  runTransaction others userId (updateCreditsCallback now amount).

(** The state the writes of the other clients alone lead to. *)
Definition interfered (others : list (State → State)) (st : State) : State :=
  foldl (fun s other => other s) st others.


Definition processReferral (cfg : Config) (now : Z) (referrerId : option Z)
    (newUserId : Z) : M bool :=
  fun st =>
    match referrerId with
    | None => (Ok false, st)
    | Some r =>
        if (r =? 0) || (r =? newUserId) then (Ok false, st)
        else match users st !! r with
             | None => (Ok false, st)
             | Some u =>
                 let u' :=
                   set_last_activity now
                     (set_credits (credits u + REFERRAL_BONUS cfg)
                        (set_referrals (referrals u + 1) u)) in
                 (Ok true, with_users (<[r := u']> (users st)) st)
             end
    end.

(** [today.setHours(0, 0, 0, 0)]: midnight of the server's local day. *)
Definition startOfDay (cfg : Config) (now : Z) : Z :=
  localMidnight (LocalTZA (TZ cfg)) now.

(** The query [where('user_id', '==', userId).where('created_at', '>=', today)]:
    a document without one of the two fields does not match. *)
Definition isTodayConversionOf (today userId : Z) (d : ConvDoc) : bool :=
  match doc_user_id d, doc_created_at d with
  | Some u, Some t => (u =? userId) && (today <=? t)
  | _, _ => false
  end.

Definition todayConversions (today userId : Z) (st : State) : gmap nat ConvDoc :=
  filter (fun kd => isTodayConversionOf today userId kd.2 = true) (conversions st).

Definition checkDailyLimit (cfg : Config) (now userId : Z) : M bool :=
  fun st =>
    match users st !! userId with
    | None => (Ok false, st)
    | Some _ =>
        let today := startOfDay cfg now in
        (Ok (DAILY_LIMIT cfg <=? Z.of_nat (size (todayConversions today userId st))), st)
    end.

Record Stats := {
  totalUsers : nat;
  activeUsers : nat;
  totalConversions : nat
}.

Definition getStats (cfg : Config) (now : Z) : M Stats :=
  fun st =>
    let sevenDaysAgo := localDaysAgo (LocalTZA (TZ cfg)) 7 now in
    (Ok {| totalUsers := size (users st);
           activeUsers :=
             size (filter (fun ku => sevenDaysAgo <= last_activity ku.2) (users st));
           totalConversions := size (conversions st) |}, st).

Definition resetUser (now userId : Z) : M bool :=
  fun st =>
    match users st !! userId with
    | None => (Ok false, st)
    | Some u =>
        let u' :=
          set_last_activity now
            (set_usage_count 0 (set_referrals 0 (set_credits 10 u))) in
        (Ok true, with_users (<[userId := u']> (users st)) st)
    end.

(** ** mediaService *)

Inductive MessageKind := VideoMessage | AudioMessage | DocumentMessage.

(** What Telegram answers to a send call: the message id and the one
    media attachment it carries. *)
Record Message := {
  message_id : Z;
  kind : MessageKind;
  file_id : string
}.

Definition msg_video (m : Message) : option string :=
  match kind m with VideoMessage => Some (file_id m) | _ => None end.
Definition msg_audio (m : Message) : option string :=
  match kind m with AudioMessage => Some (file_id m) | _ => None end.
Definition msg_document (m : Message) : option string :=
  match kind m with DocumentMessage => Some (file_id m) | _ => None end.

(** [a || b] on optional values *)
Definition orElse {A} (a b : option A) : option A :=
  match a with Some _ => a | None => b end.

(** [message.video?.file_id || message.audio?.file_id || message.document?.file_id] *)
Definition anyFileId (m : Message) : option string :=
  orElse (orElse (msg_video m) (msg_audio m)) (msg_document m).

(** The options set on a fluent-ffmpeg command before [save]. *)
Record FfmpegCommand := {
  cmd_input : string;
  cmd_noVideo : bool;
  cmd_videoCodec : option string;
  cmd_size : option (option Z * option Z);  (* width x height, [None] is NaN *)
  cmd_audioCodec : option string;
  cmd_audioBitrate : option Z;
  cmd_format : option string;
  cmd_output : string
}.

Inductive SendMethod := SendVideo | SendAudio | SendDocument.

(** `Converted by user ${userId} | Format: ${format}` *)
Definition Caption : Type := Z * string.

(** Answers of the world outside the program during one handler run. *)
Record Externals := {
  fetchFile : string -> option string;
  ffmpegRun : FfmpegCommand -> bool;
  sendToChannel : SendMethod -> string -> Caption -> option Message;
  deleteMessage : option Z -> option Z -> bool;
  deleteProcessingMsg : bool;
  replyWithMedia : bool
}.

Definition tempDir : string := "temp".

Definition pathJoin (dir name : string) : string :=
  String.append dir (String "/" name).

Definition downloadFile (ext : Externals) (fileId : string) : M string :=
  match fetchFile ext fileId with
  | Some filePath => ret filePath
  | None => run emit (ConsoleError TelegramError) in throw FailedToDownload
  end.

Definition getAvailableFormats (fileType : FileType) : list (string * string) :=
  match fileType with
  | Video =>
      [("360p", "360p"); ("480p", "480p"); ("720p", "720p");
       ("1080p", "1080p"); ("Extract MP3", "mp3")]
  | Audio => [("MP3", "mp3"); ("WAV", "wav"); ("OGG", "ogg")]
  end.

(** The command [convertVideo] builds before it starts ffmpeg. *)
Definition videoCommand (inputPath format : string) : FfmpegCommand :=
  let outputFileName :=
    String.append (Js.stem inputPath)
      (String.append "_"
         (String.append format
            (if String.eqb format "mp3" then ".mp3" else ".mp4"))) in
  let outputPath := pathJoin tempDir outputFileName in
  if String.eqb format "mp3" then
    {| cmd_input := inputPath; cmd_noVideo := true; cmd_videoCodec := None;
       cmd_size := None; cmd_audioCodec := Some "libmp3lame";
       cmd_audioBitrate := Some 192; cmd_format := Some "mp3";
       cmd_output := outputPath |}
  else
    let height := Js.parseInt (Js.replace_first "p" format) in
    let width := (fun h => h * 16 / 9) <$> height in
    {| cmd_input := inputPath; cmd_noVideo := false;
       cmd_videoCodec := Some "libx264"; cmd_size := Some (width, height);
       cmd_audioCodec := Some "aac"; cmd_audioBitrate := Some 128;
       cmd_format := Some "mp4"; cmd_output := outputPath |}.

Definition convertVideo (ext : Externals) (inputPath format : string) : M string :=
  let command := videoCommand inputPath format in
  if ffmpegRun ext command then ret (cmd_output command)
  else run emit (ConsoleError FfmpegError) in throw FailedToConvertVideo.

(** The command [convertAudio] builds; [None] for an unsupported format. *)
Definition audioCommand (inputPath format : string) : option FfmpegCommand :=
  let outputPath :=
    pathJoin tempDir
      (String.append (Js.stem inputPath) (String "." format)) in
  let base codec rate :=
    {| cmd_input := inputPath; cmd_noVideo := false; cmd_videoCodec := None;
       cmd_size := None; cmd_audioCodec := Some codec;
       cmd_audioBitrate := rate; cmd_format := Some format;
       cmd_output := outputPath |} in
  if String.eqb format "mp3" then Some (base "libmp3lame" (Some 192))
  else if String.eqb format "wav" then Some (base "pcm_s16le" None)
  else if String.eqb format "ogg" then Some (base "libvorbis" (Some 192))
  else None.

Definition convertAudio (ext : Externals) (inputPath format : string) : M string :=
  match audioCommand inputPath format with
  | None => throw UnsupportedFormat
  | Some command =>
      if ffmpegRun ext command then ret (cmd_output command)
      else run emit (ConsoleError FfmpegError) in throw FailedToConvertAudio
  end.

Definition sendMethodFor (filePath : string) : SendMethod :=
  let fileExt := Js.toLowerCase (Js.extname filePath) in
  if existsb (String.eqb fileExt) [".mp4"; ".avi"; ".mov"; ".mkv"] then SendVideo
  else if existsb (String.eqb fileExt) [".mp3"; ".wav"; ".ogg"] then SendAudio
  else SendDocument.

Definition msPerHour : Z := 60 * 60 * 1000.

(** The document [uploadToStorageChannel] stores for later cleanup. *)
Definition stageRecord (cfg : Config) (now : Z) (message : Message) : ConvDoc :=
  {| doc_message_id := Some (message_id message);
     doc_chat_id := Some (STORAGE_CHANNEL_ID cfg);
     doc_file_id := anyFileId message;
     doc_created_at := Some now;
     doc_expires_at := Some (now + FILE_DELETE_AFTER_HOURS cfg * msPerHour);
     doc_user_id := None; doc_original_file_id := None;
     doc_converted_file_id := None; doc_format := None |}.

(** [conversionsRef.add(doc)]: the document gets an id not in use. *)
Definition addDoc (d : ConvDoc) (st : State) : State :=
  with_conversions (<[fresh (dom (conversions st)) := d]> (conversions st)) st.

Definition addConversion (d : ConvDoc) : M unit := modify (addDoc d).

Definition uploadToStorageChannel (cfg : Config) (ext : Externals) (now : Z)
    (filePath : string) (caption : Caption) : M Message :=
  match sendToChannel ext (sendMethodFor filePath) filePath caption with
  | Some message =>
      run addConversion (stageRecord cfg now message) in
      ret message
  | None => run emit (ConsoleError TelegramError) in throw FailedToUpload
  end.

Definition isExpired (now : Z) (d : ConvDoc) : bool :=
  match doc_expires_at d with
  | Some e => e <=? now
  | None => false
  end.

Definition expiredFiles (now : Z) (st : State) : gmap nat ConvDoc :=
  filter (fun kd => isExpired now kd.2 = true) (conversions st).

(** One iteration of the [forEach]: the remote delete, whose failure is
    only logged, and the delete of the document. *)
Definition sweepOne (ext : Externals) (kd : nat * ConvDoc) (st : State) : State :=
  let st1 :=
    if deleteMessage ext (doc_chat_id kd.2) (doc_message_id kd.2) then st
    else with_trace (trace st ++ [ConsoleError TelegramError]) st in
  with_conversions (delete kd.1 (conversions st1)) st1.

(** The sweep.  All deletions are started in the [forEach] and awaited
    together; a failed remote deletion is caught where it is started. *)
Definition cleanupOldFiles (ext : Externals) (now : Z) : M nat :=
  fun st =>
    let expiredFilesSnapshot := expiredFiles now st in
    if decide (expiredFilesSnapshot = ∅) then (Ok 0%nat, st)
    else
      (Ok (size expiredFilesSnapshot),
       foldl (fun acc kd => sweepOne ext kd acc) st
         (map_to_list expiredFilesSnapshot)).

Definition cleanupTempFiles (filePaths : list string) : M unit :=
  emit (RemovedTemp filePaths).

(** ** mediaHandlers *)

Definition isFileSizeValid (cfg : Config) (fileSize : Z) : bool :=
  fileSize <=? MAX_FILE_SIZE_MB cfg * 1024 * 1024.

(** The media part of an incoming message. *)
Record Media := {
  media_file_id : string;
  media_file_name : option string;
  media_file_size : Z;
  media_mime_type : string
}.

Definition reply (userId : Z) (r : Reply) : M unit := emit (Replied userId r).

Definition setFileInfo (userId : Z) (info : FileInfo) : M unit :=
  modify (fun st => with_sessions (<[userId := info]> (sessions st)) st).

Definition defaultName (fileType : FileType) (now : Z) : FileName :=
  match fileType with
  | Video => Generated "video_" now ".mp4"
  | Audio => Generated "audio_" now ".mp3"
  end.

(** The object stored as [ctx.session.fileInfo]. *)
Definition fileInfoOf (fileType : FileType) (now : Z) (media : Media) : FileInfo :=
  {| fileId := media_file_id media; fileType := fileType;
     fileName := match media_file_name media with
                 | Some n => Given n
                 | None => defaultName fileType now
                 end;
     fileSize := media_file_size media |}.

(** The checks and the session write that [videoHandler], [audioHandler]
    and both branches of [documentHandler] repeat. *)
Definition acceptUpload (cfg : Config) (now userId : Z) (fileType : FileType)
    (media : Media) : M unit :=
  let* user := getOrCreateUser now userId noUserData in
  if credits user <? CREDIT_PER_CONVERSION cfg then reply userId NotEnoughCredits
  else
    let* limited := checkDailyLimit cfg now userId in
    if limited then reply userId DailyLimitReached
    else
      let fileSize := media_file_size media in
      if negb (isFileSizeValid cfg fileSize) then reply userId FileTooLarge
      else
        run setFileInfo userId (fileInfoOf fileType now media) in
        reply userId (SelectFormat (snd <$> getAvailableFormats fileType)).

Definition onError (userId : Z) (r : Reply) (e : Error) : M unit :=
  run emit (ConsoleError e) in reply userId r.

Definition videoHandler (cfg : Config) (now userId : Z) (media : Media) : M unit :=
  try_catch (acceptUpload cfg now userId Video media)
    (onError userId ErrorOccurred).

Definition audioHandler (cfg : Config) (now userId : Z) (media : Media) : M unit :=
  try_catch (acceptUpload cfg now userId Audio media)
    (onError userId ErrorOccurred).

Definition documentHandler (cfg : Config) (now userId : Z) (media : Media) : M unit :=
  try_catch
    (if Js.startsWith "video/" (media_mime_type media)
     then acceptUpload cfg now userId Video media
     else if Js.startsWith "audio/" (media_mime_type media)
     then acceptUpload cfg now userId Audio media
     else reply userId UnsupportedFile)
    (onError userId ErrorOccurred).

(** The document [convertHandler] logs after the debit. *)
Definition usageRecord (now userId : Z) (fileInfo : FileInfo) (message : Message)
    (format : string) : ConvDoc :=
  {| doc_message_id := None; doc_chat_id := None; doc_file_id := None;
     doc_created_at := Some now; doc_expires_at := None;
     doc_user_id := Some userId;
     doc_original_file_id := Some (fileId fileInfo);
     doc_converted_file_id := anyFileId message;
     doc_format := Some format |}.

(** [users.doc(id).update({usage_count: increment(1)})]; an update of a
    missing document is rejected. *)
Definition incrementUsage (userId : Z) : M unit :=
  fun st =>
    match users st !! userId with
    | Some u =>
        (Ok tt,
         with_users (<[userId := set_usage_count (usage_count u + 1) u]> (users st)) st)
    | None => (Throw NotFound, st)
    end.

Definition external (ok : bool) : M unit :=
  if ok then ret tt else throw TelegramError.

(** An attachment read as [message.video.file_id]: a TypeError when the
    message has no such attachment. *)
Definition attachment (a : option string) : M string :=
  match a with
  | Some f => ret f
  | None => throw TypeError
  end.

(** The last part of the [try] block: sending the converted file.  The
    caption calls [updateCredits(userId, 0)] to read the balance.  The
    final [else] of the source ([replyWithDocument]) cannot be reached
    with a file type that is video or audio. *)
Definition deliver (ext : Externals) (now userId : Z) (fileInfo : FileInfo)
    (format : string) (message : Message) : M unit :=
  match fileType fileInfo with
  | Video =>
      if negb (String.eqb format "mp3") then
        let* f := attachment (msg_video message) in
        let* remaining := updateCredits now userId 0 in
        run external (replyWithMedia ext) in
        reply userId (ConvertedVideo f format remaining)
      else
        let* f := attachment (msg_audio message) in
        let* remaining := updateCredits now userId 0 in
        run external (replyWithMedia ext) in
        reply userId (ConvertedAudio f format remaining)
  | Audio =>
      let* f := attachment (msg_audio message) in
      let* remaining := updateCredits now userId 0 in
      run external (replyWithMedia ext) in
      reply userId (ConvertedAudio f format remaining)
  end.

(** The branch on [fileInfo.fileType] that picks the converter; the
    handlers store no file type other than video and audio. *)
Definition convertFile (ext : Externals) (fileInfo : FileInfo)
    (downloadedFilePath format : string) : M string :=
  match fileType fileInfo with
  | Video => convertVideo ext downloadedFilePath format
  | Audio => convertAudio ext downloadedFilePath format
  end.

Definition clearSession (userId : Z) : M unit :=
  modify (fun st => with_sessions (delete userId (sessions st)) st).

(** The [try] block of [convertHandler] once the session is read. *)
Definition pipeline (cfg : Config) (ext : Externals) (now userId : Z)
    (format : string) (fileInfo : FileInfo) : M unit :=
  run reply userId Processing in
  let* downloadedFilePath := downloadFile ext (fileId fileInfo) in
  let* convertedFilePath := convertFile ext fileInfo downloadedFilePath format in
  let* message :=
    uploadToStorageChannel cfg ext now convertedFilePath (userId, format) in
  let* _ := updateCredits now userId (- CREDIT_PER_CONVERSION cfg) in
  run incrementUsage userId in
  run addConversion (usageRecord now userId fileInfo message format) in
  run external (deleteProcessingMsg ext) in
  run deliver ext now userId fileInfo format message in
  run cleanupTempFiles [downloadedFilePath; convertedFilePath] in
  clearSession userId.

Definition convertHandler (cfg : Config) (ext : Externals) (now userId : Z)
    (format : string) : M unit :=
  try_catch
    (let* user := getOrCreateUser now userId noUserData in
     let* st := get in
     match sessions st !! userId with
     | None => reply userId SessionExpired
     | Some fileInfo => pipeline cfg ext now userId format fileInfo
     end)
    (onError userId ConversionFailed).

(** ** commandHandlers *)

Definition referrerOf (startPayload : string) : option Z :=
  if negb (String.eqb startPayload "") && Js.startsWith "ref_" startPayload
  then Js.parseInt (Js.replace_first "ref_" startPayload)
  else None.

Definition startHandler (cfg : Config) (now userId : Z) (userName : string)
    (startPayload : string) : M unit :=
  try_catch
    (let referrerId := referrerOf startPayload in
     let* user :=
       getOrCreateUser now userId
         {| ud_username := Some userName; ud_referrer_id := referrerId |} in
     run (if Js.truthy_num referrerId && Js.truthy_obj (created_at user)
          then let* _ := processReferral cfg now referrerId userId in ret tt
          else ret tt) in
     reply userId (Welcome (credits user)))
    (onError userId ErrorOccurred).

(** ** Vocabulary of the statements *)

(** The stored balance of an account, when the account exists. *)
Definition balance (userId : Z) (st : State) : option Z :=
  credits <$> users st !! userId.

(** No stored balance is negative. *)
Definition ledgerOk (st : State) : Prop :=
  ∀ userId u, users st !! userId = Some u → 0 ≤ credits u.

(** The service calls that touch a balance, each with the time of the
    call. *)
Inductive LedgerOp :=
| OpCreate (now userId : Z) (userData : UserData)
| OpUpdate (now userId amount : Z)
| OpReferral (now : Z) (referrerId : option Z) (newUserId : Z)
| OpReset (now userId : Z).

Definition applyOp (cfg : Config) (op : LedgerOp) (st : State) : State :=
  match op with
  | OpCreate now userId userData => (getOrCreateUser now userId userData st).2
  | OpUpdate now userId amount => (updateCredits now userId amount st).2
  | OpReferral now referrerId newUserId =>
      (processReferral cfg now referrerId newUserId st).2
  | OpReset now userId => (resetUser now userId st).2
  end.

Definition applyOps (cfg : Config) (ops : list LedgerOp) (st : State) : State :=
  foldl (fun acc op => applyOp cfg op acc) st ops.

(** Every state a reader can see while the operations run, the first
    and the last included. *)
Fixpoint observed (cfg : Config) (ops : list LedgerOp) (st : State) : list State :=
  match ops with
  | [] => [st]
  | op :: ops' => st :: observed cfg ops' (applyOp cfg op st)
  end.

(** The delta an operation applies to the balance of [userId] in [st]:
    the amount of an accepted [updateCredits], the bonus of an awarded
    referral, nothing for a rejected call. *)
Definition appliedDelta (cfg : Config) (userId : Z) (op : LedgerOp) (st : State) : Z :=
  match op with
  | OpUpdate now target amount =>
      match updateCredits now target amount st with
      | (Ok _, _) => if decide (target = userId) then amount else 0
      | (Throw _, _) => 0
      end
  | OpReferral now referrerId newUserId =>
      match processReferral cfg now referrerId newUserId st with
      | (Ok true, _) => if decide (referrerId = Some userId) then REFERRAL_BONUS cfg else 0
      | _ => 0
      end
  | OpCreate _ _ _ | OpReset _ _ => 0
  end.

Fixpoint appliedDeltas (cfg : Config) (userId : Z) (ops : list LedgerOp)
    (st : State) : Z :=
  match ops with
  | [] => 0
  | op :: ops' =>
      appliedDelta cfg userId op st
      + appliedDeltas cfg userId ops' (applyOp cfg op st)
  end.

Definition isResetOf (userId : Z) (op : LedgerOp) : bool :=
  match op with
  | OpReset _ target => bool_decide (target = userId)
  | _ => false
  end.

(** A zone whose local time is always [offset] ms ahead of UTC. *)
Definition fixedZone (offset : Z) : Zone :=
  {| LocalTZA := fun _ _ => offset;
     midnight_past :=
       ltac:(intros now; unfold localMidnight, msPerDay;
             pose proof (Z.mod_pos_bound (now + offset) (24 * 60 * 60 * 1000));
             lia) |}.

(** Sample configuration and states used by the worked examples: a
    server that runs on UTC. *)
Definition sampleConfig : Config :=
  {| CREDIT_PER_CONVERSION := 1; REFERRAL_BONUS := 5; MAX_FILE_SIZE_MB := 20;
     FILE_DELETE_AFTER_HOURS := 2; DAILY_LIMIT := 3;
     STORAGE_CHANNEL_ID := -1001; TZ := fixedZone 0 |}.

Definition sampleUser (userId balance : Z) : User :=
  {| user_id := userId; credits := balance; referrals := 0; usage_count := 0;
     last_activity := 0; created_at := Some 0; username := None;
     referrer_id := None |}.

Definition emptyState : State :=
  {| users := ∅; conversions := ∅; sessions := ∅; trace := [] |}.

Definition oneUser (userId balance : Z) : State :=
  with_users {[ userId := sampleUser userId balance ]} emptyState.

(** The resolution profiles offered for a video, with their heights. *)
Definition resolutionProfiles : list (string * Z) :=
  [("360p", 360); ("480p", 480); ("720p", 720); ("1080p", 1080)].

(** [w] is the integer part of [h * 16 / 9]. *)
Definition isFloor16by9 (h w : Z) : Prop := 9 * w ≤ 16 * h < 9 * (w + 1).

(** Answers of the outside world used by the worked examples. *)
Definition sampleMessage : Message :=
  {| message_id := 7; kind := VideoMessage; file_id := "FILE" |}.

Definition reliable : Externals :=
  {| fetchFile := fun _ => Some "temp/1700000000000_42";
     ffmpegRun := fun _ => true;
     sendToChannel := fun _ _ _ => Some sampleMessage;
     deleteMessage := fun _ _ => true;
     deleteProcessingMsg := true;
     replyWithMedia := true |}.

Definition remoteDeleteFails : Externals :=
  {| fetchFile := fetchFile reliable; ffmpegRun := ffmpegRun reliable;
     sendToChannel := sendToChannel reliable;
     deleteMessage := fun _ _ => false;
     deleteProcessingMsg := true; replyWithMedia := true |}.

Definition downloadFails : Externals :=
  {| fetchFile := fun _ => None; ffmpegRun := ffmpegRun reliable;
     sendToChannel := sendToChannel reliable;
     deleteMessage := deleteMessage reliable;
     deleteProcessingMsg := true; replyWithMedia := true |}.

(** The console errors a sweep writes for the documents [l]. *)
Definition sweepLog (ext : Externals) (l : list (nat * ConvDoc)) : list Event :=
  flat_map
    (fun kd => if deleteMessage ext (doc_chat_id kd.2) (doc_message_id kd.2)
               then [] else [ConsoleError TelegramError]) l.

(** One staged record, written at time 0 and due at 2 hours. *)
Definition oneStaged : State :=
  with_conversions {[ 0%nat := stageRecord sampleConfig 0 sampleMessage ]} emptyState.

(** A computation that leaves one component of the state alone,
    whether it returns or throws. *)
Definition keeps {A X : Type} (f : State → X) (m : M A) : Prop :=
  ∀ st, f (m st).2 = f st.

(** A computation that deletes the session of [userId] when it returns
    and leaves the sessions alone when it throws. *)
Definition consumesSession {A : Type} (userId : Z) (m : M A) : Prop :=
  ∀ st,
    match m st with
    | (Ok _, st') => sessions st' = delete userId (sessions st)
    | (Throw _, st') => sessions st' = sessions st
    end.

Definition sampleInfo : FileInfo :=
  {| fileId := "SRC"; fileType := Video; fileName := Given "clip.mp4";
     fileSize := 1000 |}.

(** An account with a balance and a pending upload. *)
Definition uploaded (userId balance : Z) : State :=
  with_sessions {[ userId := sampleInfo ]} (oneUser userId balance).

(** How many conversions the daily-limit query counts for [userId]. *)
Definition countSince (today userId : Z) (st : State) : nat :=
  size (todayConversions today userId st).

Definition countToday (cfg : Config) (now userId : Z) (st : State) : nat :=
  countSince (startOfDay cfg now) userId st.



(** The state after the two documents of a conversion are added. *)
Definition withBothRecords (cfg : Config) (now userId : Z) (format : string)
    (info : FileInfo) (message : Message) (st : State) : State :=
  addDoc (usageRecord now userId info message format)
    (addDoc (stageRecord cfg now message) st).

(** The part of the pipeline that follows the staged upload: the debit,
    the usage record, the delivery and the cleanup. *)
Definition settle (cfg : Config) (ext : Externals) (now userId : Z)
    (format : string) (fileInfo : FileInfo)
    (downloadedFilePath convertedFilePath : string) (message : Message) : M unit :=
  let* _ := updateCredits now userId (- CREDIT_PER_CONVERSION cfg) in
  run incrementUsage userId in
  run addConversion (usageRecord now userId fileInfo message format) in
  run external (deleteProcessingMsg ext) in
  run deliver ext now userId fileInfo format message in
  run cleanupTempFiles [downloadedFilePath; convertedFilePath] in
  clearSession userId.

Definition sampleMedia : Media :=
  {| media_file_id := "SRC"; media_file_name := Some "clip.mp4";
     media_file_size := 1000; media_mime_type := "video/mp4" |}.

(** Account 1 uploads a video while it has one credit; the
    administrator then takes the credit back with /addcredits 1 -1. *)
Definition spentAfterUpload : State :=
  (updateCredits 60 1 (-1)
     (videoHandler sampleConfig 50 1 sampleMedia (oneUser 1 1)).2).2.

(** The replies that hand a converted file to the user. *)
Definition isDelivery (r : Reply) : bool :=
  match r with
  | ConvertedVideo _ _ _ | ConvertedAudio _ _ _ => true
  | _ => false
  end.












(** Another client that credits an account. *)
Definition otherCredits (now userId amount : Z) : State → State :=
  fun st => (updateCredits now userId amount st).2.

(** A server in a zone five and a half hours ahead of UTC. *)
Definition aheadConfig : Config :=
  {| CREDIT_PER_CONVERSION := 1; REFERRAL_BONUS := 5; MAX_FILE_SIZE_MB := 20;
     FILE_DELETE_AFTER_HOURS := 2; DAILY_LIMIT := 3;
     STORAGE_CHANNEL_ID := -1001; TZ := fixedZone 19800000 |}.


(** ** Vocabulary of the further properties *)

(** Telegram refuses to delete the "Processing" message. *)
Definition deleteProcessingFails : Externals :=
  {| fetchFile := fetchFile reliable; ffmpegRun := ffmpegRun reliable;
     sendToChannel := sendToChannel reliable;
     deleteMessage := deleteMessage reliable;
     deleteProcessingMsg := false; replyWithMedia := true |}.

(** ffmpeg fails. *)
Definition transcodeFails : Externals :=
  {| fetchFile := fetchFile reliable; ffmpegRun := fun _ => false;
     sendToChannel := sendToChannel reliable;
     deleteMessage := deleteMessage reliable;
     deleteProcessingMsg := true; replyWithMedia := true |}.

(** The errors the pipeline can throw before it reaches the debit. *)
Definition thrownBeforeDebit (e : Error) : bool :=
  match e with
  | FailedToDownload | FailedToConvertVideo | FailedToConvertAudio
  | UnsupportedFormat | FailedToUpload => true
  | _ => false
  end.

(** The errors of the steps that follow the debit and the usage record. *)
Definition thrownAfterDebit (e : Error) : bool :=
  match e with
  | TelegramError | TypeError => true
  | _ => false
  end.

Definition isRemovedTemp (ev : Event) : bool :=
  match ev with RemovedTemp _ => true | _ => false end.

(** ** Numbers as text *)

Module JsText.

Definition digitChar (d : Z) : ascii := ascii_of_nat (48 + Z.to_nat d).

(** The decimal digits of a number that is not negative, most
    significant first; [fuel] bounds the number of digits. *)
Fixpoint digitsOf (fuel : nat) (n : Z) : string :=
  match fuel with
  | O => EmptyString
  | S fuel' =>
      if n <? 10 then String (digitChar n) EmptyString
      else String.append (digitsOf fuel' (n / 10))
             (String (digitChar (n mod 10)) EmptyString)
  end.

(** [String(n)] and [`${n}`] for an integer, below the size at which
    JavaScript switches to the exponent notation. *)
Definition decimal (n : Z) : string :=
  if n <? 0 then String "-" (digitsOf (S (Z.to_nat (Z.log2 (- n)))) (- n))
  else digitsOf (S (Z.to_nat (Z.log2 n))) n.

(** [s.split(sep)] for a separator of one character. *)
Fixpoint split (sep : ascii) (s : string) : list string :=
  match s with
  | EmptyString => [EmptyString]
  | String c s' =>
      if Ascii.eqb c sep then EmptyString :: split sep s'
      else match split sep s' with
           | w :: ws => String c w :: ws
           | [] => [String c EmptyString]
           end
  end.

Fixpoint allDigits (s : string) : Prop :=
  match s with
  | EmptyString => True
  | String c s' => (∃ d, 0 ≤ d < 10 ∧ c = digitChar d) ∧ allDigits s'
  end.

Fixpoint noSpace (s : string) : Prop :=
  match s with
  | EmptyString => True
  | String c s' => c ≠ " "%char ∧ noSpace s'
  end.

End JsText.

(** ** helpers.js *)

(** [isAdmin]: the id, written as text, is the text of ADMIN_ID
    ([None] when the variable is not set). *)
Definition isAdmin (adminIdText : option string) (userId : Z) : bool :=
  match adminIdText with
  | Some t => String.eqb (JsText.decimal userId) t
  | None => false
  end.

Definition plural (many : bool) : string := if many then "s" else "".

(** `${count} ${unit}${s} ago` *)
Definition ago (count : Z) (unit : string) (many : bool) : string :=
  String.append (JsText.decimal count)
    (String.append " " (String.append unit (String.append (plural many) " ago"))).

(** [getTimeDifference], with [now] the value of [new Date()] and both
    dates in milliseconds; [Math.floor] of a quotient is the integer
    division. *)
Definition getTimeDifference (now date : Z) : string :=
  let diff := now - date in
  let seconds := diff / 1000 in
  let minutes := seconds / 60 in
  let hours := minutes / 60 in
  let days := hours / 24 in
  if 0 <? days then ago days "day" (1 <? days)
  else if 0 <? hours then ago hours "hour" (1 <? hours)
  else if 0 <? minutes then ago minutes "minute" (1 <? minutes)
  else ago seconds "second" (negb (seconds =? 1)).

Inductive TimeUnit := Seconds | Minutes | Hours | Days.

Definition unitName (u : TimeUnit) : string :=
  match u with
  | Seconds => "second" | Minutes => "minute" | Hours => "hour" | Days => "day"
  end.

Definition unitMs (u : TimeUnit) : Z :=
  match u with
  | Seconds => 1000 | Minutes => 60000 | Hours => 3600000 | Days => 86400000
  end.

(** The next coarser unit, if there is one. *)
Definition coarser (u : TimeUnit) : option TimeUnit :=
  match u with
  | Seconds => Some Minutes | Minutes => Some Hours | Hours => Some Days
  | Days => None
  end.

Definition characters : string :=
  "ABCDEFGHIJKLMNOPQRSTUVWXYZabcdefghijklmnopqrstuvwxyz0123456789".

(** [characters.charAt(i)]: the empty string out of range. *)
Definition charAt (s : string) (i : nat) : string :=
  match String.get i s with
  | Some c => String c EmptyString
  | None => EmptyString
  end.

(** The loop of [generateRandomString]: [random i] is the index
    [Math.floor(Math.random() * characters.length)] drawn in round [i],
    [rounds] the number of rounds still to run. *)
Fixpoint randomLoop (random : nat → nat) (i rounds : nat) (result : string) : string :=
  match rounds with
  | O => result
  | S rounds' =>
      randomLoop random (S i) rounds'
        (String.append result (charAt characters (random i)))
  end.

Definition generateRandomString (random : nat → nat) (length : Z) : string :=
  randomLoop random 0 (Z.to_nat length) EmptyString.

(** ** commandHandlers *)

(** What a command handler passes to [ctx.reply]: the value its
    computation returns. *)
Inductive CommandReply :=
| HelpText
| BuyText
| CreditsBalance (balance : Z)
| ReferralLink (botUsername startParameter : string) (invited : Z)
| PermissionDenied
| StatsReport (stats : Stats)
| AddCreditsUsage
| InvalidNumbers
| CreditsUpdated (target newBalance : Z)
| ResetUsage
| InvalidUserId
| ResetDone (target : Z)
| ResetNotFound (target : Z)
| ErrorMessage (e : Error)
| CommandFailed.

(** [catch (error) { console.error(...); await ctx.reply(...) }] *)
Definition caught (m : M CommandReply) (answer : Error → CommandReply) : M CommandReply :=
  try_catch m (fun e => run emit (ConsoleError e) in ret (answer e)).

Definition helpHandler : M CommandReply := ret HelpText.

Definition buyHandler : M CommandReply := ret BuyText.

Definition creditsHandler (now userId : Z) : M CommandReply :=
  caught
    (let* user := getOrCreateUser now userId noUserData in
     ret (CreditsBalance (credits user)))
    (fun _ => CommandFailed).

(** The start parameter of the link `https://t.me/${botUsername}?start=ref_${userId}`. *)
Definition referralParameter (userId : Z) : string :=
  String.append "ref_" (JsText.decimal userId).

Definition referHandler (now userId : Z) (botUsername : string) : M CommandReply :=
  caught
    (let* user := getOrCreateUser now userId noUserData in
     ret (ReferralLink botUsername (referralParameter userId) (referrals user)))
    (fun _ => CommandFailed).

(** [userId != process.env.ADMIN_ID]: [adminId] is the number the text
    of ADMIN_ID stands for in that comparison, [None] when the variable
    is not set or is not a number. *)
Definition notAdmin (adminId : option Z) (userId : Z) : bool :=
  negb (bool_decide (adminId = Some userId)).

Definition statsHandler (cfg : Config) (adminId : option Z) (now userId : Z)
    : M CommandReply :=
  caught
    (if notAdmin adminId userId then ret PermissionDenied
     else let* stats := getStats cfg now in ret (StatsReport stats))
    (fun _ => CommandFailed).

Definition addCreditsHandler (adminId : option Z) (now userId : Z) (text : string)
    : M CommandReply :=
  caught
    (if notAdmin adminId userId then ret PermissionDenied
     else
       match JsText.split " " text with
       | [_; a1; a2] =>
           match Js.parseInt a1, Js.parseInt a2 with
           | Some targetUserId, Some amount =>
               let* newBalance := updateCredits now targetUserId amount in
               ret (CreditsUpdated targetUserId newBalance)
           | _, _ => ret InvalidNumbers
           end
       | _ => ret AddCreditsUsage
       end)
    ErrorMessage.

Definition resetHandler (adminId : option Z) (now userId : Z) (text : string)
    : M CommandReply :=
  caught
    (if notAdmin adminId userId then ret PermissionDenied
     else
       match JsText.split " " text with
       | [_; a1] =>
           match Js.parseInt a1 with
           | Some targetUserId =>
               let* success := resetUser now targetUserId in
               ret (if success then ResetDone targetUserId
                    else ResetNotFound targetUserId)
           | None => ret InvalidUserId
           end
       | _ => ret ResetUsage
       end)
    ErrorMessage.

(** ** index.js: what the bot does with each update *)

Inductive BotEvent :=
| OnStart (now userId : Z) (userName payload : string)
| OnHelp
| OnBuy
| OnCredits (now userId : Z)
| OnRefer (now userId : Z) (botUsername : string)
| OnStats (now userId : Z)
| OnAddCredits (now userId : Z) (text : string)
| OnResetCommand (now userId : Z) (text : string)
| OnVideo (now userId : Z) (media : Media)
| OnAudio (now userId : Z) (media : Media)
| OnDocument (now userId : Z) (media : Media)
| OnConvert (ext : Externals) (now userId : Z) (format : string)
| OnCleanupJob (ext : Externals) (now : Z).

(** The hourly job: an error of the sweep is logged. *)
Definition cleanupJob (ext : Externals) (now : Z) : M unit :=
  try_catch (let* _ := cleanupOldFiles ext now in ret tt)
    (fun e => emit (ConsoleError e)).

Definition forget {A} (m : M A) : M unit := let* _ := m in ret tt.

Definition dispatch (cfg : Config) (adminId : option Z) (ev : BotEvent) : M unit :=
  match ev with
  | OnStart now userId userName payload => startHandler cfg now userId userName payload
  | OnHelp => forget helpHandler
  | OnBuy => forget buyHandler
  | OnCredits now userId => forget (creditsHandler now userId)
  | OnRefer now userId botUsername => forget (referHandler now userId botUsername)
  | OnStats now userId => forget (statsHandler cfg adminId now userId)
  | OnAddCredits now userId text => forget (addCreditsHandler adminId now userId text)
  | OnResetCommand now userId text => forget (resetHandler adminId now userId text)
  | OnVideo now userId media => videoHandler cfg now userId media
  | OnAudio now userId media => audioHandler cfg now userId media
  | OnDocument now userId media => documentHandler cfg now userId media
  | OnConvert ext now userId format => convertHandler cfg ext now userId format
  | OnCleanupJob ext now => cleanupJob ext now
  end.

(** The state after the bot has handled the events, one after the other. *)
Definition runBot (cfg : Config) (adminId : option Z) (evs : list BotEvent)
    (st : State) : State :=
  foldl (fun acc ev => (dispatch cfg adminId ev acc).2) st evs.

(** A computation under which a property of the state is kept. *)
Definition preserves {A : Type} (I : State → Prop) (m : M A) : Prop :=
  ∀ st, I st → I (m st).2.

(** The two shapes of a conversion document. *)
Definition stageShaped (d : ConvDoc) : Prop :=
  doc_user_id d = None ∧ is_Some (doc_expires_at d).

Definition usageShaped (d : ConvDoc) : Prop :=
  is_Some (doc_user_id d) ∧ doc_expires_at d = None.

Definition docsOk (st : State) : Prop :=
  ∀ (i : nat) d, conversions st !! i = Some d → stageShaped d ∨ usageShaped d.

(** Every account carries its own id and a creation time. *)
Definition accountsOk (st : State) : Prop :=
  ∀ id u, users st !! id = Some u → user_id u = id ∧ is_Some (created_at u).

(** What the handlers need of a property of the state for it to be kept
    by every bot event: it does not look at the trace or the sessions,
    and each service call that writes to the database keeps it. *)
Definition stable (cfg : Config) (I : State → Prop) : Prop :=
  (∀ t st, I st → I (with_trace t st))
  ∧ (∀ m st, I st → I (with_sessions m st))
  ∧ (∀ now userId userData, preserves I (getOrCreateUser now userId userData))
  ∧ (∀ now userId amount, preserves I (updateCredits now userId amount))
  ∧ (∀ now referrerId newUserId,
       preserves I (processReferral cfg now referrerId newUserId))
  ∧ (∀ now userId, preserves I (resetUser now userId))
  ∧ (∀ userId, preserves I (incrementUsage userId))
  ∧ (∀ now message, preserves I (addConversion (stageRecord cfg now message)))
  ∧ (∀ now userId fileInfo message format,
       preserves I (addConversion (usageRecord now userId fileInfo message format)))
  ∧ (∀ ext now, preserves I (cleanupOldFiles ext now)).

(** A short life of the bot: two users start it, the second one through
    the referral link of the first, uploads a video and has it
    converted; the administrator (account 9) takes four credits from
    the second user and resets the first; the cleanup job runs three
    hours after the conversion. *)
Definition sampleEvents : list BotEvent :=
  [OnStart 100 1 "ann" ""; OnStart 200 2 "bob" "ref_1";
   OnVideo 300 2 sampleMedia; OnConvert reliable 400 2 "720p";
   OnAddCredits 500 9 "/addcredits 2 -4"; OnResetCommand 600 9 "/reset 1";
   OnCleanupJob remoteDeleteFails (400 + 3 * msPerHour)].

(** The attachment of the message Telegram answers with when a send
    method succeeds: [sendVideo] gives [message.video], [sendAudio]
    gives [message.audio], [sendDocument] gives [message.document]. *)
Definition kindSent (m : SendMethod) : MessageKind :=
  match m with
  | SendVideo => VideoMessage
  | SendAudio => AudioMessage
  | SendDocument => DocumentMessage
  end.

(** The send method whose attachment [convertHandler] reads when it
    hands the converted file to the user. *)
Definition methodRead (fileType : FileType) (format : string) : SendMethod :=
  match fileType with
  | Video => if negb (String.eqb format "mp3") then SendVideo else SendAudio
  | Audio => SendAudio
  end.

(** The events whose handlers call neither [updateCredits] nor
    [processReferral] nor [resetUser]: everything but /start,
    /addcredits, /reset and a format selection. *)
Definition chargeFree (ev : BotEvent) : bool :=
  match ev with
  | OnStart _ _ _ _ | OnAddCredits _ _ _ | OnResetCommand _ _ _
  | OnConvert _ _ _ _ => false
  | _ => true
  end.

(** A property of the state that looks at the accounts only and that
    [getOrCreateUser] keeps. *)
Definition quiet (I : State → Prop) : Prop :=
  (∀ st st', users st' = users st → I st → I st')
  ∧ (∀ now userId userData, preserves I (getOrCreateUser now userId userData)).

(** The account [id] with the balance, referral count and usage count
    of [u]. *)
Definition sameCounters (id : Z) (u : User) (st : State) : Prop :=
  ∃ u', users st !! id = Some u'
        ∧ credits u' = credits u ∧ referrals u' = referrals u
        ∧ usage_count u' = usage_count u.

(** An account that counts as active at [now]: it exists and its last
    activity is not before the instant seven local days earlier. *)
Definition activeAccount (cfg : Config) (now : Z) (st : State) (id : Z) : Prop :=
  ∃ u, users st !! id = Some u
       ∧ localDaysAgo (LocalTZA (TZ cfg)) 7 now ≤ last_activity u.

(** Three accounts, last seen at day 0, day 5 and day 10. *)
Definition threeAccounts : State :=
  with_users
    (<[1 := set_last_activity 0 (sampleUser 1 10)]>
       (<[2 := set_last_activity (5 * msPerDay) (sampleUser 2 10)]>
          {[ 3 := set_last_activity (10 * msPerDay) (sampleUser 3 10) ]}))
    emptyState.
(** * Properties *)

(** ** Credit ledger *)

Section Ledger.

Implicit Types (st : State) (u : User).

Lemma updateCredits_missing now userId amount st :
  users st !! userId = None →
  updateCredits now userId amount st = (Throw UserNotFound, st).
Proof. intros H. unfold updateCredits. by rewrite H. Qed.

Lemma updateCredits_rejected now userId amount st u :
  users st !! userId = Some u → credits u + amount < 0 →
  updateCredits now userId amount st = (Throw InsufficientCredits, st).
Proof.
  intros H Hneg. unfold updateCredits. rewrite H.
  by destruct (Z.ltb_spec (credits u + amount) 0); [|lia].
Qed.

Lemma updateCredits_accepted now userId amount st u :
  users st !! userId = Some u → 0 ≤ credits u + amount →
  updateCredits now userId amount st =
    (Ok (credits u + amount),
     with_users
       (<[userId := set_last_activity now (set_credits (credits u + amount) u)]>
          (users st)) st).
Proof.
  intros H Hpos. unfold updateCredits. rewrite H.
  by destruct (Z.ltb_spec (credits u + amount) 0); [lia|].
Qed.

End Ledger.

Lemma updateCredits_alone now userId amount st :
  updateCreditsAmong [] now userId amount st = updateCredits now userId amount st.
Proof.
  unfold updateCreditsAmong, runTransaction, updateCredits. cbn.
  destruct (users st !! userId) as [u|] eqn:Hu; cbn; [|done].
  destruct (credits u + amount <? 0); cbn; [done|].
  unfold commit. by rewrite Hu.
Qed.

(** Whatever the other clients write and however often the commit is
    refused, the transaction ends like [updateCredits] run in one step
    on a state that the other clients' writes alone lead to, or it is
    given up after [attempts] refused commits, without a write. *)
Lemma attempt_linearizes now userId amount attempts others st :
  ∃ k, (k ≤ length others)%nat
       ∧ let sL := interfered (take k others) st in
         attempt attempts others userId (updateCreditsCallback now amount) st
         = updateCredits now userId amount sL
         ∨ ((attempts ≤ k)%nat
            ∧ attempt attempts others userId (updateCreditsCallback now amount) st
              = (Throw TransactionAborted, sL)).
Proof.
  revert others st. induction attempts as [|n IH]; intros others st.
  - exists 0%nat. split; [lia|]. right. by rewrite take_0.
  - cbn [attempt].
    destruct (users st !! userId) as [u|] eqn:Hu.
    + destruct (credits u + amount <? 0) eqn:Hneg.
      * assert (updateCreditsCallback now amount (Some u)
                = TxThrow InsufficientCredits) as ->
          by (unfold updateCreditsCallback; cbn zeta; by rewrite Hneg).
        exists 0%nat. split; [lia|]. left. rewrite take_0. cbn.
        unfold updateCredits. by rewrite Hu, Hneg.
      * assert (updateCreditsCallback now amount (Some u)
                = TxUpdate
                    (fun d => set_last_activity now (set_credits (credits u + amount) d))
                    (credits u + amount)) as ->
          by (unfold updateCreditsCallback; cbn zeta; by rewrite Hneg).
        destruct others as [|other rest].
        { exists 0%nat. split; [cbn; lia|]. left. cbn.
          unfold commit, updateCredits. by rewrite Hu, Hneg. }
        cbn zeta. case_decide as Hsame.
        { exists 1%nat. split; [cbn; lia|]. left.
          change (take 1 (other :: rest)) with (other :: take 0 rest).
          rewrite take_0. cbn.
          unfold commit, updateCredits. by rewrite Hsame, Hneg. }
        destruct (IH rest (other st)) as (k & Hk & Hrun).
        exists (S k). split; [cbn; lia|]. cbn zeta in *.
        change (interfered (take (S k) (other :: rest)) st)
          with (interfered (take k rest) (other st)).
        destruct Hrun as [Hrun|[Hle Hrun]]; [left; exact Hrun|right].
        split; [lia|exact Hrun].
    + change (updateCreditsCallback now amount None) with (@TxThrow Z UserNotFound).
      exists 0%nat. split; [lia|]. left. rewrite take_0. cbn.
      unfold updateCredits. by rewrite Hu.
Qed.

(** C1. [updateCredits] is a single atomic read-modify-write.  While
    other clients write to the database, and as long as Firestore does
    not give the transaction up, its outcome is that of reading,
    checking and writing in one step on a state [sL] that the writes of
    the other clients alone lead to: when the account is missing in
    [sL] it fails with [UserNotFound] and when the balance in [sL] plus
    the amount is negative it fails with [InsufficientCredits], in both
    cases writing nothing; otherwise it returns that balance plus the
    amount and stores exactly that on the account as it is in [sL], so
    no write of another client between its read and its write is lost,
    and every other account, the conversions, the sessions and the
    trace are left as they are in [sL].  With no other client writing,
    this is the [updateCredits] the handlers call. *)
Theorem updateCredits_read_modify_write (others : list (State → State))
    (now userId amount : Z) (st : State) :
  (length others < maxAttempts)%nat →
  (∃ k, (k ≤ length others)%nat
        ∧ let sL := interfered (take k others) st in
          match users sL !! userId with
          | None =>
              updateCreditsAmong others now userId amount st
              = (Throw UserNotFound, sL)
          | Some u =>
              let newBalance := credits u + amount in
              if decide (newBalance < 0)
              then updateCreditsAmong others now userId amount st
                   = (Throw InsufficientCredits, sL)
              else ∃ st',
                  updateCreditsAmong others now userId amount st
                  = (Ok newBalance, st')
                  ∧ users st'
                    = <[userId := set_last_activity now (set_credits newBalance u)]>
                        (users sL)
                  ∧ balance userId st' = Some newBalance
                  ∧ (∀ other, other ≠ userId →
                       users st' !! other = users sL !! other)
                  ∧ conversions st' = conversions sL
                  ∧ sessions st' = sessions sL
                  ∧ trace st' = trace sL
          end)
  ∧ updateCreditsAmong [] now userId amount st = updateCredits now userId amount st.
Proof.
  intros Hfew. split; [|apply updateCredits_alone].
  destruct (attempt_linearizes now userId amount maxAttempts others st)
    as (k & Hk & Hrun).
  exists k. split; [done|]. cbn zeta in *.
  destruct Hrun as [Hrun|[Hle _]]; [|lia].
  unfold updateCreditsAmong, runTransaction. rewrite Hrun.
  set (sL := interfered (take k others) st).
  destruct (users sL !! userId) as [u|] eqn:Hu.
  - case_decide as Hneg.
    + by apply (updateCredits_rejected _ _ _ _ u).
    + eexists. split; [apply (updateCredits_accepted _ _ _ _ u); [done|lia]|].
      unfold balance; cbn. rewrite lookup_insert_eq. split; [done|].
      split; [done|]. split; [|done]. intros other Hne. by rewrite lookup_insert_ne.
  - by apply updateCredits_missing.
Qed.

(** Account 1 has 10 credits; while the transaction that adds 3 is
    under way another client adds 5.  The commit is refused, the
    callback runs again, and the account ends with 18 credits: the
    transaction is one step after the other client's write. *)
Lemma updateCredits_read_modify_write_witness :
  (length [otherCredits 50 1 5] < maxAttempts)%nat
  ∧ (∃ st', updateCreditsAmong [otherCredits 50 1 5] 100 1 3 (oneUser 1 10)
            = (Ok 18, st')
            ∧ balance 1 st' = Some 18)
  ∧ updateCreditsAmong [] 100 1 3 (oneUser 1 10) = updateCredits 100 1 3 (oneUser 1 10).
Proof.
  assert (Hfew : (length [otherCredits 50 1 5] < maxAttempts)%nat)
    by (vm_compute; lia).
  split; [exact Hfew|].
  destruct (updateCredits_read_modify_write [otherCredits 50 1 5] 100 1 3
              (oneUser 1 10) Hfew) as [_ Halone].
  split; [|exact Halone].
  eexists. split; [vm_compute; reflexivity|]. by vm_compute.
Defined.

Section LedgerInvariant.

Variable cfg : Config.
Hypothesis bonus_nonneg : 0 ≤ REFERRAL_BONUS cfg.

Lemma ledgerOk_insert (st : State) (userId : Z) (u : User) :
  ledgerOk st → 0 ≤ credits u →
  ledgerOk (with_users (<[userId := u]> (users st)) st).
Proof.
  intros Hok Hu id v. cbn. rewrite lookup_insert.
  case_decide; [intros [= <-]; done | apply Hok].
Qed.

Lemma applyOp_ledgerOk (op : LedgerOp) (st : State) :
  ledgerOk st → ledgerOk (applyOp cfg op st).
Proof using bonus_nonneg.
  intros Hok. destruct op as [now id ud|now id amount|now r n|now id]; cbn.
  - unfold getOrCreateUser.
    destruct (users st !! id) as [u|] eqn:Hu; cbn.
    + apply ledgerOk_insert; [done|]. cbn. by apply (Hok id).
    + by apply ledgerOk_insert.
  - unfold updateCredits.
    destruct (users st !! id) as [u|] eqn:Hu; cbn; [|done].
    destruct (Z.ltb_spec (credits u + amount) 0); cbn; [done|].
    by apply ledgerOk_insert.
  - unfold processReferral. destruct r as [r|]; [|done].
    destruct ((r =? 0) || (r =? n)); [done|].
    destruct (users st !! r) as [u|] eqn:Hu; cbn; [|done].
    apply ledgerOk_insert; [done|]. cbn.
    pose proof (Hok r u Hu). lia.
  - unfold resetUser.
    destruct (users st !! id) as [u|] eqn:Hu; cbn; [|done].
    by apply ledgerOk_insert.
Qed.

Lemma observed_ledgerOk (ops : list LedgerOp) (st : State) :
  ledgerOk st → Forall ledgerOk (observed cfg ops st).
Proof using bonus_nonneg.
  revert st. induction ops as [|op ops IH]; intros st Hok; cbn.
  - by constructor.
  - constructor; [done|]. by apply IH, applyOp_ledgerOk.
Qed.

Lemma last_observed (ops : list LedgerOp) (st : State) :
  last (observed cfg ops st) = Some (applyOps cfg ops st).
Proof.
  revert st. induction ops as [|op ops IH]; intros st; [done|].
  cbn [observed]. rewrite last_cons, IH. done.
Qed.

Lemma applyOp_balance (userId b : Z) (op : LedgerOp) (st : State) :
  balance userId st = Some b → isResetOf userId op = false →
  balance userId (applyOp cfg op st)
  = Some (b + appliedDelta cfg userId op st).
Proof.
  unfold balance. intros Hb Hnr.
  destruct (users st !! userId) as [u0|] eqn:Hu0; [|done].
  injection Hb as <-.
  destruct op as [now id ud|now id amount|now r n|now id]; cbn.
  - unfold getOrCreateUser. destruct (users st !! id) as [u|] eqn:Hu; cbn.
    + rewrite lookup_insert. case_decide as Heq.
      * subst id. rewrite Hu0 in Hu. injection Hu as <-. cbn. f_equal. lia.
      * rewrite Hu0. cbn. f_equal. lia.
    + rewrite lookup_insert_ne by congruence. rewrite Hu0. cbn. f_equal. lia.
  - unfold updateCredits. destruct (users st !! id) as [u|] eqn:Hu; cbn.
    + destruct (Z.ltb_spec (credits u + amount) 0); cbn.
      * rewrite Hu0. cbn. f_equal. lia.
      * rewrite lookup_insert. case_decide as Heq.
        -- subst id. rewrite Hu0 in Hu. injection Hu as <-. done.
        -- rewrite Hu0. cbn. f_equal. lia.
    + rewrite Hu0. cbn. f_equal. lia.
  - unfold processReferral. destruct r as [r|]; cbn.
    + destruct ((r =? 0) || (r =? n)); cbn.
      * rewrite Hu0. cbn. f_equal. lia.
      * destruct (users st !! r) as [u|] eqn:Hu; cbn.
        -- rewrite lookup_insert. case_decide as Heq.
           ++ subst r. rewrite Hu0 in Hu. injection Hu as <-.
              rewrite decide_True by done. done.
           ++ rewrite decide_False by congruence. rewrite Hu0. cbn. f_equal. lia.
        -- rewrite Hu0. cbn. f_equal. lia.
    + rewrite Hu0. cbn. f_equal. lia.
  - cbn in Hnr. apply bool_decide_eq_false in Hnr.
    unfold resetUser. destruct (users st !! id) as [u|] eqn:Hu; cbn.
    + rewrite lookup_insert_ne by done. rewrite Hu0. cbn. f_equal. lia.
    + rewrite Hu0. cbn. f_equal. lia.
Qed.

Lemma applyOps_balance (userId : Z) (ops : list LedgerOp) (b : Z) (st : State) :
  balance userId st = Some b →
  forallb (fun op => negb (isResetOf userId op)) ops = true →
  balance userId (applyOps cfg ops st)
  = Some (b + appliedDeltas cfg userId ops st).
Proof.
  revert b st. induction ops as [|op ops IH]; intros b st Hb Hnr; cbn.
  - rewrite Hb. f_equal. lia.
  - cbn in Hnr. apply andb_prop in Hnr as [Hop Hrest].
    apply negb_true_iff in Hop.
    unfold applyOps in IH.
    rewrite (IH _ _ (applyOp_balance userId b op st Hb Hop) Hrest).
    f_equal. lia.
Qed.

Lemma reset_balance (now userId b : Z) (st : State) :
  balance userId st = Some b →
  balance userId (applyOp cfg (OpReset now userId) st) = Some 10.
Proof.
  unfold balance. cbn. unfold resetUser.
  destruct (users st !! userId) as [u|] eqn:Hu; [|done]. intros _. cbn.
  by rewrite lookup_insert_eq.
Qed.

End LedgerInvariant.

(** C8 (as the code has it).  With a referral bonus that is not
    negative, every state observed while any sequence of account
    creations, credit updates, referral awards and resets runs has only
    non-negative balances; over a sequence that does not reset the
    account, the final balance of an existing account is its initial
    balance plus the sum of the applied deltas; a reset of the account
    stores the default balance 10 whatever the balance was. *)
Theorem balance_never_negative (cfg : Config) (ops : list LedgerOp)
    (st : State) (userId b : Z) :
  0 ≤ REFERRAL_BONUS cfg →
  ledgerOk st →
  balance userId st = Some b →
  Forall ledgerOk (observed cfg ops st)
  ∧ last (observed cfg ops st) = Some (applyOps cfg ops st)
  ∧ (forallb (fun op => negb (isResetOf userId op)) ops = true →
     balance userId (applyOps cfg ops st)
     = Some (b + appliedDeltas cfg userId ops st))
  ∧ (∀ now, balance userId (applyOp cfg (OpReset now userId) st) = Some 10).
Proof.
  intros Hbonus Hok Hb. split; [by apply observed_ledgerOk|].
  split; [apply last_observed|].
  split; [by apply applyOps_balance|].
  intros now. by apply (reset_balance cfg now userId b).
Qed.

(** C8, the claim as written: a reset is not a delta, and after it the
    balance is not the initial balance plus the applied deltas. *)
Lemma reset_is_not_a_delta :
  ledgerOk (oneUser 1 3)
  ∧ balance 1 (oneUser 1 3) = Some 3
  ∧ appliedDeltas sampleConfig 1 [OpReset 50 1] (oneUser 1 3) = 0
  ∧ balance 1 (applyOps sampleConfig [OpReset 50 1] (oneUser 1 3)) = Some 10
  ∧ balance 1 (applyOps sampleConfig [OpReset 50 1] (oneUser 1 3))
    ≠ Some (3 + appliedDeltas sampleConfig 1 [OpReset 50 1] (oneUser 1 3)).
Proof.
  split.
  { intros id u. unfold oneUser; cbn. rewrite lookup_singleton.
    case_decide; [|done]. intros [= <-]. cbn. lia. }
  repeat split; try (vm_compute; congruence).
Qed.

Lemma balance_never_negative_witness :
  Forall ledgerOk
    (observed sampleConfig [OpUpdate 10 1 (-2); OpReferral 20 (Some 1) 2; OpUpdate 30 1 (-9)]
       (oneUser 1 3))
  ∧ balance 1
      (applyOps sampleConfig
         [OpUpdate 10 1 (-2); OpReferral 20 (Some 1) 2; OpUpdate 30 1 (-9)] (oneUser 1 3))
    = Some 6.
Proof.
  assert (Hok : ledgerOk (oneUser 1 3)).
  { intros id u. unfold oneUser; cbn. rewrite lookup_singleton.
    case_decide; [|done]. intros [= <-]. cbn. lia. }
  pose proof (balance_never_negative sampleConfig
    [OpUpdate 10 1 (-2); OpReferral 20 (Some 1) 2; OpUpdate 30 1 (-9)]
    (oneUser 1 3) 1 3 ltac:(vm_compute; discriminate) Hok eq_refl)
    as (Hall & _ & Hsum & _).
  split; [exact Hall|].
  rewrite (Hsum eq_refl). reflexivity.
Defined.

(** ** Transcoding profiles *)

Lemma floor16by9_div (h : Z) : isFloor16by9 h (h * 16 / 9).
Proof.
  unfold isFloor16by9.
  pose proof (Z.div_mod (h * 16) 9 ltac:(lia)).
  pose proof (Z.mod_pos_bound (h * 16) 9 ltac:(lia)). lia.
Qed.

(** C9. For each of the profiles 360p, 480p, 720p and 1080p the command
    [convertVideo] runs encodes video with the height of the profile and
    the width [floor (height * 16 / 9)], and re-encodes audio as AAC at
    the fixed bitrate 128; for mp3 it drops the video stream ([noVideo],
    no video codec, no size) and encodes audio only, at 192; and
    [convertVideo] runs exactly that command. *)
Theorem convertVideo_profiles (inputPath : string) :
  Forall (fun profile =>
            let c := videoCommand inputPath profile.1 in
            ∃ width,
              cmd_size c = Some (Some width, Some profile.2)
              ∧ isFloor16by9 profile.2 width
              ∧ cmd_noVideo c = false
              ∧ cmd_videoCodec c = Some "libx264"
              ∧ cmd_audioCodec c = Some "aac"
              ∧ cmd_audioBitrate c = Some 128
              ∧ cmd_format c = Some "mp4")
    resolutionProfiles
  ∧ (let c := videoCommand inputPath "mp3" in
     cmd_noVideo c = true
     ∧ cmd_videoCodec c = None
     ∧ cmd_size c = None
     ∧ cmd_audioCodec c = Some "libmp3lame"
     ∧ cmd_audioBitrate c = Some 192
     ∧ cmd_format c = Some "mp3")
  ∧ (∀ ext format st,
       convertVideo ext inputPath format st
       = if ffmpegRun ext (videoCommand inputPath format)
         then (Ok (cmd_output (videoCommand inputPath format)), st)
         else (Throw FailedToConvertVideo,
               with_trace (trace st ++ [ConsoleError FfmpegError]) st)).
Proof.
  split; [|split].
  - unfold resolutionProfiles.
    repeat constructor; cbn;
      (eexists; split; [reflexivity|]; split; [apply floor16by9_div|done]).
  - cbn. done.
  - intros ext format st. unfold convertVideo.
    by destruct (ffmpegRun ext (videoCommand inputPath format)).
Qed.

(** ** Referral bonus *)

Lemma referrerOf_ref (digits : string) :
  referrerOf (String.append "ref_" digits) = Js.parseInt digits.
Proof. reflexivity. Qed.

(** The test [user.created_at] of [startHandler] does not tell a new
    account from an old one: the object [getOrCreateUser] returns has a
    creation time in both cases, provided the stored documents have one
    (every document [getOrCreateUser] writes does). *)
Lemma getOrCreateUser_created_at (now userId : Z) (userData : UserData)
    (st : State) (user : User) (st' : State) :
  (∀ u, users st !! userId = Some u → is_Some (created_at u)) →
  getOrCreateUser now userId userData st = (Ok user, st') →
  Js.truthy_obj (created_at user) = true
  ∧ (∃ u, users st' !! userId = Some u ∧ is_Some (created_at u)).
Proof.
  intros Hst. unfold getOrCreateUser.
  destruct (users st !! userId) as [u|] eqn:Hu; intros [= <- <-]; cbn.
  - destruct (Hst u eq_refl) as [t Ht]. rewrite Ht. split; [done|].
    eexists. rewrite lookup_insert_eq. split; [done|]. cbn. by rewrite Ht.
  - split; [done|]. eexists. rewrite lookup_insert_eq. split; [done|]. by eexists.
Qed.

(** A /start of an account that already exists, with a payload naming
    another existing account, awards the bonus again. *)
Lemma startHandler_existing_awards (cfg : Config) (now userId r : Z)
    (name digits : string) (st : State) (u ref : User) (t : Z) :
  users st !! userId = Some u → created_at u = Some t →
  Js.parseInt digits = Some r → r ≠ 0 → r ≠ userId →
  users st !! r = Some ref →
  let st' := (startHandler cfg now userId name (String.append "ref_" digits) st).2 in
  balance r st' = Some (credits ref + REFERRAL_BONUS cfg)
  ∧ referrals <$> users st' !! r = Some (referrals ref + 1).
Proof.
  intros Hu Ht Hparse Hr0 Hne Href. cbn zeta.
  unfold startHandler, try_catch, bind. rewrite referrerOf_ref, Hparse.
  unfold getOrCreateUser. rewrite Hu. cbn. rewrite Ht. cbn.
  destruct (Z.eqb_spec r 0) as [|_]; [done|]. cbn.
  unfold processReferral. cbn.
  destruct (Z.eqb_spec r 0) as [|_]; [done|].
  destruct (Z.eqb_spec r userId) as [|_]; [done|]. cbn.
  rewrite lookup_insert_ne by done. rewrite Href. cbn.
  unfold balance. cbn. by rewrite lookup_insert_eq.
Qed.

(** A referral naming the account itself, no account, or nothing that
    parses as a number changes no balance and no referral count. *)
Lemma processReferral_ignored (cfg : Config) (now : Z) (referrerId : option Z)
    (newUserId : Z) (st : State) :
  referrerId = None ∨ referrerId = Some 0 ∨ referrerId = Some newUserId
  ∨ (∃ r, referrerId = Some r ∧ users st !! r = None) →
  processReferral cfg now referrerId newUserId st = (Ok false, st).
Proof.
  unfold processReferral.
  intros [->|[->|[->|(r & -> & Hr)]]]; [done|done| |].
  - by rewrite Z.eqb_refl, orb_true_r.
  - rewrite Hr. by destruct ((r =? 0) || (r =? newUserId)).
Qed.

(** C3, the code at the failing input.  Account 1 exists with 10
    credits and the bonus is 5.  User 2 opens the referral link of
    account 1: the account of user 2 is created and account 1 is awarded
    (15 credits, 1 referral).  User 2 opens the same link again: account
    1 is awarded a second time (20 credits, 2 referrals). *)
Theorem startHandler_awards_on_every_start :
  let st0 := oneUser 1 10 in
  let st1 := (startHandler sampleConfig 100 2 "bob" "ref_1" st0).2 in
  let st2 := (startHandler sampleConfig 200 2 "bob" "ref_1" st1).2 in
  users st0 !! 2 = None
  ∧ is_Some (users st1 !! 2)
  ∧ balance 1 st1 = Some 15 ∧ referrals <$> users st1 !! 1 = Some 1
  ∧ balance 1 st2 = Some 20 ∧ referrals <$> users st2 !! 1 = Some 2.
Proof. vm_compute. repeat split; try done. by eexists. Qed.

(** ** Storage sweep *)

Section Sweep.

Implicit Types (st : State) (m : gmap nat ConvDoc) (l : list (nat * ConvDoc)).

Lemma sweep_fold_conversions ext l st :
  conversions (foldl (fun acc kd => sweepOne ext kd acc) st l)
  = foldl (fun m kd => delete kd.1 m) (conversions st) l.
Proof.
  revert st. induction l as [|kd l IH]; intros st; [done|].
  cbn [foldl]. rewrite IH. f_equal.
  unfold sweepOne. by destruct (deleteMessage ext _ _).
Qed.

Lemma sweep_fold_rest ext l st :
  let st' := foldl (fun acc kd => sweepOne ext kd acc) st l in
  users st' = users st ∧ sessions st' = sessions st
  ∧ trace st' = trace st ++ sweepLog ext l.
Proof.
  revert st. induction l as [|kd l IH]; intros st; cbn zeta.
  - cbn. by rewrite app_nil_r.
  - cbn [foldl]. destruct (IH (sweepOne ext kd st)) as (-> & -> & ->).
    unfold sweepOne, sweepLog. cbn [flat_map].
    destruct (deleteMessage ext _ _); cbn; [done|].
    by rewrite <- app_assoc.
Qed.

Lemma delete_fold_lookup l m (i : nat) :
  foldl (fun m kd => delete kd.1 m) m l !! i
  = if decide (i ∈ l.*1) then None else m !! i.
Proof.
  revert m. induction l as [|[k d] l IH]; intros m; cbn [foldl fmap list_fmap].
  - rewrite decide_False; [done|]. apply not_elem_of_nil.
  - rewrite IH. cbn. destruct (decide (i = k)) as [->|Hne].
    + rewrite lookup_delete_eq. rewrite (decide_True (P := k ∈ k :: l.*1)).
      * by case_decide.
      * apply elem_of_cons. by left.
    + rewrite lookup_delete_ne by done.
      case_decide as Hin.
      * rewrite decide_True; [done|]. apply elem_of_cons. by right.
      * rewrite decide_False; [done|]. rewrite elem_of_cons. tauto.
Qed.

Lemma keys_of_filter (P : nat * ConvDoc → Prop) `{!∀ x, Decision (P x)} m (i : nat) :
  i ∈ (map_to_list (filter P m)).*1 ↔ ∃ d, m !! i = Some d ∧ P (i, d).
Proof.
  rewrite list_elem_of_fmap. split.
  - intros ([k d] & -> & Hin). apply elem_of_map_to_list in Hin.
    apply map_lookup_filter_Some in Hin. by exists d.
  - intros (d & Hd & HP). exists (i, d). split; [done|].
    apply elem_of_map_to_list, map_lookup_filter_Some. done.
Qed.

(** The documents left by a sweep are those not yet due, whatever the
    remote deletions answered. *)
Lemma cleanupOldFiles_conversions ext now st :
  conversions (cleanupOldFiles ext now st).2
  = filter (fun kd => isExpired now kd.2 = false) (conversions st).
Proof.
  unfold cleanupOldFiles. case_decide as Hempty; cbn.
  - apply map_eq. intros i. apply option_eq. intros d.
    rewrite map_lookup_filter_Some. cbn. split; [|tauto].
    intros Hd. split; [done|].
    destruct (isExpired now d) eqn:He; [|done].
    assert (expiredFiles now st !! i = Some d) as Hin
      by (apply map_lookup_filter_Some; done).
    rewrite Hempty in Hin. by rewrite lookup_empty in Hin.
  - rewrite sweep_fold_conversions. apply map_eq. intros i.
    rewrite delete_fold_lookup. apply option_eq. intros d.
    rewrite map_lookup_filter_Some. cbn.
    unfold expiredFiles. case_decide as Hin.
    + apply keys_of_filter in Hin as (d' & Hd' & He). cbn in He.
      split; [done|]. intros [Hd Hne]. congruence.
    + split.
      * intros Hd. split; [done|].
        destruct (isExpired now d) eqn:He; [|done].
        exfalso. apply Hin. apply keys_of_filter. by exists d.
      * tauto.
Qed.

Lemma cleanupOldFiles_count ext now st :
  (cleanupOldFiles ext now st).1 = Ok (size (expiredFiles now st)).
Proof.
  unfold cleanupOldFiles. case_decide as Hempty; cbn; [|done].
  by rewrite Hempty, map_size_empty.
Qed.

Lemma cleanupOldFiles_rest ext now st :
  let st' := (cleanupOldFiles ext now st).2 in
  users st' = users st ∧ sessions st' = sessions st
  ∧ trace st' = trace st ++ sweepLog ext (map_to_list (expiredFiles now st)).
Proof.
  unfold cleanupOldFiles. case_decide as Hempty; cbn zeta; cbn [snd].
  - rewrite Hempty, map_to_list_empty. cbn. by rewrite app_nil_r.
  - apply sweep_fold_rest.
Qed.

(** Nothing is due right after a sweep at the same time. *)
Lemma expiredFiles_after_sweep ext now st :
  expiredFiles now (cleanupOldFiles ext now st).2 = ∅.
Proof.
  unfold expiredFiles at 1. rewrite cleanupOldFiles_conversions.
  apply map_eq. intros i. rewrite lookup_empty.
  apply map_lookup_filter_None. right. intros d Hd. cbn.
  apply map_lookup_filter_Some in Hd as [_ Hd]. cbn in Hd. congruence.
Qed.

End Sweep.

(** C4 (as the code has it).  A sweep deletes the metadata record of
    every expired document whether or not its remote deletion
    succeeded: the documents left are exactly those not yet due, a
    failed remote deletion only writes a console error, and the count
    returned is the number of expired documents.  A second sweep at the
    same time finds nothing: it returns 0 and changes nothing, so no
    record is reclaimed twice, and none is left for a later run. *)
Theorem cleanupOldFiles_deletes_every_expired_record
    (ext ext' : Externals) (now : Z) (st : State) :
  let st' := (cleanupOldFiles ext now st).2 in
  (cleanupOldFiles ext now st).1 = Ok (size (expiredFiles now st))
  ∧ conversions st'
    = filter (fun kd => isExpired now kd.2 = false) (conversions st)
  ∧ users st' = users st ∧ sessions st' = sessions st
  ∧ trace st' = trace st ++ sweepLog ext (map_to_list (expiredFiles now st))
  ∧ cleanupOldFiles ext' now st' = (Ok 0%nat, st').
Proof.
  cbn zeta. split; [apply cleanupOldFiles_count|].
  split; [apply cleanupOldFiles_conversions|].
  destruct (cleanupOldFiles_rest ext now st) as (Hu & Hs & Ht).
  repeat (split; [done|]).
  unfold cleanupOldFiles at 1. rewrite expiredFiles_after_sweep.
  by rewrite decide_True.
Qed.

(** C4, the claim as written: the remote deletion of the only expired
    record fails, and the sweep still deletes its metadata record, so
    the next run has nothing to retry. *)
Lemma record_deleted_though_remote_delete_failed :
  let now := 3 * msPerHour in
  let st' := (cleanupOldFiles remoteDeleteFails now oneStaged).2 in
  conversions oneStaged !! 0%nat = Some (stageRecord sampleConfig 0 sampleMessage)
  ∧ isExpired now (stageRecord sampleConfig 0 sampleMessage) = true
  ∧ deleteMessage remoteDeleteFails (Some (-1001)) (Some 7) = false
  ∧ conversions st' !! 0%nat = None
  ∧ trace st' = [ConsoleError TelegramError]
  ∧ (cleanupOldFiles reliable now st').1 = Ok 0%nat.
Proof. vm_compute. done. Qed.

(** ** The monad: frames and inversion *)

Section Frames.

Context {X : Type} (f : State → X).

Lemma keeps_ret {A} (a : A) : keeps f (ret a).
Proof. done. Qed.

Lemma keeps_throw {A} (e : Error) : keeps f (throw (A := A) e).
Proof. done. Qed.

Lemma keeps_bind {A B} (m : M A) (k : A → M B) :
  keeps f m → (∀ a, keeps f (k a)) → keeps f (bind m k).
Proof.
  intros Hm Hk st. unfold bind. specialize (Hm st).
  destruct (m st) as [[a|e] st1]; cbn in *; [|done].
  by rewrite Hk.
Qed.

Lemma keeps_try_catch {A} (m : M A) (h : Error → M A) :
  keeps f m → (∀ e, keeps f (h e)) → keeps f (try_catch m h).
Proof.
  intros Hm Hh st. unfold try_catch. specialize (Hm st).
  destruct (m st) as [[a|e] st1]; cbn in *; [done|].
  by rewrite Hh.
Qed.

Lemma keeps_modify (g : State → State) :
  (∀ st, f (g st) = f st) → keeps f (modify g).
Proof. intros Hg st. apply Hg. Qed.

End Frames.

Lemma bind_Ok_inv {A B} (m : M A) (k : A → M B) st b st' :
  bind m k st = (Ok b, st') →
  ∃ a st1, m st = (Ok a, st1) ∧ k a st1 = (Ok b, st').
Proof.
  unfold bind. destruct (m st) as [[a|e] st1]; [|done]. intros H. by exists a, st1.
Qed.

Lemma bind_run {A B} (m : M A) (k : A → M B) st a st1 :
  m st = (Ok a, st1) → bind m k st = k a st1.
Proof. unfold bind. by intros ->. Qed.

Lemma bind_run_throw {A B} (m : M A) (k : A → M B) st e st1 :
  m st = (Throw e, st1) → bind m k st = (Throw e, st1).
Proof. unfold bind. by intros ->. Qed.

Lemma emit_run e st : emit e st = (Ok tt, with_trace (trace st ++ [e]) st).
Proof. done. Qed.

Lemma consumes_bind {A B} userId (m : M A) (k : A → M B) :
  keeps sessions m → (∀ a, consumesSession userId (k a)) →
  consumesSession userId (bind m k).
Proof.
  intros Hm Hk st. unfold bind. specialize (Hm st).
  destruct (m st) as [[a|e] st1]; cbn in *; [|done].
  specialize (Hk a st1). by rewrite Hm in Hk.
Qed.

(** ** What each service call leaves alone *)

Section ServiceFrames.

Lemma emit_keeps_users e : keeps users (emit e).
Proof. done. Qed.
Lemma emit_keeps_conversions e : keeps conversions (emit e).
Proof. done. Qed.
Lemma emit_keeps_sessions e : keeps sessions (emit e).
Proof. done. Qed.

Lemma getOrCreateUser_keeps_sessions now userId ud :
  keeps sessions (getOrCreateUser now userId ud).
Proof. intros st. unfold getOrCreateUser. by destruct (users st !! userId). Qed.

Lemma getOrCreateUser_keeps_conversions now userId ud :
  keeps conversions (getOrCreateUser now userId ud).
Proof. intros st. unfold getOrCreateUser. by destruct (users st !! userId). Qed.

Lemma getOrCreateUser_keeps_trace now userId ud :
  keeps trace (getOrCreateUser now userId ud).
Proof. intros st. unfold getOrCreateUser. by destruct (users st !! userId). Qed.

Lemma updateCredits_keeps_sessions now userId amount :
  keeps sessions (updateCredits now userId amount).
Proof.
  intros st. unfold updateCredits. destruct (users st !! userId); [|done].
  by destruct (_ <? 0).
Qed.

Lemma updateCredits_keeps_conversions now userId amount :
  keeps conversions (updateCredits now userId amount).
Proof.
  intros st. unfold updateCredits. destruct (users st !! userId); [|done].
  by destruct (_ <? 0).
Qed.

Lemma checkDailyLimit_pure cfg now userId st :
  (checkDailyLimit cfg now userId st).2 = st.
Proof. unfold checkDailyLimit. by destruct (users st !! userId). Qed.

Lemma downloadFile_keeps {X} (f : State → X) ext fileId :
  (∀ t st, f (with_trace t st) = f st) → keeps f (downloadFile ext fileId).
Proof.
  intros Hf st. unfold downloadFile. destruct (fetchFile ext fileId); [done|].
  cbn. apply Hf.
Qed.

Lemma convertFile_keeps {X} (f : State → X) ext info p format :
  (∀ t st, f (with_trace t st) = f st) → keeps f (convertFile ext info p format).
Proof.
  intros Hf st. unfold convertFile, convertVideo, convertAudio.
  destruct (fileType info).
  - destruct (ffmpegRun ext _); [done|]. cbn. apply Hf.
  - destruct (audioCommand p format); [|done].
    destruct (ffmpegRun ext _); [done|]. cbn. apply Hf.
Qed.

Lemma upload_keeps_sessions cfg ext now path caption :
  keeps sessions (uploadToStorageChannel cfg ext now path caption).
Proof. intros st. unfold uploadToStorageChannel. by destruct (sendToChannel ext _ _ _). Qed.

Lemma upload_keeps_users cfg ext now path caption :
  keeps users (uploadToStorageChannel cfg ext now path caption).
Proof. intros st. unfold uploadToStorageChannel. by destruct (sendToChannel ext _ _ _). Qed.

Lemma incrementUsage_keeps_sessions userId : keeps sessions (incrementUsage userId).
Proof. intros st. unfold incrementUsage. by destruct (users st !! userId). Qed.

Lemma external_keeps {X} (f : State → X) ok : keeps f (external ok).
Proof. by destruct ok. Qed.

Lemma attachment_keeps {X} (f : State → X) a : keeps f (attachment a).
Proof. by destruct a. Qed.

Lemma deliver_keeps_sessions ext now userId info format message :
  keeps sessions (deliver ext now userId info format message).
Proof.
  unfold deliver.
  destruct (fileType info); [destruct (negb _)|];
    repeat (first [ apply keeps_bind; [|intros ?]
                  | apply attachment_keeps
                  | apply updateCredits_keeps_sessions
                  | apply external_keeps
                  | apply emit_keeps_sessions ]).
Qed.

Lemma deliver_keeps_conversions ext now userId info format message :
  keeps conversions (deliver ext now userId info format message).
Proof.
  unfold deliver.
  destruct (fileType info); [destruct (negb _)|];
    repeat (first [ apply keeps_bind; [|intros ?]
                  | apply attachment_keeps
                  | apply updateCredits_keeps_conversions
                  | apply external_keeps
                  | apply emit_keeps_conversions ]).
Qed.

End ServiceFrames.

(** ** Conversion sessions *)

Lemma pipeline_consumes cfg ext now userId format info :
  consumesSession userId (pipeline cfg ext now userId format info).
Proof.
  unfold pipeline.
  apply consumes_bind; [apply emit_keeps_sessions|intros _].
  apply consumes_bind; [by apply downloadFile_keeps|intros p].
  apply consumes_bind; [by apply convertFile_keeps|intros c].
  apply consumes_bind; [apply upload_keeps_sessions|intros message].
  apply consumes_bind; [apply updateCredits_keeps_sessions|intros _].
  apply consumes_bind; [apply incrementUsage_keeps_sessions|intros _].
  apply consumes_bind; [by apply keeps_modify|intros _].
  apply consumes_bind; [apply external_keeps|intros _].
  apply consumes_bind; [apply deliver_keeps_sessions|intros _].
  apply consumes_bind; [apply emit_keeps_sessions|intros _].
  intros st. done.
Qed.

Lemma getOrCreateUser_returns now userId ud st :
  ∃ u, getOrCreateUser now userId ud st
       = (Ok u, (getOrCreateUser now userId ud st).2).
Proof. unfold getOrCreateUser. destruct (users st !! userId); by eexists. Qed.

Lemma convertHandler_unfold cfg ext now userId format st :
  convertHandler cfg ext now userId format st
  = let st1 := (getOrCreateUser now userId noUserData st).2 in
    try_catch
      (match sessions st !! userId with
       | None => reply userId SessionExpired
       | Some fileInfo => pipeline cfg ext now userId format fileInfo
       end)
      (onError userId ConversionFailed) st1.
Proof.
  destruct (getOrCreateUser_returns now userId noUserData st) as [u Hg].
  pose proof (getOrCreateUser_keeps_sessions now userId noUserData st) as Hk.
  cbn zeta. unfold convertHandler, try_catch.
  rewrite (bind_run _ _ _ _ _ Hg). unfold bind at 1, get.
  by rewrite Hk.
Qed.

Lemma convertHandler_no_session cfg ext now userId format st :
  sessions st !! userId = None →
  convertHandler cfg ext now userId format st
  = (Ok tt,
     with_trace (trace st ++ [Replied userId SessionExpired])
       (getOrCreateUser now userId noUserData st).2).
Proof.
  intros Hs. rewrite convertHandler_unfold, Hs. cbn zeta.
  unfold try_catch, reply. rewrite emit_run.
  by rewrite (getOrCreateUser_keeps_trace now userId noUserData st).
Qed.

Lemma convertHandler_with_session cfg ext now userId format st info :
  sessions st !! userId = Some info →
  convertHandler cfg ext now userId format st
  = match pipeline cfg ext now userId format info
            (getOrCreateUser now userId noUserData st).2 with
    | (Ok _, st2) => (Ok tt, st2)
    | (Throw e, st2) =>
        (Ok tt,
         with_trace (trace st2 ++ [ConsoleError e; Replied userId ConversionFailed]) st2)
    end.
Proof.
  intros Hs. rewrite convertHandler_unfold, Hs. cbn zeta. unfold try_catch.
  destruct (pipeline _ _ _ _ _ _ _) as [[[]|e] st2]; [done|].
  unfold onError, reply. rewrite (bind_run _ _ _ _ _ (emit_run _ _)), emit_run.
  cbn. by rewrite <- app_assoc.
Qed.

(** C2 (as the code has it).  A format selection without a session is
    answered "session expired" and starts nothing.  With a session, the
    session is deleted only when the whole pipeline, delivery included,
    has run without an error; a later format selection then finds no
    session and is rejected, so the same session does not succeed
    twice.  When the pipeline fails the handler logs the error, answers
    "conversion failed" and leaves the session where it was. *)
Theorem convertHandler_session_use (cfg : Config) (ext : Externals)
    (now userId : Z) (format : string) (st : State) :
  let st1 := (getOrCreateUser now userId noUserData st).2 in
  match sessions st !! userId with
  | None =>
      convertHandler cfg ext now userId format st
      = (Ok tt, with_trace (trace st ++ [Replied userId SessionExpired]) st1)
      ∧ conversions st1 = conversions st
      ∧ sessions st1 = sessions st
  | Some fileInfo =>
      match pipeline cfg ext now userId format fileInfo st1 with
      | (Ok _, st2) =>
          convertHandler cfg ext now userId format st = (Ok tt, st2)
          ∧ sessions st2 = delete userId (sessions st)
          ∧ ∀ ext' now' format',
              let st3 := (convertHandler cfg ext' now' userId format' st2).2 in
              trace st3 = trace st2 ++ [Replied userId SessionExpired]
              ∧ conversions st3 = conversions st2
      | (Throw e, st2) =>
          convertHandler cfg ext now userId format st
          = (Ok tt,
             with_trace
               (trace st2 ++ [ConsoleError e; Replied userId ConversionFailed]) st2)
          ∧ sessions st2 = sessions st
          ∧ sessions st2 !! userId = Some fileInfo
      end
  end.
Proof.
  cbn zeta.
  pose proof (getOrCreateUser_keeps_sessions now userId noUserData st) as Hk.
  pose proof (getOrCreateUser_keeps_conversions now userId noUserData st) as Hc.
  destruct (sessions st !! userId) as [info|] eqn:Hs.
  - rewrite (convertHandler_with_session _ _ _ _ _ _ info Hs).
    pose proof (pipeline_consumes cfg ext now userId format info
                  (getOrCreateUser now userId noUserData st).2) as Hp.
    destruct (pipeline _ _ _ _ _ _ _) as [[[]|e] st2].
    + rewrite Hk in Hp. split; [done|]. split; [done|].
      intros ext' now' format'. cbn zeta.
      rewrite convertHandler_no_session
        by (rewrite Hp; apply lookup_delete_eq).
      cbn. split; [done|]. apply getOrCreateUser_keeps_conversions.
    + rewrite Hk in Hp. split; [done|]. split; [done|]. by rewrite Hp.
  - rewrite convertHandler_no_session by done. done.
Qed.

(** C2, the claim as written: the download fails, the handler answers
    "conversion failed", and the session is still there; the next
    format selection runs the pipeline on the same session and
    delivers the file. *)
Lemma session_reused_after_failure :
  let st0 := uploaded 1 10 in
  let st1 := (convertHandler sampleConfig downloadFails 100 1 "720p" st0).2 in
  let st2 := (convertHandler sampleConfig reliable 200 1 "720p" st1).2 in
  sessions st0 !! 1 = Some sampleInfo
  ∧ trace st1
    = [Replied 1 Processing; ConsoleError TelegramError;
       ConsoleError FailedToDownload; Replied 1 ConversionFailed]
  ∧ sessions st1 !! 1 = Some sampleInfo
  ∧ last (trace st2)
    = Some (RemovedTemp ["temp/1700000000000_42"; "temp/1700000000000_42_720p.mp4"])
  ∧ Replied 1 (ConvertedVideo "FILE" "720p" 9) ∈ trace st2
  ∧ balance 1 st2 = Some 9
  ∧ sessions st2 !! 1 = None.
Proof.
  vm_compute. repeat split; try done.
  repeat (first [apply list_elem_of_here | apply list_elem_of_further]).
Qed.

(** ** Running the pipeline *)

Section PipelineSteps.

Implicit Types (st : State) (u : User).

Lemma downloadFile_Ok_inv ext fileId st p st' :
  downloadFile ext fileId st = (Ok p, st') →
  fetchFile ext fileId = Some p ∧ st' = st.
Proof.
  unfold downloadFile. destruct (fetchFile ext fileId); [|done].
  by intros [= -> ->].
Qed.

Lemma convertFile_Ok_inv ext info p format st c st' :
  convertFile ext info p format st = (Ok c, st') →
  st' = st ∧ ∀ st2, convertFile ext info p format st2 = (Ok c, st2).
Proof.
  unfold convertFile, convertVideo, convertAudio. destruct (fileType info).
  - destruct (ffmpegRun ext _); [|done]. by intros [= <- <-].
  - destruct (audioCommand p format); [|done].
    destruct (ffmpegRun ext _); [|done]. by intros [= <- <-].
Qed.

Lemma upload_Ok_inv cfg ext now path caption st message st' :
  uploadToStorageChannel cfg ext now path caption st = (Ok message, st') →
  sendToChannel ext (sendMethodFor path) path caption = Some message
  ∧ st' = addDoc (stageRecord cfg now message) st.
Proof.
  unfold uploadToStorageChannel.
  destruct (sendToChannel ext _ _ _); [|done]. by intros [= -> <-].
Qed.

Lemma upload_run cfg ext now path caption st message :
  sendToChannel ext (sendMethodFor path) path caption = Some message →
  uploadToStorageChannel cfg ext now path caption st
  = (Ok message, addDoc (stageRecord cfg now message) st).
Proof. unfold uploadToStorageChannel. by intros ->. Qed.

Lemma upload_fails cfg ext now path caption st :
  sendToChannel ext (sendMethodFor path) path caption = None →
  uploadToStorageChannel cfg ext now path caption st
  = (Throw FailedToUpload,
     with_trace (trace st ++ [ConsoleError TelegramError]) st).
Proof. unfold uploadToStorageChannel. by intros ->. Qed.

Lemma updateCredits_Ok_inv now userId amount st n st' :
  updateCredits now userId amount st = (Ok n, st') →
  ∃ u, users st !! userId = Some u
       ∧ 0 ≤ credits u + amount
       ∧ n = credits u + amount
       ∧ st' = with_users
                 (<[userId := set_last_activity now
                                (set_credits (credits u + amount) u)]>
                    (users st)) st.
Proof.
  unfold updateCredits. destruct (users st !! userId) as [u|]; [|done].
  destruct (Z.ltb_spec (credits u + amount) 0); [done|].
  intros [= <- <-]. by exists u.
Qed.

Lemma incrementUsage_Ok_inv userId st a st' :
  incrementUsage userId st = (Ok a, st') →
  ∃ u, users st !! userId = Some u
       ∧ st' = with_users
                 (<[userId := set_usage_count (usage_count u + 1) u]> (users st)) st.
Proof.
  unfold incrementUsage. destruct (users st !! userId) as [u|]; [|done].
  intros [= <-]. by exists u.
Qed.

Lemma external_Ok_inv ok st a st' :
  external ok st = (Ok a, st') → ok = true ∧ st' = st.
Proof. destruct ok; [|done]. by intros [= <-]. Qed.

Lemma attachment_Ok_inv o st f st' :
  attachment o st = (Ok f, st') → o = Some f ∧ st' = st.
Proof. destruct o; [|done]. by intros [= -> <-]. Qed.

(** The three branches of the delivery do the same after they have
    picked the attachment. *)
Lemma deliver_tail_inv ext now userId (mk : string → Z → Reply) o st a st' :
  (let* f := attachment o in
   let* remaining := updateCredits now userId 0 in
   run external (replyWithMedia ext) in
   reply userId (mk f remaining)) st = (Ok a, st') →
  ∃ u f, users st !! userId = Some u
       ∧ 0 ≤ credits u
       ∧ o = Some f
       ∧ replyWithMedia ext = true
       ∧ st' = with_trace (trace st ++ [Replied userId (mk f (credits u + 0))])
                 (with_users
                    (<[userId := set_last_activity now
                                   (set_credits (credits u + 0) u)]>
                       (users st)) st).
Proof.
  intros H.
  apply bind_Ok_inv in H as (f & s1 & Ha & H).
  apply attachment_Ok_inv in Ha as [-> ->].
  apply bind_Ok_inv in H as (n & s2 & Hu & H).
  apply updateCredits_Ok_inv in Hu as (u & Hu & Hpos & -> & ->).
  apply bind_Ok_inv in H as (? & s3 & He & H).
  apply external_Ok_inv in He as [He ->].
  unfold reply in H. rewrite emit_run in H. injection H as _ <-.
  exists u, f. repeat split; try done. lia.
Qed.

Lemma deliver_Ok_inv ext now userId info format message st a st' :
  deliver ext now userId info format message st = (Ok a, st') →
  ∃ u r, users st !! userId = Some u
       ∧ 0 ≤ credits u
       ∧ replyWithMedia ext = true
       ∧ isDelivery r = true
       ∧ st' = with_trace (trace st ++ [Replied userId r])
                 (with_users
                    (<[userId := set_last_activity now
                                   (set_credits (credits u + 0) u)]>
                       (users st)) st).
Proof.
  unfold deliver. destruct (fileType info); [destruct (negb _)|];
    intros H; apply deliver_tail_inv in H as (u & f & Hu & Hpos & _ & Hr & ->);
    eexists u, _; do 3 (split; [done|]); apply and_comm; (split; [reflexivity|done]).
Qed.

End PipelineSteps.

Lemma pipeline_Ok_inv cfg ext now userId format info st a st' :
  pipeline cfg ext now userId format info st = (Ok a, st') →
  ∃ p c message u u' r,
    fetchFile ext (fileId info) = Some p
    ∧ (∀ st2, convertFile ext info p format st2 = (Ok c, st2))
    ∧ sendToChannel ext (sendMethodFor c) c (userId, format) = Some message
    ∧ users st !! userId = Some u
    ∧ CREDIT_PER_CONVERSION cfg ≤ credits u
    ∧ conversions st'
      = conversions (withBothRecords cfg now userId format info message st)
    ∧ sessions st' = delete userId (sessions st)
    ∧ users st' = <[userId := u']> (users st)
    ∧ credits u' = credits u - CREDIT_PER_CONVERSION cfg
    ∧ usage_count u' = usage_count u + 1
    ∧ isDelivery r = true
    ∧ trace st'
      = trace st ++ [Replied userId Processing; Replied userId r; RemovedTemp [p; c]].
Proof.
  unfold pipeline. intros H.
  apply bind_Ok_inv in H as (? & s1 & Hs1 & H).
  unfold reply in Hs1. rewrite emit_run in Hs1. injection Hs1 as _ <-.
  apply bind_Ok_inv in H as (p & s2 & Hp & H).
  apply downloadFile_Ok_inv in Hp as [Hp ->].
  apply bind_Ok_inv in H as (c & s3 & Hc & H).
  apply convertFile_Ok_inv in Hc as [-> Hc].
  apply bind_Ok_inv in H as (message & s4 & Hm & H).
  apply upload_Ok_inv in Hm as [Hm ->].
  apply bind_Ok_inv in H as (n & s5 & Hd & H).
  apply updateCredits_Ok_inv in Hd as (u & Hu & Hpos & -> & ->).
  apply bind_Ok_inv in H as (? & s6 & Hi & H).
  apply incrementUsage_Ok_inv in Hi as (u1 & Hu1 & ->).
  apply bind_Ok_inv in H as (? & s7 & Ha & H).
  injection Ha as _ <-.
  apply bind_Ok_inv in H as (? & s8 & He & H).
  apply external_Ok_inv in He as [He ->].
  apply bind_Ok_inv in H as (? & s9 & Hdl & H).
  apply deliver_Ok_inv in Hdl as (u2 & r & Hu2 & Hpos2 & Hr & Hdeliv & ->).
  apply bind_Ok_inv in H as (? & s10 & Ht & H).
  unfold cleanupTempFiles in Ht. rewrite emit_run in Ht. injection Ht as _ <-.
  injection H as _ <-.
  cbn in Hu, Hu1.
  rewrite lookup_insert_eq in Hu1. injection Hu1 as <-.
  cbn in Hu2. rewrite lookup_insert_eq in Hu2. injection Hu2 as <-.
  exists p, c, message, u. eexists _, r.
  repeat (split; [done|]).
  split; [lia|]. split; [done|]. split; [done|].
  split; [cbn; by rewrite !insert_insert_eq|].
  split; [cbn; lia|]. split; [done|]. split; [done|].
  cbn. by rewrite <- !app_assoc.
Qed.


(** ** The two documents of a conversion *)

Section Documents.

Implicit Types (st : State) (d : ConvDoc).

Lemma fresh_id_free st : conversions st !! fresh (dom (conversions st)) = None.
Proof. apply not_elem_of_dom, is_fresh. Qed.

Lemma size_addDoc d st :
  size (conversions (addDoc d st)) = S (size (conversions st)).
Proof. unfold addDoc; cbn. apply map_size_insert_None, fresh_id_free. Qed.

Lemma countSince_addDoc today userId d st :
  countSince today userId (addDoc d st)
  = if isTodayConversionOf today userId d
    then S (countSince today userId st) else countSince today userId st.
Proof.
  unfold countSince, todayConversions, addDoc; cbn.
  destruct (isTodayConversionOf today userId d) eqn:Hd.
  - rewrite map_filter_insert_True by done.
    apply map_size_insert_None, map_lookup_filter_None. left. apply fresh_id_free.
  - rewrite map_filter_insert_False by (cbn; congruence).
    by rewrite delete_id by apply fresh_id_free.
Qed.

Lemma countSince_ext today userId st1 st2 :
  conversions st1 = conversions st2 →
  countSince today userId st1 = countSince today userId st2.
Proof. unfold countSince, todayConversions. by intros ->. Qed.

Lemma stageRecord_not_counted cfg now today userId message :
  isTodayConversionOf today userId (stageRecord cfg now message) = false.
Proof. done. Qed.

Lemma usageRecord_counted now today userId other info message format :
  isTodayConversionOf today other (usageRecord now userId info message format)
  = (userId =? other) && (today <=? now).
Proof. done. Qed.

Lemma startOfDay_le cfg now : startOfDay cfg now ≤ now.
Proof. apply midnight_past. Qed.

(** A document without [expires_at] survives every sweep; a document
    a sweep deletes had an [expires_at] that was due. *)
Lemma sweep_keeps_undated ext now st (i : nat) d :
  conversions st !! i = Some d → doc_expires_at d = None →
  conversions (cleanupOldFiles ext now st).2 !! i = Some d.
Proof.
  intros Hi Hd. rewrite cleanupOldFiles_conversions.
  apply map_lookup_filter_Some. split; [done|]. cbn.
  unfold isExpired. by rewrite Hd.
Qed.

Lemma sweep_deletes_only_due ext now st (i : nat) d :
  conversions st !! i = Some d →
  conversions (cleanupOldFiles ext now st).2 !! i = None →
  ∃ e, doc_expires_at d = Some e ∧ e ≤ now.
Proof.
  intros Hi. rewrite cleanupOldFiles_conversions.
  intros Hnone. apply map_lookup_filter_None in Hnone as [Hnone|Hnone]; [congruence|].
  specialize (Hnone d Hi). cbn in Hnone. unfold isExpired in Hnone.
  destruct (doc_expires_at d) as [e|]; [|done]. exists e. split; [done|].
  destruct (Z.leb_spec e now); [done|]. done.
Qed.

Lemma pipeline_counts cfg ext now userId format info st a st' :
  pipeline cfg ext now userId format info st = (Ok a, st') →
  ∀ today other,
    countSince today other st'
    = if (userId =? other) && (today <=? now)
      then S (countSince today other st) else countSince today other st.
Proof.
  intros H today other.
  apply pipeline_Ok_inv in H
    as (p & c & message & u & u' & r & _ & _ & _ & _ & _ & Hconv & _).
  rewrite (countSince_ext today other _ _ Hconv).
  unfold withBothRecords. rewrite !countSince_addDoc.
  by rewrite stageRecord_not_counted, usageRecord_counted.
Qed.

End Documents.

(** C10. A conversion that runs to the end adds exactly two documents
    to the conversions collection, under two unused ids: the stage
    record, with [expires_at] and the identifiers of the staged message
    and without [user_id], and the usage record, with [user_id],
    [format] and [created_at] and without [expires_at].  So no sweep
    deletes the usage record, a sweep only deletes documents that have
    a due [expires_at], the daily count of the account grows by one
    (the stage record is not counted), and [totalConversions] of
    [getStats] grows by two. *)
Theorem conversion_writes_two_documents (cfg : Config) (ext : Externals)
    (now userId : Z) (format : string) (info : FileInfo) (st st' : State) (a : unit) :
  pipeline cfg ext now userId format info st = (Ok a, st') →
  ∃ message stageId usageId,
    let stage := stageRecord cfg now message in
    let usage := usageRecord now userId info message format in
    conversions st !! stageId = None
    ∧ conversions st !! usageId = None
    ∧ stageId ≠ usageId
    ∧ conversions st' = <[usageId := usage]> (<[stageId := stage]> (conversions st))
    ∧ (doc_expires_at stage = Some (now + FILE_DELETE_AFTER_HOURS cfg * msPerHour)
       ∧ doc_message_id stage = Some (message_id message)
       ∧ doc_chat_id stage = Some (STORAGE_CHANNEL_ID cfg)
       ∧ doc_file_id stage = Some (file_id message)
       ∧ doc_user_id stage = None)
    ∧ (doc_user_id usage = Some userId
       ∧ doc_format usage = Some format
       ∧ doc_created_at usage = Some now
       ∧ doc_expires_at usage = None)
    ∧ (∀ ext' now',
         conversions (cleanupOldFiles ext' now' st').2 !! usageId = Some usage)
    ∧ (∀ ext' now' i d,
         conversions st' !! i = Some d →
         conversions (cleanupOldFiles ext' now' st').2 !! i = None →
         ∃ e, doc_expires_at d = Some e ∧ e ≤ now')
    ∧ countToday cfg now userId st' = S (countToday cfg now userId st)
    ∧ (∀ now' other,
         countToday cfg now' other (addDoc stage st) = countToday cfg now' other st)
    ∧ (∀ now', ∃ before after,
         (getStats cfg now' st).1 = Ok before
         ∧ (getStats cfg now' st').1 = Ok after
         ∧ totalConversions after = S (S (totalConversions before))).
Proof.
  intros H. pose proof (pipeline_counts _ _ _ _ _ _ _ _ _ H) as Hcount.
  apply pipeline_Ok_inv in H
    as (p & c & message & u & u' & r & _ & _ & _ & _ & _ & Hconv & _).
  exists message, (fresh (dom (conversions st))),
    (fresh (dom (conversions (addDoc (stageRecord cfg now message) st)))).
  cbn zeta.
  assert (conversions (addDoc (stageRecord cfg now message) st)
          !! fresh (dom (conversions (addDoc (stageRecord cfg now message) st)))
          = None) as Hfresh2 by apply fresh_id_free.
  assert (fresh (dom (conversions st))
          ≠ fresh (dom (conversions (addDoc (stageRecord cfg now message) st))))
    as Hne.
  { intros Heq. rewrite <- Heq in Hfresh2. unfold addDoc in Hfresh2; cbn in Hfresh2.
    by rewrite lookup_insert_eq in Hfresh2. }
  split; [apply fresh_id_free|].
  split.
  { unfold addDoc in Hfresh2 at 1; cbn in Hfresh2.
    by rewrite lookup_insert_ne in Hfresh2. }
  split; [done|]. split; [done|].
  split.
  { repeat split. unfold stageRecord, anyFileId, msg_video, msg_audio, msg_document.
    cbn. by destruct (kind message). }
  split; [done|].
  split.
  { intros ext' now'. apply sweep_keeps_undated; [|done].
    rewrite Hconv. unfold withBothRecords, addDoc at 1; cbn.
    apply lookup_insert_eq. }
  split; [intros ext' now' i d; apply sweep_deletes_only_due|].
  split.
  { unfold countToday. rewrite Hcount, Z.eqb_refl. cbn.
    by destruct (Z.leb_spec (startOfDay cfg now) now) as [|Hlt];
      [|pose proof (startOfDay_le cfg now); lia]. }
  split; [intros now' other; unfold countToday; by rewrite countSince_addDoc|].
  intros now'. eexists _, _. split; [reflexivity|]. split; [reflexivity|].
  cbn. rewrite Hconv. unfold withBothRecords.
  by rewrite !size_addDoc.
Qed.

Lemma conversion_writes_two_documents_witness :
  let st := uploaded 1 10 in
  let st' := (pipeline sampleConfig reliable 100 1 "720p" sampleInfo st).2 in
  pipeline sampleConfig reliable 100 1 "720p" sampleInfo st = (Ok tt, st')
  ∧ size (conversions st) = 0%nat
  ∧ ∃ message stageId usageId,
      conversions st'
      = <[usageId := usageRecord 100 1 sampleInfo message "720p"]>
          (<[stageId := stageRecord sampleConfig 100 message]> (conversions st))
      ∧ countToday sampleConfig 100 1 st' = S (countToday sampleConfig 100 1 st).
Proof.
  cbn zeta.
  assert (pipeline sampleConfig reliable 100 1 "720p" sampleInfo (uploaded 1 10)
          = (Ok tt, (pipeline sampleConfig reliable 100 1 "720p" sampleInfo
                       (uploaded 1 10)).2)) as Hrun
    by (vm_compute; reflexivity).
  split; [exact Hrun|]. split; [vm_compute; reflexivity|].
  destruct (conversion_writes_two_documents _ _ _ _ _ _ _ _ _ Hrun)
    as (message & stageId & usageId & _ & _ & _ & Hconv & _ & _ & _ & _ & Hcount & _).
  exists message, stageId, usageId. split; [exact Hconv|exact Hcount].
Defined.

(** ** Stage before settle *)

Lemma pipeline_after_stage cfg ext now userId format info st p c message :
  fetchFile ext (fileId info) = Some p →
  (∀ st2, convertFile ext info p format st2 = (Ok c, st2)) →
  sendToChannel ext (sendMethodFor c) c (userId, format) = Some message →
  pipeline cfg ext now userId format info st
  = settle cfg ext now userId format info p c message
      (addDoc (stageRecord cfg now message)
         (with_trace (trace st ++ [Replied userId Processing]) st)).
Proof.
  intros Hp Hc Hm. unfold pipeline.
  erewrite bind_run; [|apply emit_run].
  erewrite bind_run; [|unfold downloadFile; rewrite Hp; reflexivity].
  erewrite bind_run; [|apply Hc].
  erewrite bind_run; [|by apply upload_run].
  reflexivity.
Qed.

Lemma settle_rejected cfg ext now userId format info p c message st u :
  users st !! userId = Some u → credits u < CREDIT_PER_CONVERSION cfg →
  settle cfg ext now userId format info p c message st
  = (Throw InsufficientCredits, st).
Proof.
  intros Hu Hlt. unfold settle.
  erewrite bind_run_throw; [reflexivity|].
  apply (updateCredits_rejected _ _ _ _ u); [done|lia].
Qed.

(** C5. When the download, the transcoding and the upload to the
    storage channel have succeeded, [uploadToStorageChannel] has added
    the stage record, with [expires_at] = now + FILE_DELETE_AFTER_HOURS
    hours, before anything is debited: the rest of the pipeline, which
    starts with the debit, runs in a state that already holds the
    record.  When the balance does not cover the cost the debit throws
    "Insufficient credits" and nothing is rolled back: the record
    stands, the balance is unchanged, and the handler logs that error
    and answers with its conversion-failed message. *)
Theorem stage_record_precedes_debit (cfg : Config) (ext : Externals)
    (now userId : Z) (format : string) (st : State) (info : FileInfo) (u : User)
    (p c : string) (message : Message) :
  sessions st !! userId = Some info →
  users st !! userId = Some u →
  fetchFile ext (fileId info) = Some p →
  (∀ st2, convertFile ext info p format st2 = (Ok c, st2)) →
  sendToChannel ext (sendMethodFor c) c (userId, format) = Some message →
  let st0 := (getOrCreateUser now userId noUserData st).2 in
  let st1 := with_trace (trace st ++ [Replied userId Processing]) st0 in
  let st2 := addDoc (stageRecord cfg now message) st1 in
  uploadToStorageChannel cfg ext now c (userId, format) st1 = (Ok message, st2)
  ∧ conversions st2
    = <[fresh (dom (conversions st)) := stageRecord cfg now message]> (conversions st)
  ∧ conversions st !! fresh (dom (conversions st)) = None
  ∧ doc_expires_at (stageRecord cfg now message)
    = Some (now + FILE_DELETE_AFTER_HOURS cfg * (60 * 60 * 1000))
  ∧ balance userId st2 = Some (credits u)
  ∧ pipeline cfg ext now userId format info st0
    = settle cfg ext now userId format info p c message st2
  ∧ (credits u < CREDIT_PER_CONVERSION cfg →
     pipeline cfg ext now userId format info st0 = (Throw InsufficientCredits, st2)
     ∧ convertHandler cfg ext now userId format st
       = (Ok tt,
          with_trace
            (trace st2
             ++ [ConsoleError InsufficientCredits; Replied userId ConversionFailed])
            st2)).
Proof.
  intros Hs Hu Hp Hc Hm. cbn zeta.
  pose proof (getOrCreateUser_keeps_conversions now userId noUserData st) as Hconv.
  pose proof (getOrCreateUser_keeps_trace now userId noUserData st) as Htrace.
  assert (users (getOrCreateUser now userId noUserData st).2 !! userId
          = Some (set_last_activity now u)) as Hu0.
  { unfold getOrCreateUser. rewrite Hu. cbn. apply lookup_insert_eq. }
  set (st0 := (getOrCreateUser now userId noUserData st).2) in *.
  split; [by apply upload_run|].
  split; [unfold addDoc; cbn; by rewrite Hconv|].
  split; [apply fresh_id_free|].
  split; [done|].
  split; [unfold balance; cbn; by rewrite Hu0|].
  assert (pipeline cfg ext now userId format info st0
          = settle cfg ext now userId format info p c message
              (addDoc (stageRecord cfg now message)
                 (with_trace (trace st ++ [Replied userId Processing]) st0)))
    as Hpipe.
  { rewrite (pipeline_after_stage _ _ _ _ _ _ _ p c message) by done.
    by rewrite Htrace. }
  split; [exact Hpipe|].
  intros Hlt.
  assert (pipeline cfg ext now userId format info st0
          = (Throw InsufficientCredits,
             addDoc (stageRecord cfg now message)
               (with_trace (trace st ++ [Replied userId Processing]) st0)))
    as Hthrow.
  { rewrite Hpipe. apply (settle_rejected _ _ _ _ _ _ _ _ _ _ (set_last_activity now u)).
    - cbn. exact Hu0.
    - cbn. lia. }
  split; [exact Hthrow|].
  rewrite (convertHandler_with_session _ _ _ _ _ _ info Hs).
  fold st0. by rewrite Hthrow.
Qed.

Lemma stage_record_precedes_debit_witness :
  let st := uploaded 1 0 in
  let st' := (convertHandler sampleConfig reliable 100 1 "720p" st).2 in
  credits (sampleUser 1 0) < CREDIT_PER_CONVERSION sampleConfig
  ∧ conversions st' = {[ 0%nat := stageRecord sampleConfig 100 sampleMessage ]}
  ∧ trace st'
    = [Replied 1 Processing; ConsoleError InsufficientCredits;
       Replied 1 ConversionFailed].
Proof.
  cbn zeta.
  destruct (stage_record_precedes_debit sampleConfig reliable 100 1 "720p"
              (uploaded 1 0) sampleInfo (sampleUser 1 0)
              "temp/1700000000000_42" "temp/1700000000000_42_720p.mp4"
              sampleMessage eq_refl eq_refl eq_refl
              ltac:(intros; reflexivity) eq_refl)
    as (_ & _ & _ & _ & _ & _ & Hfail).
  assert (credits (sampleUser 1 0) < CREDIT_PER_CONVERSION sampleConfig) as Hlt
    by (vm_compute; reflexivity).
  split; [exact Hlt|].
  destruct (Hfail Hlt) as [_ ->]. split; vm_compute; reflexivity.
Defined.

(** ** Uploads without credits *)

Lemma acceptUpload_no_credits cfg now userId fileType media st u :
  users st !! userId = Some u →
  credits u < CREDIT_PER_CONVERSION cfg →
  acceptUpload cfg now userId fileType media st
  = (Ok tt,
     with_trace (trace st ++ [Replied userId NotEnoughCredits])
       (with_users (<[userId := set_last_activity now u]> (users st)) st)).
Proof.
  intros Hu Hlt. unfold acceptUpload.
  erewrite bind_run; [|unfold getOrCreateUser; rewrite Hu; reflexivity].
  destruct (Z.ltb_spec (credits u) (CREDIT_PER_CONVERSION cfg)); [done|lia].
Qed.

Lemma try_catch_Ok {A} (m : M A) h st a st' :
  m st = (Ok a, st') → try_catch m h st = (Ok a, st').
Proof. unfold try_catch. by intros ->. Qed.

(** C7 (as the code has it).  The balance is checked when a file is
    uploaded.  For an account whose balance is below the cost, the
    video, audio and document handlers answer "not enough credits":
    nothing is debited, no balance changes, no document is added to the
    conversions and no session is stored; the one thing written is the
    account's [last_activity], which [getOrCreateUser] refreshes. *)
Theorem upload_rejected_without_credits (cfg : Config) (now userId : Z)
    (media : Media) (st : State) (u : User) :
  users st !! userId = Some u →
  credits u < CREDIT_PER_CONVERSION cfg →
  let st' :=
    with_trace (trace st ++ [Replied userId NotEnoughCredits])
      (with_users (<[userId := set_last_activity now u]> (users st)) st) in
  videoHandler cfg now userId media st = (Ok tt, st')
  ∧ audioHandler cfg now userId media st = (Ok tt, st')
  ∧ (Js.startsWith "video/" (media_mime_type media)
     || Js.startsWith "audio/" (media_mime_type media) = true →
     documentHandler cfg now userId media st = (Ok tt, st'))
  ∧ (∀ other, balance other st' = balance other st)
  ∧ conversions st' = conversions st
  ∧ sessions st' = sessions st
  ∧ users st' !! userId = Some (set_last_activity now u).
Proof.
  intros Hu Hlt. cbn zeta.
  split; [by apply try_catch_Ok, acceptUpload_no_credits|].
  split; [by apply try_catch_Ok, acceptUpload_no_credits|].
  split.
  { intros Hmime. apply try_catch_Ok.
    destruct (Js.startsWith "video/" _); [by apply acceptUpload_no_credits|].
    destruct (Js.startsWith "audio/" _); [by apply acceptUpload_no_credits|done]. }
  split.
  { intros other. unfold balance; cbn. rewrite lookup_insert.
    case_decide as Heq; [|done]. subst other. by rewrite Hu. }
  cbn. by rewrite lookup_insert_eq.
Qed.

Lemma upload_rejected_without_credits_witness :
  let st := oneUser 1 0 in
  let st' := (videoHandler sampleConfig 100 1 sampleMedia st).2 in
  credits (sampleUser 1 0) < CREDIT_PER_CONVERSION sampleConfig
  ∧ trace st' = [Replied 1 NotEnoughCredits]
  ∧ balance 1 st' = Some 0
  ∧ conversions st' = ∅
  ∧ sessions st' = ∅.
Proof.
  cbn zeta.
  assert (credits (sampleUser 1 0) < CREDIT_PER_CONVERSION sampleConfig) as Hlt
    by (vm_compute; reflexivity).
  destruct (upload_rejected_without_credits sampleConfig 100 1 sampleMedia
              (oneUser 1 0) (sampleUser 1 0) eq_refl Hlt)
    as (-> & _ & _ & Hbal & Hconv & Hsess & _).
  split; [exact Hlt|]. split; [reflexivity|].
  split; [rewrite Hbal; reflexivity|]. split; [exact Hconv|exact Hsess].
Defined.

(** C7, the claim as written.  First, a format selection is a
    conversion attempt that is not checked: the account uploaded with
    one credit and has none left when it selects the format; the
    pipeline runs, the stage record is written, the debit fails and the
    answer is "conversion failed".  Second, the rejection of an upload
    does write to the store: the account's [last_activity]. *)
Lemma selection_without_credits_stages_a_record :
  (let st := spentAfterUpload in
   let st' := (convertHandler sampleConfig reliable 100 1 "720p" st).2 in
   balance 1 st = Some 0
   ∧ is_Some (sessions st !! 1)
   ∧ conversions st = ∅
   ∧ conversions st' = {[ 0%nat := stageRecord sampleConfig 100 sampleMessage ]}
   ∧ balance 1 st' = Some 0
   ∧ trace st'
     = trace st ++ [Replied 1 Processing; ConsoleError InsufficientCredits;
                    Replied 1 ConversionFailed])
  ∧ (let st := oneUser 1 0 in
     let st' := (videoHandler sampleConfig 100 1 sampleMedia st).2 in
     trace st' = [Replied 1 NotEnoughCredits]
     ∧ last_activity <$> users st !! 1 = Some 0
     ∧ last_activity <$> users st' !! 1 = Some 100
     ∧ users st' ≠ users st).
Proof.
  split.
  - vm_compute. repeat split; try done. by eexists.
  - cbn zeta. repeat split; try (vm_compute; reflexivity).
    intros Heq. apply (f_equal (fun m => last_activity <$> m !! 1)) in Heq.
    vm_compute in Heq. discriminate.
Qed.

(** ** Daily limit *)

Section DailyLimit.

Variable cfg : Config.
Implicit Types (st : State) (u : User).


Lemma getOrCreateUser_existing now userId ud st u :
  users st !! userId = Some u →
  getOrCreateUser now userId ud st
  = (Ok u, with_users (<[userId := set_last_activity now u]> (users st)) st).
Proof. intros Hu. unfold getOrCreateUser. by rewrite Hu. Qed.









End DailyLimit.



(** ** The count of the day, in the claim's words *)







(** * Further properties of the services and handlers *)

(** ** Formats offered and formats converted *)

Lemma audioCommand_offered (p format : string) :
  format ∈ (snd <$> getAvailableFormats Audio) →
  ∃ c, audioCommand p format = Some c ∧ cmd_format c = Some format.
Proof.
  cbn. rewrite !elem_of_cons, elem_of_nil.
  intros [->|[->|[->|[]]]]; eexists; (split; [reflexivity|done]).
Qed.

Lemma audioCommand_not_offered (p format : string) :
  format ∉ (snd <$> getAvailableFormats Audio) → audioCommand p format = None.
Proof.
  cbn. rewrite !not_elem_of_cons. intros (H1 & H2 & H3 & _).
  unfold audioCommand.
  apply String.eqb_neq in H1, H2, H3. by rewrite H1, H2, H3.
Qed.

(** The buttons [getAvailableFormats] offers are exactly what the
    converters accept.  A format offered for a video gives a command
    that either drops the video or has a numeric, positive size; a
    format offered for an audio file is one [convertAudio] has a codec
    for; neither converter answers "Unsupported format" to an offered
    button.  An audio format that is not offered is refused with
    "Unsupported format" before ffmpeg is started, and nothing is
    written. *)
Theorem offered_formats_are_supported (ext : Externals) (info : FileInfo)
    (p : string) (st : State) :
  Forall (fun format =>
            (convertFile ext info p format st).1 ≠ Throw UnsupportedFormat
            ∧ match fileType info with
              | Video =>
                  cmd_noVideo (videoCommand p format) = true
                  ∨ ∃ w h, cmd_size (videoCommand p format) = Some (Some w, Some h)
                           ∧ 0 < w ∧ 0 < h
              | Audio =>
                  ∃ c, audioCommand p format = Some c ∧ cmd_format c = Some format
              end)
    (snd <$> getAvailableFormats (fileType info))
  ∧ (∀ format,
       fileType info = Audio →
       format ∉ (snd <$> getAvailableFormats Audio) →
       convertFile ext info p format st = (Throw UnsupportedFormat, st)).
Proof.
  split.
  - unfold convertFile. destruct (fileType info).
    + apply Forall_forall. intros format Hin. cbn in Hin.
      rewrite !elem_of_cons, elem_of_nil in Hin.
      split; [unfold convertVideo; destruct (ffmpegRun ext _); cbn; discriminate|].
      destruct Hin as [->|[->|[->|[->|[->|[]]]]]];
        first [ left; reflexivity
              | right; eexists _, _; split; [reflexivity|]; vm_compute; done ].
    + apply Forall_forall. intros format Hin.
      destruct (audioCommand_offered p format Hin) as (c & Hc & Hf).
      split; [|by exists c].
      unfold convertAudio. rewrite Hc.
      destruct (ffmpegRun ext c); cbn; discriminate.
  - intros format Ha Hnot. unfold convertFile, convertAudio. rewrite Ha.
    by rewrite (audioCommand_not_offered p format Hnot).
Qed.

Lemma offered_formats_are_supported_witness :
  ("flac" ∉ (snd <$> getAvailableFormats Audio))
  ∧ convertFile reliable
      {| fileId := "SRC"; fileType := Audio; fileName := Given "a.ogg"; fileSize := 10 |}
      "temp/1_2" "flac" emptyState
    = (Throw UnsupportedFormat, emptyState).
Proof.
  assert ("flac" ∉ (snd <$> getAvailableFormats Audio)) as Hnot.
  { cbn. rewrite !not_elem_of_cons. repeat split; try discriminate.
    apply not_elem_of_nil. }
  split; [exact Hnot|].
  exact (proj2 (offered_formats_are_supported reliable
                  {| fileId := "SRC"; fileType := Audio; fileName := Given "a.ogg";
                     fileSize := 10 |} "temp/1_2" emptyState)
           "flac" eq_refl Hnot).
Defined.

(** ** Sweeps at two times *)

Lemma size_filter_split {A} (P : nat * A → Prop) `{!∀ x, Decision (P x)}
    (m : gmap nat A) :
  size m = (size (filter P m) + size (filter (fun x => ¬ P x) m))%nat.
Proof.
  rewrite <- (map_filter_union_complement P m) at 1.
  apply map_size_disj_union, map_disjoint_filter_complement.
Qed.

Lemma isExpired_mono (now now' : Z) (d : ConvDoc) :
  now ≤ now' → isExpired now d = true → isExpired now' d = true.
Proof.
  unfold isExpired. destruct (doc_expires_at d) as [e|]; [|done].
  rewrite !Z.leb_le. lia.
Qed.

Lemma expired_counts_add (now now' : Z) (m : gmap nat ConvDoc) :
  now ≤ now' →
  (size (filter (fun kd => isExpired now kd.2 = true) m)
   + size (filter (fun kd => isExpired now' kd.2 = true)
             (filter (fun kd => isExpired now kd.2 = false) m)))%nat
  = size (filter (fun kd => isExpired now' kd.2 = true) m).
Proof.
  intros Hle.
  rewrite (size_filter_split (fun kd => isExpired now kd.2 = true)
             (filter (fun kd => isExpired now' kd.2 = true) m)).
  f_equal.
  - f_equal. apply map_filter_strong_ext. intros i d. cbn.
    rewrite map_lookup_filter_Some. cbn. split; [|tauto].
    intros [He Hd]. split; [done|]. split; [done|].
    by apply (isExpired_mono now now').
  - f_equal. apply map_filter_strong_ext. intros i d. cbn.
    rewrite !map_lookup_filter_Some. cbn.
    destruct (isExpired now d); split; intros; destruct_and?; try done;
      repeat split; try done; congruence.
Qed.

(** Two sweeps, the second not earlier than the first, leave the same
    records as one sweep at the later time, and the numbers of records
    they report add up to the number that one sweep reports: across
    runs no expired record is counted twice and none is skipped. *)
Theorem sweeps_compose (ext1 ext2 ext : Externals) (now now' : Z) (st : State) :
  now ≤ now' →
  let st1 := (cleanupOldFiles ext1 now st).2 in
  conversions (cleanupOldFiles ext2 now' st1).2
  = conversions (cleanupOldFiles ext now' st).2
  ∧ ∃ n1 n2 n,
      (cleanupOldFiles ext1 now st).1 = Ok n1
      ∧ (cleanupOldFiles ext2 now' st1).1 = Ok n2
      ∧ (cleanupOldFiles ext now' st).1 = Ok n
      ∧ (n1 + n2)%nat = n.
Proof.
  intros Hle. cbn zeta. split.
  - rewrite !cleanupOldFiles_conversions.
    apply map_eq. intros i. apply option_eq. intros d.
    rewrite !map_lookup_filter_Some. cbn. split; [tauto|].
    intros [Hd He]. repeat split; try done.
    destruct (isExpired now d) eqn:Hnow; [|done].
    by rewrite (isExpired_mono now now' d Hle Hnow) in He.
  - eexists _, _, _. rewrite !cleanupOldFiles_count.
    repeat (split; [reflexivity|]).
    unfold expiredFiles. rewrite cleanupOldFiles_conversions.
    by apply expired_counts_add.
Qed.

Lemma sweeps_compose_witness :
  let now := 3 * msPerHour in
  let now' := 5 * msPerHour in
  now ≤ now'
  ∧ (cleanupOldFiles reliable now oneStaged).1 = Ok 1%nat
  ∧ (cleanupOldFiles reliable now'
       (cleanupOldFiles reliable now oneStaged).2).1 = Ok 0%nat
  ∧ (cleanupOldFiles reliable now' oneStaged).1 = Ok 1%nat.
Proof.
  cbn zeta.
  assert (3 * msPerHour ≤ 5 * msPerHour) as Hle by (vm_compute; discriminate).
  destruct (sweeps_compose reliable reliable reliable _ _ oneStaged Hle)
    as (_ & n1 & n2 & n & H1 & H2 & H3 & _).
  split; [exact Hle|]. repeat split; vm_compute; reflexivity.
Defined.

(** ** Reset *)

(** [resetUser] answers false for a missing account and writes nothing.
    For an existing account it stores 10 credits, no referrals and no
    usage, and keeps the identity of the account (id, creation time,
    user name, referrer); no other account, no session and no
    conversion record is touched, so the answer of the daily-limit
    check is the same after the reset as before it. *)
Theorem resetUser_effect (cfg : Config) (now userId : Z) (st : State) :
  match users st !! userId with
  | None => resetUser now userId st = (Ok false, st)
  | Some u =>
      ∃ u' st',
        resetUser now userId st = (Ok true, st')
        ∧ users st' = <[userId := u']> (users st)
        ∧ (credits u' = 10 ∧ referrals u' = 0 ∧ usage_count u' = 0
           ∧ last_activity u' = now)
        ∧ (user_id u' = user_id u ∧ created_at u' = created_at u
           ∧ username u' = username u ∧ referrer_id u' = referrer_id u)
        ∧ conversions st' = conversions st
        ∧ sessions st' = sessions st
        ∧ ∀ t, (checkDailyLimit cfg t userId st').1 = (checkDailyLimit cfg t userId st).1
  end.
Proof.
  unfold resetUser. destruct (users st !! userId) as [u|] eqn:Hu; [|done].
  eexists _, _. split; [reflexivity|]. cbn.
  repeat (split; [done|]).
  intros t. unfold checkDailyLimit. cbn. by rewrite lookup_insert_eq, Hu.
Qed.

(** ** Accounts keep their identity *)

Lemma applyOp_identity (cfg : Config) (op : LedgerOp) (st : State) (id : Z) (u : User) :
  users st !! id = Some u →
  ∃ u', users (applyOp cfg op st) !! id = Some u'
        ∧ user_id u' = user_id u ∧ created_at u' = created_at u
        ∧ username u' = username u ∧ referrer_id u' = referrer_id u.
Proof.
  intros Hu.
  destruct op as [now t ud|now t amount|now r n|now t]; cbn.
  - unfold getOrCreateUser. destruct (users st !! t) as [v|] eqn:Hv; cbn.
    + destruct (decide (t = id)) as [->|Hne].
      * rewrite lookup_insert_eq. eexists. split; [done|]. by simplify_eq.
      * rewrite lookup_insert_ne by done. by exists u.
    + rewrite lookup_insert_ne by congruence. by exists u.
  - unfold updateCredits. destruct (users st !! t) as [v|] eqn:Hv; cbn;
      [|by exists u].
    destruct (credits v + amount <? 0); cbn; [by exists u|].
    destruct (decide (t = id)) as [->|Hne].
    + rewrite lookup_insert_eq. eexists. split; [done|]. by simplify_eq.
    + rewrite lookup_insert_ne by done. by exists u.
  - unfold processReferral. destruct r as [r|]; [|by exists u].
    destruct ((r =? 0) || (r =? n)); [by exists u|].
    destruct (users st !! r) as [v|] eqn:Hv; cbn; [|by exists u].
    destruct (decide (r = id)) as [->|Hne].
    + rewrite lookup_insert_eq. eexists. split; [done|]. by simplify_eq.
    + rewrite lookup_insert_ne by done. by exists u.
  - unfold resetUser. destruct (users st !! t) as [v|] eqn:Hv; cbn;
      [|by exists u].
    destruct (decide (t = id)) as [->|Hne].
    + rewrite lookup_insert_eq. eexists. split; [done|]. by simplify_eq.
    + rewrite lookup_insert_ne by done. by exists u.
Qed.

(** No sequence of account creations, credit updates, referral awards
    and resets deletes an account or changes its id, its creation
    time, its user name or its referrer: the referrer recorded when the
    account was created stays, whatever later /start payloads say. *)
Theorem accounts_keep_identity (cfg : Config) (ops : list LedgerOp)
    (st : State) (id : Z) (u : User) :
  users st !! id = Some u →
  ∃ u', users (applyOps cfg ops st) !! id = Some u'
        ∧ user_id u' = user_id u ∧ created_at u' = created_at u
        ∧ username u' = username u ∧ referrer_id u' = referrer_id u.
Proof.
  revert st u. induction ops as [|op ops IH]; intros st u Hu.
  - by exists u.
  - destruct (applyOp_identity cfg op st id u Hu) as (u1 & Hu1 & E1 & E2 & E3 & E4).
    destruct (IH _ u1 Hu1) as (u' & Hu' & F1 & F2 & F3 & F4).
    exists u'. split; [exact Hu'|]. repeat split; congruence.
Qed.

Lemma accounts_keep_identity_witness :
  let ops :=
    [OpCreate 10 1 {| ud_username := Some "eve"; ud_referrer_id := Some 9 |};
     OpUpdate 20 1 (-3); OpReset 30 1] in
  users (oneUser 1 3) !! 1 = Some (sampleUser 1 3)
  ∧ referrer_id <$> users (applyOps sampleConfig ops (oneUser 1 3)) !! 1
    = Some None.
Proof.
  cbn zeta. split; [reflexivity|].
  destruct (accounts_keep_identity sampleConfig
              [OpCreate 10 1 {| ud_username := Some "eve"; ud_referrer_id := Some 9 |};
               OpUpdate 20 1 (-3); OpReset 30 1]
              (oneUser 1 3) 1 (sampleUser 1 3) eq_refl)
    as (u' & Hu' & _ & _ & _ & Hr).
  rewrite Hu'. cbn. rewrite Hr. reflexivity.
Defined.

(** ** Statistics *)

Lemma getOrCreateUser_touches (now userId : Z) (ud : UserData) (st : State) :
  ∃ v, users (getOrCreateUser now userId ud st).2 !! userId = Some v
       ∧ last_activity v = now.
Proof.
  unfold getOrCreateUser. destruct (users st !! userId) as [u|]; cbn;
    rewrite lookup_insert_eq; by eexists.
Qed.

(** [getStats] reads only.  It reports the number of accounts, the
    number of conversion documents, and as active users the number of
    accounts whose last activity is not before the instant seven local
    days ago: exactly those accounts, each counted once.  So the active
    accounts never outnumber the accounts, and an account that
    [getOrCreateUser] touched since that instant is counted. *)
Theorem getStats_counts (cfg : Config) (now : Z) (st : State) :
  ∃ s (active : gset Z),
    getStats cfg now st = (Ok s, st)
    ∧ totalUsers s = size (users st)
    ∧ totalConversions s = size (conversions st)
    ∧ (∀ id, id ∈ active ↔ activeAccount cfg now st id)
    ∧ activeUsers s = size active
    ∧ (activeUsers s ≤ totalUsers s)%nat
    ∧ ∀ t userId ud,
        localDaysAgo (LocalTZA (TZ cfg)) 7 now ≤ t →
        ∃ s', (getStats cfg now (getOrCreateUser t userId ud st).2).1 = Ok s'
              ∧ (1 ≤ activeUsers s')%nat.
Proof.
  set (since := localDaysAgo (LocalTZA (TZ cfg)) 7 now).
  set (recent := filter (fun ku : Z * User => since ≤ last_activity ku.2) (users st)).
  exists {| totalUsers := size (users st); activeUsers := size recent;
            totalConversions := size (conversions st) |}, (dom recent).
  split; [reflexivity|]. split; [done|]. split; [done|].
  split.
  { intros id. rewrite elem_of_dom. unfold is_Some, activeAccount, recent.
    split; intros [u Hu]; exists u.
    - by apply map_lookup_filter_Some in Hu.
    - by apply map_lookup_filter_Some. }
  split; [cbn; by rewrite size_dom|].
  split; [apply map_subseteq_size, map_filter_subseteq|].
  intros t userId ud Ht. eexists. split; [reflexivity|]. cbn.
  destruct (getOrCreateUser_touches t userId ud st) as (v & Hv & Hlast).
  assert (size (filter (fun ku : Z * User => since ≤ last_activity ku.2)
                  (users (getOrCreateUser t userId ud st).2)) ≠ 0%nat) as Hne.
  { apply (map_size_ne_0_lookup_2 _ userId). exists v.
    apply map_lookup_filter_Some. split; [done|]. cbn. lia. }
  fold since. lia.
Qed.

Lemma getStats_counts_witness :
  ∃ s, getStats aheadConfig (12 * msPerDay) threeAccounts = (Ok s, threeAccounts)
       ∧ totalUsers s = 3%nat
       ∧ activeUsers s = 2%nat
       ∧ ¬ activeAccount aheadConfig (12 * msPerDay) threeAccounts 1.
Proof.
  destruct (getStats_counts aheadConfig (12 * msPerDay) threeAccounts)
    as (s & active & Hrun & Htotal & _ & Hactive & Hsize & _).
  exists s. split; [exact Hrun|].
  assert (Hs : s = {| totalUsers := 3; activeUsers := 2; totalConversions := 0 |}).
  { revert Hrun. vm_compute. by intros [= <-]. }
  split; [by rewrite Hs|]. split; [by rewrite Hs|].
  intros (u & Hu & Hle). revert Hu Hle. vm_compute. intros [= <-]. cbn. done.
Defined.

(** ** Uploads: the size limit and the session *)




(** ** Credit updates compose *)

(** When neither step is rejected, two credit updates of one account
    store what a single update by the sum stores; in particular adding
    an amount and taking it back returns the balance the account had. *)
Theorem updateCredits_compose (t1 t2 userId a b : Z) (st : State) (u : User) :
  users st !! userId = Some u →
  0 ≤ credits u + a →
  0 ≤ credits u + a + b →
  (run updateCredits t1 userId a in updateCredits t2 userId b) st
  = updateCredits t2 userId (a + b) st
  ∧ (b = - a →
     ∃ st', (run updateCredits t1 userId a in updateCredits t2 userId b) st
            = (Ok (credits u), st')
            ∧ balance userId st' = Some (credits u)).
Proof.
  intros Hu Ha Hb.
  assert ((run updateCredits t1 userId a in updateCredits t2 userId b) st
          = updateCredits t2 userId (a + b) st) as Heq.
  { erewrite bind_run; [|by apply (updateCredits_accepted _ _ _ _ u)].
    rewrite (updateCredits_accepted t2 userId (a + b) st u Hu ltac:(lia)).
    erewrite updateCredits_accepted;
      [|cbn; apply lookup_insert_eq|cbn; lia].
    cbn. rewrite insert_insert_eq.
    replace (credits u + (a + b)) with (credits u + a + b) by lia.
    reflexivity. }
  split; [exact Heq|].
  intros ->. rewrite Heq.
  rewrite (updateCredits_accepted t2 userId (a + - a) st u Hu ltac:(lia)).
  eexists. split; [f_equal; f_equal; lia|].
  unfold balance. cbn. rewrite lookup_insert_eq. cbn. f_equal. lia.
Qed.

Lemma updateCredits_compose_witness :
  ∃ st', (run updateCredits 10 1 5 in updateCredits 20 1 (-5)) (oneUser 1 3)
         = (Ok 3, st')
         ∧ balance 1 st' = Some 3.
Proof.
  destruct (updateCredits_compose 10 20 1 5 (-5) (oneUser 1 3) (sampleUser 1 3)
              eq_refl ltac:(vm_compute; discriminate) ltac:(vm_compute; discriminate))
    as [_ Hback].
  exact (Hback eq_refl).
Defined.

(** ** How the pipeline fails *)

Lemma bind_Throw_inv {A B} (m : M A) (k : A → M B) st e st' :
  bind m k st = (Throw e, st') →
  m st = (Throw e, st')
  ∨ ∃ a st1, m st = (Ok a, st1) ∧ k a st1 = (Throw e, st').
Proof.
  unfold bind. destruct (m st) as [[a|e0] st1]; intros H.
  - right. by exists a, st1.
  - left. by injection H as -> ->.
Qed.

Lemma downloadFile_Throw_inv ext fileId st e st' :
  downloadFile ext fileId st = (Throw e, st') →
  e = FailedToDownload
  ∧ st' = with_trace (trace st ++ [ConsoleError TelegramError]) st.
Proof.
  unfold downloadFile. destruct (fetchFile ext fileId); cbn; [done|].
  by intros [= <- <-].
Qed.

Lemma convertFile_Throw_inv ext info p format st e st' :
  convertFile ext info p format st = (Throw e, st') →
  (e = FailedToConvertVideo ∨ e = FailedToConvertAudio ∨ e = UnsupportedFormat)
  ∧ (st' = st ∨ st' = with_trace (trace st ++ [ConsoleError FfmpegError]) st).
Proof.
  unfold convertFile, convertVideo, convertAudio. destruct (fileType info).
  - destruct (ffmpegRun ext _); cbn; [done|].
    intros [= <- <-]. split; [by left|by right].
  - destruct (audioCommand p format).
    + destruct (ffmpegRun ext _); cbn; [done|]. intros [= <- <-].
      split; [right; by left|by right].
    + cbn. intros [= <- <-]. split; [right; by right|by left].
Qed.

Lemma upload_Throw_inv cfg ext now path caption st e st' :
  uploadToStorageChannel cfg ext now path caption st = (Throw e, st') →
  e = FailedToUpload
  ∧ st' = with_trace (trace st ++ [ConsoleError TelegramError]) st.
Proof.
  unfold uploadToStorageChannel. destruct (sendToChannel ext _ _ _); cbn; [done|].
  by intros [= <- <-].
Qed.

Lemma updateCredits_Throw_inv now userId amount st e st' :
  updateCredits now userId amount st = (Throw e, st') →
  (e = UserNotFound ∨ e = InsufficientCredits) ∧ st' = st.
Proof.
  unfold updateCredits. destruct (users st !! userId) as [u|].
  - destruct (_ <? 0); [|done]. intros [= <- <-]. split; [by right|done].
  - intros [= <- <-]. split; [by left|done].
Qed.

Lemma external_Throw_inv ok st e st' :
  external ok st = (Throw e, st') → e = TelegramError ∧ st' = st.
Proof. destruct ok; cbn; [done|]. by intros [= <- <-]. Qed.

(** After the debit the account exists with a balance that is not
    negative, so the delivery can only fail on the attachment it reads
    or on Telegram; the balance it leaves is the one it found. *)
Lemma deliver_Throw_inv ext now userId info format message st e st' u :
  users st !! userId = Some u → 0 ≤ credits u →
  deliver ext now userId info format message st = (Throw e, st') →
  (e = TypeError ∨ e = TelegramError)
  ∧ conversions st' = conversions st
  ∧ trace st' = trace st
  ∧ ∃ u', users st' = <[userId := u']> (users st)
          ∧ credits u' = credits u ∧ usage_count u' = usage_count u.
Proof.
  intros Hu Hpos.
  assert (∀ (mk : string → Z → Reply) o,
            (let* f := attachment o in
             let* remaining := updateCredits now userId 0 in
             run external (replyWithMedia ext) in
             reply userId (mk f remaining)) st = (Throw e, st') →
            (e = TypeError ∨ e = TelegramError)
            ∧ conversions st' = conversions st
            ∧ trace st' = trace st
            ∧ ∃ u', users st' = <[userId := u']> (users st)
                    ∧ credits u' = credits u ∧ usage_count u' = usage_count u)
    as Htail.
  { intros mk o H.
    apply bind_Throw_inv in H as [H|(f & s1 & Ha & H)].
    { destruct o; [done|]. injection H as <- <-.
      split; [by left|]. split; [done|]. split; [done|].
      exists u. split; [by rewrite insert_id|done]. }
    apply attachment_Ok_inv in Ha as [-> ->].
    rewrite (bind_run _ _ _ _ _
               (updateCredits_accepted now userId 0 st u Hu ltac:(lia))) in H.
    apply bind_Throw_inv in H as [H|(? & s2 & He & H)].
    - apply external_Throw_inv in H as [-> ->].
      split; [by right|]. split; [done|]. split; [done|].
      eexists. split; [reflexivity|]. cbn. split; [lia|done].
    - unfold reply in H. by rewrite emit_run in H. }
  unfold deliver. destruct (fileType info); [destruct (negb _)|]; apply Htail.
Qed.

Lemma settle_Throw_inv cfg ext now userId format info p c message st e st' :
  settle cfg ext now userId format info p c message st = (Throw e, st') →
  ((e = UserNotFound ∨ e = InsufficientCredits) ∧ st' = st)
  ∨ (thrownAfterDebit e = true
     ∧ trace st' = trace st
     ∧ sessions st' = sessions st
     ∧ conversions st'
       = conversions (addDoc (usageRecord now userId info message format) st)
     ∧ ∃ u u', users st !! userId = Some u
               ∧ CREDIT_PER_CONVERSION cfg ≤ credits u
               ∧ users st' = <[userId := u']> (users st)
               ∧ credits u' = credits u - CREDIT_PER_CONVERSION cfg
               ∧ usage_count u' = usage_count u + 1).
Proof.
  unfold settle. intros H.
  apply bind_Throw_inv in H as [H|(n & s1 & Hd & H)].
  { left. by apply updateCredits_Throw_inv in H. }
  right.
  apply updateCredits_Ok_inv in Hd as (u & Hu & Hpos & -> & ->).
  erewrite bind_run in H;
    [|unfold incrementUsage; cbn [users with_users];
      rewrite lookup_insert_eq; reflexivity].
  erewrite bind_run in H; [|reflexivity].
  apply bind_Throw_inv in H as [H|(? & s2 & He & H)].
  { apply external_Throw_inv in H as [-> ->].
    split; [done|]. split; [done|]. split; [done|]. split; [done|].
    exists u. eexists. split; [done|]. split; [lia|].
    cbn. rewrite insert_insert_eq. split; [reflexivity|]. cbn. split; [lia|done]. }
  apply external_Ok_inv in He as [_ ->].
  apply bind_Throw_inv in H as [H|(? & s3 & Hdl & H)].
  { match type of H with
    | deliver _ _ _ _ _ _ ?s = _ =>
        pose proof (deliver_keeps_sessions ext now userId info format message s) as Hs
    end.
    rewrite H in Hs. cbn in Hs.
    eapply deliver_Throw_inv in H as (He & Hconv & Htr & u' & Husers & Hc & Hn);
      [|cbn; apply lookup_insert_eq|cbn; lia].
    split; [by destruct He as [-> | ->]|].
    split; [by rewrite Htr|].
    split; [exact Hs|].
    cbn in Hconv, Husers, Hc, Hn. split; [exact Hconv|].
    exists u, u'. split; [done|]. split; [lia|].
    rewrite Husers, !insert_insert_eq. split; [done|]. split; [lia|lia]. }
  apply bind_Throw_inv in H as [H|(? & s4 & Ht & H)].
  - unfold cleanupTempFiles in H. by rewrite emit_run in H.
  - done.
Qed.

Lemma pipeline_Throw_inv cfg ext now userId format info st e st' :
  pipeline cfg ext now userId format info st = (Throw e, st') →
  sessions st' = sessions st
  ∧ (∃ evs, trace st' = trace st ++ evs ∧ existsb isRemovedTemp evs = false)
  ∧ ((thrownBeforeDebit e = true
      ∧ users st' = users st ∧ conversions st' = conversions st)
     ∨ ((e = UserNotFound ∨ e = InsufficientCredits)
        ∧ users st' = users st
        ∧ ∃ message,
            conversions st' = conversions (addDoc (stageRecord cfg now message) st))
     ∨ (thrownAfterDebit e = true
        ∧ ∃ message u u',
            users st !! userId = Some u
            ∧ CREDIT_PER_CONVERSION cfg ≤ credits u
            ∧ users st' = <[userId := u']> (users st)
            ∧ credits u' = credits u - CREDIT_PER_CONVERSION cfg
            ∧ usage_count u' = usage_count u + 1
            ∧ conversions st'
              = conversions (withBothRecords cfg now userId format info message st))).
Proof.
  intros H.
  pose proof (pipeline_consumes cfg ext now userId format info st) as Hs.
  rewrite H in Hs. split; [exact Hs|]. clear Hs.
  unfold pipeline in H.
  erewrite bind_run in H; [|apply emit_run].
  apply bind_Throw_inv in H as [H|(p & s1 & Hp & H)].
  { apply downloadFile_Throw_inv in H as [-> ->]. cbn.
    split; [eexists; rewrite <- app_assoc; split; [reflexivity|done]|].
    left. done. }
  apply downloadFile_Ok_inv in Hp as [Hp ->].
  apply bind_Throw_inv in H as [H|(c & s2 & Hc & H)].
  { apply convertFile_Throw_inv in H as [He [-> | ->]]; cbn.
    - split; [eexists; split; [reflexivity|done]|].
      left. by destruct He as [->|[->| ->]].
    - split; [eexists; rewrite <- app_assoc; split; [reflexivity|done]|].
      left. by destruct He as [->|[->| ->]]. }
  apply convertFile_Ok_inv in Hc as [-> Hc].
  apply bind_Throw_inv in H as [H|(message & s3 & Hm & H)].
  { apply upload_Throw_inv in H as [-> ->]. cbn.
    split; [eexists; rewrite <- app_assoc; split; [reflexivity|done]|].
    left. done. }
  apply upload_Ok_inv in Hm as [Hm ->].
  change (settle cfg ext now userId format info p c message
            (addDoc (stageRecord cfg now message)
               (with_trace (trace st ++ [Replied userId Processing]) st))
          = (Throw e, st')) in H.
  apply settle_Throw_inv in H
    as [[He ->]|(He & Htr & _ & Hconv & u & u' & Hu & Hcost & Husers & Hc' & Hn)].
  - cbn. split; [eexists; split; [reflexivity|done]|].
    right. left. split; [done|]. split; [done|]. by exists message.
  - split; [rewrite Htr; cbn; eexists; split; [reflexivity|done]|].
    right. right. split; [done|]. exists message, u, u'.
    cbn in Hu, Husers. repeat (split; [done|]). exact Hconv.
Qed.

Lemma pipeline_failure_before_debit (cfg : Config) (ext : Externals)
    (now userId : Z) (format : string) (info : FileInfo) (st st' : State) (e : Error) :
  pipeline cfg ext now userId format info st = (Throw e, st') →
  thrownBeforeDebit e = true →
  users st' = users st
  ∧ conversions st' = conversions st
  ∧ sessions st' = sessions st.
Proof.
  intros H He.
  apply pipeline_Throw_inv in H
    as (Hs & _ & [(_ & Hu & Hc)|[([-> | ->] & _)|(He' & _)]]); try done.
  by destruct e.
Qed.

(** A conversion that fails after the debit - the "Processing" message
    cannot be deleted, the staged message lacks the attachment the
    delivery reads, or Telegram refuses the delivery - is charged all
    the same: the balance is down by CREDIT_PER_CONVERSION, the usage
    count is up by one and both conversion records are written, while
    the session stays, so the same upload can be converted, and
    charged, again. *)
Theorem failure_after_debit_still_charges (cfg : Config) (ext : Externals)
    (now userId : Z) (format : string) (info : FileInfo) (st st' : State) (e : Error) :
  pipeline cfg ext now userId format info st = (Throw e, st') →
  thrownAfterDebit e = true →
  ∃ message u u',
    users st !! userId = Some u
    ∧ users st' !! userId = Some u'
    ∧ credits u' = credits u - CREDIT_PER_CONVERSION cfg
    ∧ usage_count u' = usage_count u + 1
    ∧ conversions st'
      = conversions (withBothRecords cfg now userId format info message st)
    ∧ sessions st' = sessions st.
Proof.
  intros H He.
  apply pipeline_Throw_inv in H
    as (Hs & _ & [(He' & _)|[([-> | ->] & _)|(_ & message & u & u' & Hu & _ & Husers
                                              & Hc & Hn & Hconv)]]);
    try done.
  - by destruct e.
  - exists message, u, u'. split; [done|].
    split; [rewrite Husers; apply lookup_insert_eq|]. done.
Qed.

Lemma failure_after_debit_still_charges_witness :
  let st' := (convertHandler sampleConfig deleteProcessingFails 100 1 "720p"
                (uploaded 1 10)).2 in
  balance 1 (uploaded 1 10) = Some 10
  ∧ balance 1 st' = Some 9
  ∧ sessions st' !! 1 = Some sampleInfo
  ∧ last (trace st') = Some (Replied 1 ConversionFailed).
Proof.
  cbn zeta.
  assert (pipeline sampleConfig deleteProcessingFails 100 1 "720p" sampleInfo
            (getOrCreateUser 100 1 noUserData (uploaded 1 10)).2
          = (Throw TelegramError,
             (pipeline sampleConfig deleteProcessingFails 100 1 "720p" sampleInfo
                (getOrCreateUser 100 1 noUserData (uploaded 1 10)).2).2)) as Hrun
    by (vm_compute; reflexivity).
  destruct (failure_after_debit_still_charges _ _ _ _ _ _ _ _ _ Hrun eq_refl)
    as (message & u & u' & _ & _ & _ & _ & _ & _).
  repeat split; vm_compute; reflexivity.
Defined.

(** The temporary files are removed only by a pipeline that ran to the
    end: every failure, at whatever step, leaves the downloaded and the
    converted file behind. *)
Theorem temp_files_removed_only_on_success (cfg : Config) (ext : Externals)
    (now userId : Z) (format : string) (info : FileInfo) (st : State) :
  ∃ evs,
    trace (pipeline cfg ext now userId format info st).2 = trace st ++ evs
    ∧ existsb isRemovedTemp evs
      = match (pipeline cfg ext now userId format info st).1 with
        | Ok _ => true
        | Throw _ => false
        end.
Proof.
  destruct (pipeline cfg ext now userId format info st) as [[a|e] st'] eqn:H.
  - apply pipeline_Ok_inv in H
      as (p & c & message & u & u' & r & _ & _ & _ & _ & _ & _ & _ & _ & _ & _ & _
          & Htrace).
    eexists. split; [exact Htrace|]. reflexivity.
  - apply pipeline_Throw_inv in H as (_ & (evs & Htrace & Hno) & _).
    by exists evs.
Qed.

(** One format selection takes at most one CREDIT_PER_CONVERSION from
    the account and adds nothing to it, whatever the outside world
    answers, and it changes no other account. *)
Theorem selection_charges_at_most_once (cfg : Config) (ext : Externals)
    (now userId : Z) (format : string) (st : State) (u : User) :
  users st !! userId = Some u →
  let st' := (convertHandler cfg ext now userId format st).2 in
  (balance userId st' = Some (credits u)
   ∨ balance userId st' = Some (credits u - CREDIT_PER_CONVERSION cfg))
  ∧ ∀ other, other ≠ userId → users st' !! other = users st !! other.
Proof.
  intros Hu. cbn zeta.
  set (st0 := (getOrCreateUser now userId noUserData st).2).
  assert (users st0 = <[userId := set_last_activity now u]> (users st)) as Hu0.
  { subst st0. by rewrite (getOrCreateUser_existing now userId noUserData st u Hu). }
  assert (∀ s, users s = users st0 →
               balance userId s = Some (credits u)
               ∧ ∀ other, other ≠ userId → users s !! other = users st !! other)
    as Hsame.
  { intros s Hs. unfold balance. rewrite Hs, Hu0. split.
    - by rewrite lookup_insert_eq.
    - intros other Hne. by rewrite lookup_insert_ne. }
  destruct (sessions st !! userId) as [info|] eqn:Hsess.
  - rewrite (convertHandler_with_session _ _ _ _ _ _ info Hsess). fold st0.
    destruct (pipeline cfg ext now userId format info st0) as [[a|e] st2] eqn:H.
    + apply pipeline_Ok_inv in H
        as (p & c & message & u0 & u' & r & _ & _ & _ & Hu0' & _ & _ & _ & Husers
            & Hc & _).
      rewrite Hu0, lookup_insert_eq in Hu0'. injection Hu0' as <-.
      cbn [snd]. split.
      * right. unfold balance. rewrite Husers, lookup_insert_eq. cbn. by rewrite Hc.
      * intros other Hne. by rewrite Husers, Hu0, !lookup_insert_ne.
    + cbn [snd].
      apply pipeline_Throw_inv in H
        as (_ & _ & [(_ & Husers & _)|[(_ & Husers & _)|(_ & message & u0 & u' & Hu0'
                                                        & _ & Husers & Hc & _)]]).
      * destruct (Hsame st2 Husers) as [Hb Ho]. split; [by left|exact Ho].
      * destruct (Hsame st2 Husers) as [Hb Ho]. split; [by left|exact Ho].
      * rewrite Hu0, lookup_insert_eq in Hu0'. injection Hu0' as <-. split.
        -- right. unfold balance. cbn. rewrite Husers, lookup_insert_eq. cbn.
           by rewrite Hc.
        -- intros other Hne. cbn. by rewrite Husers, Hu0, !lookup_insert_ne.
  - rewrite convertHandler_no_session by done. fold st0. cbn.
    destruct (Hsame st0 eq_refl) as [Hb Ho]. split; [by left|exact Ho].
Qed.

Lemma selection_charges_at_most_once_witness :
  users (uploaded 1 10) !! 1 = Some (sampleUser 1 10)
  ∧ balance 1 (convertHandler sampleConfig reliable 100 1 "720p" (uploaded 1 10)).2
    = Some 9.
Proof.
  split; [reflexivity|].
  destruct (selection_charges_at_most_once sampleConfig reliable 100 1 "720p"
              (uploaded 1 10) (sampleUser 1 10) eq_refl) as [_ _].
  vm_compute. reflexivity.
Defined.

(** ** /start *)

Lemma processReferral_frame cfg now referrerId newUserId st :
  let st' := (processReferral cfg now referrerId newUserId st).2 in
  conversions st' = conversions st
  ∧ sessions st' = sessions st
  ∧ trace st' = trace st
  ∧ ∀ id, referrerId ≠ Some id ∨ id = newUserId → users st' !! id = users st !! id.
Proof.
  cbn zeta. unfold processReferral.
  destruct referrerId as [r|]; [|done].
  destruct (Z.eqb_spec r 0) as [->|Hr0]; [done|].
  destruct (Z.eqb_spec r newUserId) as [->|Hne]; [done|]. cbn.
  destruct (users st !! r) as [u|] eqn:Hu; [|done]. cbn.
  repeat (split; [done|]).
  intros id [Hid| ->]; rewrite lookup_insert_ne; congruence.
Qed.

Lemma processReferral_returns cfg now referrerId newUserId st :
  ∃ b, processReferral cfg now referrerId newUserId st
       = (Ok b, (processReferral cfg now referrerId newUserId st).2).
Proof.
  unfold processReferral. destruct referrerId as [r|]; [|by eexists].
  destruct ((r =? 0) || (r =? newUserId)); [by eexists|].
  destruct (users st !! r); by eexists.
Qed.

Lemma startHandler_run cfg now userId name payload st :
  ∃ user st1 st2,
    getOrCreateUser now userId
      {| ud_username := Some name; ud_referrer_id := referrerOf payload |} st
    = (Ok user, st1)
    ∧ (st2 = st1 ∨ st2 = (processReferral cfg now (referrerOf payload) userId st1).2)
    ∧ startHandler cfg now userId name payload st
      = (Ok tt, with_trace (trace st2 ++ [Replied userId (Welcome (credits user))]) st2).
Proof.
  destruct (getOrCreateUser_returns now userId
              {| ud_username := Some name; ud_referrer_id := referrerOf payload |} st)
    as [user Hg].
  set (st1 := (getOrCreateUser now userId
                 {| ud_username := Some name; ud_referrer_id := referrerOf payload |}
                 st).2) in *.
  exists user, st1. unfold startHandler, try_catch.
  rewrite (bind_run _ _ _ _ _ Hg).
  destruct (Js.truthy_num (referrerOf payload) && Js.truthy_obj (created_at user)).
  - exists (processReferral cfg now (referrerOf payload) userId st1).2.
    split; [exact Hg|]. split; [by right|].
    destruct (processReferral_returns cfg now (referrerOf payload) userId st1)
      as [b Hp].
    erewrite bind_run;
      [|erewrite bind_run; [|exact Hp]; reflexivity].
    reflexivity.
  - exists st1. split; [exact Hg|]. split; [by left|]. reflexivity.
Qed.

(** A /start changes the balance and the referral count of no account
    except the referrer its payload names: in particular never those of
    the user who sends it, also when the payload names that user.  A
    user without an account gets one with 10 credits, no referrals and
    the payload's referrer recorded.  Conversion records and sessions
    are not touched. *)
Theorem startHandler_touches_only_referrer (cfg : Config) (now userId : Z)
    (name payload : string) (st : State) :
  let st' := (startHandler cfg now userId name payload st).2 in
  (∀ id u,
     users st !! id = Some u →
     referrerOf payload ≠ Some id ∨ id = userId →
     ∃ u', users st' !! id = Some u'
           ∧ credits u' = credits u ∧ referrals u' = referrals u)
  ∧ (users st !! userId = None →
     ∃ u', users st' !! userId = Some u'
           ∧ credits u' = 10 ∧ referrals u' = 0
           ∧ referrer_id u' = referrerOf payload
           ∧ created_at u' = Some now)
  ∧ conversions st' = conversions st
  ∧ sessions st' = sessions st.
Proof.
  cbn zeta.
  destruct (startHandler_run cfg now userId name payload st)
    as (user & st1 & st2 & Hg & Hst2 & ->).
  cbn [snd].
  destruct (processReferral_frame cfg now (referrerOf payload) userId st1)
    as (Hpc & Hps & _ & Hpu).
  assert (conversions st1 = conversions st ∧ sessions st1 = sessions st) as [Hc1 Hs1].
  { pose proof (getOrCreateUser_keeps_conversions now userId
                  {| ud_username := Some name; ud_referrer_id := referrerOf payload |} st).
    pose proof (getOrCreateUser_keeps_sessions now userId
                  {| ud_username := Some name; ud_referrer_id := referrerOf payload |} st).
    by rewrite Hg in *. }
  assert (∀ id, referrerOf payload ≠ Some id ∨ id = userId →
                users st2 !! id = users st1 !! id) as Hu2.
  { intros id Hid. destruct Hst2 as [-> | ->]; [done|by apply Hpu]. }
  assert (conversions st2 = conversions st1 ∧ sessions st2 = sessions st1)
    as [Hc2 Hs2] by (destruct Hst2 as [-> | ->]; done).
  split; [|split; [|split]].
  - intros id u Hu Hid. cbn. rewrite (Hu2 id Hid).
    revert Hg. unfold getOrCreateUser.
    destruct (users st !! userId) as [v|] eqn:Hv; intros [= _ <-]; cbn.
    + destruct (decide (userId = id)) as [->|Hne].
      * rewrite lookup_insert_eq. eexists. split; [done|]. by simplify_eq.
      * rewrite lookup_insert_ne by done. by exists u.
    + rewrite lookup_insert_ne by congruence. by exists u.
  - intros Hnone. cbn. rewrite (Hu2 userId (or_intror eq_refl)).
    revert Hg. unfold getOrCreateUser. rewrite Hnone. intros [= _ <-]. cbn.
    rewrite lookup_insert_eq. by eexists.
  - cbn. by rewrite Hc2, Hc1.
  - cbn. by rewrite Hs2, Hs1.
Qed.

Lemma startHandler_touches_only_referrer_witness :
  let st' := (startHandler sampleConfig 100 1 "ann" "ref_1" (oneUser 1 10)).2 in
  users (oneUser 1 10) !! 1 = Some (sampleUser 1 10)
  ∧ ∃ u', users st' !! 1 = Some u' ∧ credits u' = 10 ∧ referrals u' = 0.
Proof.
  cbn zeta. split; [reflexivity|].
  destruct (startHandler_touches_only_referrer sampleConfig 100 1 "ann" "ref_1"
              (oneUser 1 10)) as (Hsame & _).
  exact (Hsame 1 (sampleUser 1 10) eq_refl (or_intror eq_refl)).
Defined.

Lemma startHandler_new_user_awards (cfg : Config) (now userId r : Z)
    (name digits : string) (st : State) (ref : User) :
  users st !! userId = None →
  Js.parseInt digits = Some r →
  r ≠ 0 → r ≠ userId →
  users st !! r = Some ref →
  let st' := (startHandler cfg now userId name (String.append "ref_" digits) st).2 in
  balance r st' = Some (credits ref + REFERRAL_BONUS cfg)
  ∧ referrals <$> users st' !! r = Some (referrals ref + 1)
  ∧ (∃ u', users st' !! userId = Some u'
           ∧ credits u' = 10 ∧ referrer_id u' = Some r)
  ∧ trace st' = trace st ++ [Replied userId (Welcome 10)].
Proof.
  intros Hnone Hparse Hr0 Hne Href. cbn zeta.
  unfold startHandler, try_catch, bind. rewrite referrerOf_ref, Hparse.
  unfold getOrCreateUser. rewrite Hnone. cbn.
  destruct (Z.eqb_spec r 0) as [|_]; [done|]. cbn.
  unfold processReferral. cbn.
  destruct (Z.eqb_spec r 0) as [|_]; [done|].
  destruct (Z.eqb_spec r userId) as [|_]; [done|]. cbn.
  rewrite lookup_insert_ne by done. rewrite Href. cbn.
  unfold balance. cbn. rewrite lookup_insert_eq. cbn.
  split; [done|]. split; [done|]. split; [|done].
  rewrite lookup_insert_ne by done. rewrite lookup_insert_eq. by eexists.
Qed.


(** The first /start of a user who opens the referral link of another,
    existing account creates the user's account with 10 credits and the
    referrer recorded, gives the referrer REFERRAL_BONUS credits and one
    more referral, and welcomes the user with a balance of 10. *)
Theorem first_start_awards_referrer (cfg : Config) (now userId r : Z)
    (name digits : string) (st : State) (ref : User) :
  users st !! userId = None →
  Js.parseInt digits = Some r →
  r ≠ 0 → r ≠ userId →
  users st !! r = Some ref →
  let st' := (startHandler cfg now userId name (String.append "ref_" digits) st).2 in
  balance r st' = Some (credits ref + REFERRAL_BONUS cfg)
  ∧ referrals <$> users st' !! r = Some (referrals ref + 1)
  ∧ (∃ u', users st' !! userId = Some u'
           ∧ credits u' = 10 ∧ referrer_id u' = Some r)
  ∧ trace st' = trace st ++ [Replied userId (Welcome 10)].
Proof. apply startHandler_new_user_awards. Qed.

Lemma first_start_awards_referrer_witness :
  let st' := (startHandler sampleConfig 100 2 "bob" "ref_1" (oneUser 1 10)).2 in
  users (oneUser 1 10) !! 2 = None
  ∧ balance 1 st' = Some 15
  ∧ trace st' = [Replied 2 (Welcome 10)].
Proof.
  cbn zeta. split; [reflexivity|].
  destruct (first_start_awards_referrer sampleConfig 100 2 1 "bob" "1"
              (oneUser 1 10) (sampleUser 1 10) eq_refl eq_refl
              ltac:(discriminate) ltac:(discriminate) eq_refl)
    as (Hb & _ & _ & Ht).
  split; [exact Hb|exact Ht].
Defined.

(** ** Numbers written and read back *)

Lemma digit_cases (d : Z) :
  0 ≤ d < 10 →
  d = 0 ∨ d = 1 ∨ d = 2 ∨ d = 3 ∨ d = 4 ∨ d = 5 ∨ d = 6 ∨ d = 7 ∨ d = 8 ∨ d = 9.
Proof. lia. Qed.

Lemma digit_of_digitChar (d : Z) :
  0 ≤ d < 10 → Js.digit_of 10 (JsText.digitChar d) = Some d.
Proof.
  intros H. destruct (digit_cases d H) as [->|[->|[->|[->|[->|[->|[->|[->|[->| ->]]]]]]]]];
    reflexivity.
Qed.

Lemma digits_app (acc : option Z) (s1 s2 : string) :
  JsText.allDigits s1 →
  Js.digits 10 acc (String.append s1 s2) = Js.digits 10 (Js.digits 10 acc s1) s2.
Proof.
  revert acc. induction s1 as [|c s1 IH]; intros acc Hall; [done|].
  destruct Hall as [(d & Hd & ->) Hall].
  change (String.append (String (JsText.digitChar d) s1) s2)
    with (String (JsText.digitChar d) (String.append s1 s2)).
  cbn [Js.digits]. rewrite (digit_of_digitChar d Hd). by apply IH.
Qed.

Lemma allDigits_app (s1 s2 : string) :
  JsText.allDigits s1 → JsText.allDigits s2 → JsText.allDigits (String.append s1 s2).
Proof. induction s1 as [|c s1 IH]; cbn; [done|]. intros [Hc H1] H2. split; [done|by apply IH]. Qed.

Lemma digitsOf_allDigits (fuel : nat) (n : Z) :
  0 ≤ n → JsText.allDigits (JsText.digitsOf fuel n).
Proof.
  revert n. induction fuel as [|fuel IH]; intros n Hn; [done|].
  cbn [JsText.digitsOf]. destruct (Z.ltb_spec n 10).
  - split; [|done]. exists n. split; [lia|done].
  - apply allDigits_app.
    + apply IH. apply Z.div_pos; lia.
    + split; [|done]. exists (n mod 10). split; [|done].
      apply Z.mod_pos_bound. lia.
Qed.

Lemma digitsOf_S (fuel : nat) (n : Z) :
  JsText.digitsOf (S fuel) n
  = if n <? 10 then String (JsText.digitChar n) EmptyString
    else String.append (JsText.digitsOf fuel (n / 10))
           (String (JsText.digitChar (n mod 10)) EmptyString).
Proof. reflexivity. Qed.

Lemma digitsOf_read (fuel : nat) (n : Z) :
  0 ≤ n < 10 ^ Z.of_nat (S fuel) →
  Js.digits 10 None (JsText.digitsOf (S fuel) n) = Some n.
Proof.
  revert n. induction fuel as [|fuel IH]; intros n Hn;
    rewrite digitsOf_S; destruct (Z.ltb_spec n 10) as [Hlt|Hge];
    try (cbn [Js.digits]; rewrite (digit_of_digitChar n) by lia; cbn; f_equal; lia).
  - change (10 ^ Z.of_nat 1) with 10 in Hn. lia.
  - rewrite digits_app by (apply digitsOf_allDigits, Z.div_pos; lia).
    rewrite IH.
    + cbn [Js.digits].
      rewrite (digit_of_digitChar (n mod 10)) by (apply Z.mod_pos_bound; lia).
      cbn. f_equal. pose proof (Z.div_mod n 10 ltac:(lia)). lia.
    + split; [apply Z.div_pos; lia|].
      apply Z.div_lt_upper_bound; [lia|].
      rewrite (Nat2Z.inj_succ (S fuel)), Z.pow_succ_r in Hn by lia. lia.
Qed.

Lemma append_nonempty (x : string) (c : ascii) (r : string) :
  String.append x (String c r) ≠ EmptyString.
Proof. by destruct x. Qed.

Lemma digitsOf_nonempty (fuel : nat) (n : Z) :
  0 ≤ n →
  ∃ d rest, 0 ≤ d < 10
            ∧ JsText.digitsOf (S fuel) n = String (JsText.digitChar d) rest
            ∧ JsText.allDigits rest.
Proof.
  intros Hn. pose proof (digitsOf_allDigits (S fuel) n Hn) as Hall.
  destruct (JsText.digitsOf (S fuel) n) as [|c rest] eqn:Hs.
  - rewrite digitsOf_S in Hs. destruct (n <? 10); [done|].
    by apply append_nonempty in Hs.
  - destruct Hall as [(d & Hd & ->) Hrest]. by exists d, rest.
Qed.

Lemma unsigned_of_digits (s : string) (d : Z) (rest : string) :
  0 ≤ d < 10 → JsText.allDigits rest →
  s = String (JsText.digitChar d) rest →
  Js.parseInt s = Js.digits 10 None s ∧ Js.unsigned s = Js.digits 10 None s.
Proof.
  intros Hd Hrest ->.
  assert (Js.startsWith "x" rest = false ∧ Js.startsWith "X" rest = false) as [Hx HX].
  { destruct rest as [|c r]; [done|]. destruct Hrest as [(e & He & ->) _].
    destruct (digit_cases e He) as [->|[->|[->|[->|[->|[->|[->|[->|[->| ->]]]]]]]]];
      done. }
  destruct (digit_cases d Hd) as [->|[->|[->|[->|[->|[->|[->|[->|[->| ->]]]]]]]]];
    (set (c := JsText.digitChar _); vm_compute in c; subst c);
    try (split; reflexivity).
  change (Js.parseInt (String "0" rest))
    with (if Js.startsWith "x" rest || Js.startsWith "X" rest
          then Js.digits 16 None (Js.drop 2 (String "0" rest))
          else Js.digits 10 None (String "0" rest)).
  change (Js.unsigned (String "0" rest))
    with (if Js.startsWith "x" rest || Js.startsWith "X" rest
          then Js.digits 16 None (Js.drop 2 (String "0" rest))
          else Js.digits 10 None (String "0" rest)).
  by rewrite Hx, HX.
Qed.

Lemma log2_fuel (n : Z) : 0 ≤ n → n < 10 ^ Z.of_nat (S (Z.to_nat (Z.log2 n))).
Proof.
  intros Hn. rewrite Nat2Z.inj_succ, Z2Nat.id by apply Z.log2_nonneg.
  destruct (Z.eq_dec n 0) as [->|Hne]; [done|].
  pose proof (Z.log2_spec n ltac:(lia)) as [_ Hup].
  eapply Z.lt_le_trans; [exact Hup|].
  apply Z.pow_le_mono_l. pose proof (Z.log2_nonneg n). lia.
Qed.

(** A number written in decimal is read back by [parseInt]. *)
Lemma parseInt_decimal (n : Z) : Js.parseInt (JsText.decimal n) = Some n.
Proof.
  unfold JsText.decimal. destruct (Z.ltb_spec n 0) as [Hneg|Hpos].
  - destruct (digitsOf_nonempty (Z.to_nat (Z.log2 (- n))) (- n) ltac:(lia))
      as (d & rest & Hd & Hs & Hrest).
    destruct (unsigned_of_digits _ d rest Hd Hrest Hs) as [_ Hu].
    set (s := JsText.digitsOf (S (Z.to_nat (Z.log2 (- n)))) (- n)) in *.
    change (Js.parseInt (String "-" s)) with (Z.opp <$> Js.unsigned s).
    rewrite Hu. subst s.
    rewrite digitsOf_read by (split; [lia|apply log2_fuel; lia]).
    cbn. f_equal. lia.
  - destruct (digitsOf_nonempty (Z.to_nat (Z.log2 n)) n Hpos)
      as (d & rest & Hd & Hs & Hrest).
    destruct (unsigned_of_digits _ d rest Hd Hrest Hs) as [Hp _].
    rewrite Hp. apply digitsOf_read. split; [done|by apply log2_fuel].
Qed.

(** ** /refer and /start *)

Lemma referrerOf_referralParameter (userId : Z) :
  referrerOf (referralParameter userId) = Some userId.
Proof. unfold referralParameter. by rewrite referrerOf_ref, parseInt_decimal. Qed.

Lemma referHandler_run now userId bot st :
  ∃ user,
    getOrCreateUser now userId noUserData st
    = (Ok user, (getOrCreateUser now userId noUserData st).2)
    ∧ referHandler now userId bot st
      = (Ok (ReferralLink bot (referralParameter userId) (referrals user)),
         (getOrCreateUser now userId noUserData st).2).
Proof.
  destruct (getOrCreateUser_returns now userId noUserData st) as [user Hg].
  exists user. split; [exact Hg|].
  unfold referHandler, caught, try_catch. by rewrite (bind_run _ _ _ _ _ Hg).
Qed.

(** The link that /refer hands out is read back by /start as the id of
    the user who asked for it; when a user without an account opens the
    link of another user, that user - who has an account at the latest
    since the /refer - receives REFERRAL_BONUS credits. *)
Theorem referral_link_pays_its_owner (cfg : Config) (now now' owner userId : Z)
    (bot name : string) (st : State) :
  owner ≠ 0 → owner ≠ userId →
  users st !! userId = None →
  referrerOf (referralParameter owner) = Some owner
  ∧ ∃ invited st1 c,
      referHandler now owner bot st
      = (Ok (ReferralLink bot (referralParameter owner) invited), st1)
      ∧ balance owner st1 = Some c
      ∧ balance owner (startHandler cfg now' userId name (referralParameter owner) st1).2
        = Some (c + REFERRAL_BONUS cfg).
Proof.
  intros Hr0 Hne Hnone. split; [apply referrerOf_referralParameter|].
  destruct (referHandler_run now owner bot st) as (user & Hg & Hrun).
  destruct (getOrCreateUser_touches now owner noUserData st) as (v & Hv & _).
  set (st1 := (getOrCreateUser now owner noUserData st).2) in *.
  assert (users st1 !! userId = None) as Hnone1.
  { subst st1. unfold getOrCreateUser.
    destruct (users st !! owner); cbn; by rewrite lookup_insert_ne. }
  exists (referrals user), st1, (credits v).
  split; [exact Hrun|]. split; [unfold balance; by rewrite Hv|].
  destruct (startHandler_new_user_awards cfg now' userId owner name
              (JsText.decimal owner) st1 v Hnone1 (parseInt_decimal owner)
              Hr0 Hne Hv) as (Hb & _).
  exact Hb.
Qed.

Lemma referral_link_pays_its_owner_witness :
  ∃ invited st1 c,
    referHandler 50 1 "converter_bot" emptyState
    = (Ok (ReferralLink "converter_bot" "ref_1" invited), st1)
    ∧ balance 1 st1 = Some c
    ∧ balance 1 (startHandler sampleConfig 100 2 "bob" "ref_1" st1).2
      = Some (c + 5).
Proof.
  destruct (referral_link_pays_its_owner sampleConfig 50 100 1 2 "converter_bot" "bob"
              emptyState ltac:(discriminate) ltac:(discriminate) eq_refl)
    as (_ & invited & st1 & c & H1 & H2 & H3).
  exists invited, st1, c. split; [exact H1|]. split; [exact H2|exact H3].
Defined.

(** ** Administrator *)

(** At most one user id passes [isAdmin]. *)
Theorem isAdmin_singles_out_one_id (adminIdText : option string) (u v : Z) :
  isAdmin adminIdText u = true → isAdmin adminIdText v = true → u = v.
Proof.
  unfold isAdmin. destruct adminIdText as [t|]; [|done].
  rewrite !String.eqb_eq. intros Hu Hv.
  assert (Js.parseInt (JsText.decimal u) = Js.parseInt (JsText.decimal v)) as H
    by (by rewrite Hu, Hv).
  rewrite !parseInt_decimal in H. by injection H.
Qed.

Lemma isAdmin_singles_out_one_id_witness :
  isAdmin (Some "123456789") 123456789 = true
  ∧ isAdmin (Some "123456789") 123456780 ≠ true.
Proof.
  assert (isAdmin (Some "123456789") 123456789 = true) as Hadmin
    by (vm_compute; reflexivity).
  split; [exact Hadmin|]. intros Hother.
  pose proof (isAdmin_singles_out_one_id (Some "123456789") 123456789 123456780
                Hadmin Hother) as Heq.
  discriminate Heq.
Defined.

(** A user who is not the administrator gets "permission denied" from
    /stats, /addcredits and /reset, whatever the text of the command,
    and nothing at all is written. *)
Theorem admin_commands_need_admin (cfg : Config) (adminId : option Z)
    (now userId : Z) (text : string) (st : State) :
  adminId ≠ Some userId →
  statsHandler cfg adminId now userId st = (Ok PermissionDenied, st)
  ∧ addCreditsHandler adminId now userId text st = (Ok PermissionDenied, st)
  ∧ resetHandler adminId now userId text st = (Ok PermissionDenied, st).
Proof.
  intros Hne.
  assert (notAdmin adminId userId = true) as Hdenied
    by (unfold notAdmin; by rewrite bool_decide_eq_false_2).
  unfold statsHandler, addCreditsHandler, resetHandler, caught, try_catch.
  by rewrite Hdenied.
Qed.

Lemma admin_commands_need_admin_witness :
  addCreditsHandler (Some 99) 10 1 "/addcredits 1 1000" (oneUser 1 3)
  = (Ok PermissionDenied, oneUser 1 3).
Proof.
  exact (proj1 (proj2 (admin_commands_need_admin sampleConfig (Some 99) 10 1 "/addcredits 1 1000"
                         (oneUser 1 3) ltac:(discriminate)))).
Defined.

(** ** The text of the administrator's commands *)

Lemma split_word (w rest : string) :
  JsText.noSpace w →
  JsText.split " " (String.append w (String " " rest)) = w :: JsText.split " " rest.
Proof.
  induction w as [|c w IH]; intros Hw; [done|].
  destruct Hw as [Hc Hw].
  change (String.append (String c w) (String " " rest))
    with (String c (String.append w (String " " rest))).
  cbn [JsText.split]. rewrite (proj2 (Ascii.eqb_neq c " ") Hc).
  by rewrite (IH Hw).
Qed.

Lemma split_single (w : string) :
  JsText.noSpace w → JsText.split " " w = [w].
Proof.
  induction w as [|c w IH]; intros Hw; [done|].
  destruct Hw as [Hc Hw]. cbn [JsText.split].
  rewrite (proj2 (Ascii.eqb_neq c " ") Hc). by rewrite (IH Hw).
Qed.

Lemma allDigits_noSpace (s : string) : JsText.allDigits s → JsText.noSpace s.
Proof.
  induction s as [|c s IH]; [done|]. intros [(d & Hd & ->) Hs]. split; [|by apply IH].
  destruct (digit_cases d Hd) as [->|[->|[->|[->|[->|[->|[->|[->|[->| ->]]]]]]]]];
    done.
Qed.

Lemma decimal_noSpace (n : Z) : JsText.noSpace (JsText.decimal n).
Proof.
  unfold JsText.decimal. destruct (Z.ltb_spec n 0).
  - split; [done|]. apply allDigits_noSpace, digitsOf_allDigits. lia.
  - by apply allDigits_noSpace, digitsOf_allDigits.
Qed.

Lemma caught_Ok (m : M CommandReply) answer st r st' :
  m st = (Ok r, st') → caught m answer st = (Ok r, st').
Proof. unfold caught, try_catch. by intros ->. Qed.

Lemma caught_Throw (m : M CommandReply) answer st e st' :
  m st = (Throw e, st') →
  caught m answer st
  = (Ok (answer e), with_trace (trace st' ++ [ConsoleError e]) st').
Proof. unfold caught, try_catch. by intros ->. Qed.

Lemma addCredits_text (target amount : Z) :
  JsText.split " "
    (String.append "/addcredits"
       (String " " (String.append (JsText.decimal target)
                      (String " " (JsText.decimal amount)))))
  = ["/addcredits"; JsText.decimal target; JsText.decimal amount].
Proof.
  rewrite split_word by (repeat split; discriminate).
  rewrite split_word by apply decimal_noSpace.
  by rewrite split_single by apply decimal_noSpace.
Qed.

(** For the administrator, the command "/addcredits <id> <amount>" with
    the two numbers in decimal is [updateCredits id amount]: an account
    with enough credits gets its new balance stored and reported; for a
    missing account or a balance that would fall below zero the answer
    names the error, the error is logged and no account changes.  A
    command that does not have exactly three parts is answered with the
    usage line and writes nothing. *)
Theorem addCredits_command (adminId : option Z) (now userId target amount : Z)
    (st : State) :
  adminId = Some userId →
  let text :=
    String.append "/addcredits"
      (String " " (String.append (JsText.decimal target)
                     (String " " (JsText.decimal amount)))) in
  match users st !! target with
  | None =>
      addCreditsHandler adminId now userId text st
      = (Ok (ErrorMessage UserNotFound),
         with_trace (trace st ++ [ConsoleError UserNotFound]) st)
  | Some u =>
      if decide (credits u + amount < 0)
      then addCreditsHandler adminId now userId text st
           = (Ok (ErrorMessage InsufficientCredits),
              with_trace (trace st ++ [ConsoleError InsufficientCredits]) st)
      else ∃ st',
          addCreditsHandler adminId now userId text st
          = (Ok (CreditsUpdated target (credits u + amount)), st')
          ∧ balance target st' = Some (credits u + amount)
          ∧ ∀ other, other ≠ target → users st' !! other = users st !! other
  end
  ∧ ∀ text',
      length (JsText.split " " text') ≠ 3%nat →
      addCreditsHandler adminId now userId text' st = (Ok AddCreditsUsage, st).
Proof.
  intros Hadmin. cbn zeta.
  assert (notAdmin adminId userId = false) as Hallowed
    by (unfold notAdmin; by rewrite bool_decide_eq_true_2).
  split.
  - unfold addCreditsHandler. rewrite Hallowed, addCredits_text, !parseInt_decimal.
    destruct (users st !! target) as [u|] eqn:Hu.
    + case_decide as Hneg.
      * apply caught_Throw. erewrite bind_run_throw; [reflexivity|].
        by apply (updateCredits_rejected _ _ _ _ u).
      * eexists. split.
        -- apply caught_Ok. erewrite bind_run; [reflexivity|].
           apply (updateCredits_accepted _ _ _ _ u); [done|lia].
        -- unfold balance. cbn. rewrite lookup_insert_eq. split; [done|].
           intros other Hne. by rewrite lookup_insert_ne.
    + apply caught_Throw. erewrite bind_run_throw; [reflexivity|].
      by apply updateCredits_missing.
  - intros text' Hlen. unfold addCreditsHandler. rewrite Hallowed.
    apply caught_Ok.
    destruct (JsText.split " " text') as [|a [|b [|c [|d l]]]]; try done.
Qed.

Lemma addCredits_command_witness :
  ∃ st', addCreditsHandler (Some 99) 10 99 "/addcredits 1 -2" (oneUser 1 3)
         = (Ok (CreditsUpdated 1 1), st')
         ∧ balance 1 st' = Some 1.
Proof.
  destruct (addCredits_command (Some 99) 10 99 1 (-2) (oneUser 1 3) eq_refl)
    as [Hrun _].
  change (users (oneUser 1 3) !! 1) with (Some (sampleUser 1 3)) in Hrun.
  cbv beta iota in Hrun.
  rewrite decide_False in Hrun by (vm_compute; discriminate).
  destruct Hrun as (st' & Hrun & Hb & _).
  exists st'. split; [exact Hrun|exact Hb].
Defined.

Lemma reset_text (target : Z) :
  JsText.split " " (String.append "/reset" (String " " (JsText.decimal target)))
  = ["/reset"; JsText.decimal target].
Proof.
  rewrite split_word by (repeat split; discriminate).
  by rewrite split_single by apply decimal_noSpace.
Qed.

(** For the administrator, the command "/reset <id>" resets the account
    with that id to 10 credits, no referrals and no usage and says so;
    for an id without an account it answers "not found" and writes
    nothing. *)
Theorem reset_command (adminId : option Z) (now userId target : Z) (st : State) :
  adminId = Some userId →
  let text := String.append "/reset" (String " " (JsText.decimal target)) in
  match users st !! target with
  | None => resetHandler adminId now userId text st = (Ok (ResetNotFound target), st)
  | Some u =>
      ∃ u' st',
        resetHandler adminId now userId text st = (Ok (ResetDone target), st')
        ∧ users st' = <[target := u']> (users st)
        ∧ credits u' = 10 ∧ referrals u' = 0 ∧ usage_count u' = 0
        ∧ referrer_id u' = referrer_id u
        ∧ conversions st' = conversions st
  end.
Proof.
  intros Hadmin. cbn zeta.
  assert (notAdmin adminId userId = false) as Hallowed
    by (unfold notAdmin; by rewrite bool_decide_eq_true_2).
  unfold resetHandler. rewrite Hallowed, reset_text, parseInt_decimal.
  destruct (users st !! target) as [u|] eqn:Hu.
  - eexists _, _. split.
    + apply caught_Ok.
      erewrite bind_run; [|unfold resetUser; rewrite Hu; reflexivity].
      reflexivity.
    + cbn. done.
  - apply caught_Ok.
    erewrite bind_run; [|unfold resetUser; rewrite Hu; reflexivity].
    reflexivity.
Qed.

Lemma reset_command_witness :
  resetHandler (Some 99) 10 99 "/reset 5" (oneUser 1 3)
  = (Ok (ResetNotFound 5), oneUser 1 3).
Proof.
  exact (reset_command (Some 99) 10 99 5 (oneUser 1 3) eq_refl).
Defined.

(** ** helpers: time differences *)

Lemma floor_bounds (diff m : Z) :
  0 < m → m * (diff / m) ≤ diff < m * (diff / m + 1).
Proof.
  intros Hm. split; [by apply Z.mul_div_le|].
  pose proof (Z.mul_succ_div_gt diff m Hm). lia.
Qed.

(** [getTimeDifference] names the coarsest unit (day, hour, minute,
    second) of which the time passed holds at least one, with the
    number of whole units rounded down, and writes the unit in the
    plural unless that number is 1 ("0 seconds ago", "1 minute ago").
    For a date in the future it answers with a negative number of
    seconds. *)
Theorem getTimeDifference_rounds_down (now date : Z) :
  ∃ count unit,
    getTimeDifference now date = ago count (unitName unit) (negb (count =? 1))
    ∧ (0 ≤ now - date →
       unitMs unit * count ≤ now - date < unitMs unit * (count + 1)
       ∧ (unit = Seconds ∨ 1 ≤ count)
       ∧ ∀ c, coarser unit = Some c → now - date < unitMs c)
    ∧ (now - date < 0 → unit = Seconds ∧ count < 0).
Proof.
  unfold getTimeDifference. cbn zeta.
  set (diff := now - date).
  assert (diff / 1000 / 60 = diff / 60000) as Hm
    by (rewrite Z.div_div by lia; done).
  assert (diff / 1000 / 60 / 60 = diff / 3600000) as Hh
    by (rewrite !Z.div_div by lia; done).
  assert (diff / 1000 / 60 / 60 / 24 = diff / 86400000) as Hd
    by (rewrite !Z.div_div by lia; done).
  rewrite Hd, Hh, Hm.
  pose proof (floor_bounds diff 1000 ltac:(lia)) as Bs.
  pose proof (floor_bounds diff 60000 ltac:(lia)) as Bm.
  pose proof (floor_bounds diff 3600000 ltac:(lia)) as Bh.
  pose proof (floor_bounds diff 86400000 ltac:(lia)) as Bd.
  assert (∀ c, 0 < c → (1 <? c) = negb (c =? 1)) as Hplural.
  { intros c Hc. destruct (Z.ltb_spec 1 c), (Z.eqb_spec c 1); cbn; lia. }
  destruct (Z.ltb_spec 0 (diff / 86400000)) as [Hdays|Hdays].
  { exists (diff / 86400000), Days. rewrite Hplural by done.
    split; [done|]. split; [|lia]. intros _. split; [exact Bd|].
    split; [right; lia|]. intros c [=]. }
  destruct (Z.ltb_spec 0 (diff / 3600000)) as [Hhours|Hhours].
  { exists (diff / 3600000), Hours. rewrite Hplural by done.
    split; [done|]. split; [|lia]. intros _. split; [exact Bh|].
    split; [right; lia|]. intros c [= <-]. cbn. lia. }
  destruct (Z.ltb_spec 0 (diff / 60000)) as [Hmins|Hmins].
  { exists (diff / 60000), Minutes. rewrite Hplural by done.
    split; [done|]. split; [|lia]. intros _. split; [exact Bm|].
    split; [right; lia|]. intros c [= <-]. cbn. lia. }
  exists (diff / 1000), Seconds.
  split; [done|]. split.
  - intros _. split; [exact Bs|]. split; [by left|].
    intros c [= <-]. cbn. lia.
  - intros Hneg. split; [done|]. lia.
Qed.

Lemma getTimeDifference_rounds_down_witness :
  getTimeDifference 5400000 0 = "1 hour ago"
  ∧ getTimeDifference 59999 0 = "59 seconds ago"
  ∧ ∃ count unit,
      getTimeDifference 5400000 0 = ago count (unitName unit) (negb (count =? 1))
      ∧ unitMs unit * count ≤ 5400000 - 0 < unitMs unit * (count + 1).
Proof.
  split; [vm_compute; reflexivity|]. split; [vm_compute; reflexivity|].
  destruct (getTimeDifference_rounds_down 5400000 0)
    as (count & unit & Htext & Hpast & _).
  exists count, unit. split; [exact Htext|].
  exact (proj1 (Hpast ltac:(vm_compute; discriminate))).
Defined.

(** ** helpers: random strings *)

Lemma string_length_append (a b : string) :
  String.length (String.append a b) = (String.length a + String.length b)%nat.
Proof.
  induction a as [|c a IH]; [done|].
  change (String.append (String c a) b) with (String c (String.append a b)).
  cbn. f_equal. exact IH.
Qed.

Lemma chars_append (a b : string) :
  list_ascii_of_string (String.append a b)
  = list_ascii_of_string a ++ list_ascii_of_string b.
Proof.
  induction a as [|c a IH]; [done|].
  change (String.append (String c a) b) with (String c (String.append a b)).
  cbn. f_equal. exact IH.
Qed.

Lemma charAt_characters (j : nat) :
  (j < 62)%nat →
  ∃ c, charAt characters j = String c EmptyString
       ∧ c ∈ list_ascii_of_string characters.
Proof.
  intros Hj. unfold charAt.
  do 62 (destruct j as [|j];
         [eexists; split; [reflexivity|];
          cbn; repeat (first [apply list_elem_of_here | apply list_elem_of_further])|]).
  lia.
Qed.

Lemma randomLoop_spec (random : nat → nat) (rounds i : nat) (result : string) :
  (∀ k, random k < 62)%nat →
  Forall (fun c => c ∈ list_ascii_of_string characters) (list_ascii_of_string result) →
  String.length (randomLoop random i rounds result)
  = (String.length result + rounds)%nat
  ∧ Forall (fun c => c ∈ list_ascii_of_string characters)
      (list_ascii_of_string (randomLoop random i rounds result)).
Proof.
  intros Hrandom. revert i result.
  induction rounds as [|rounds IH]; intros i result Hres; cbn [randomLoop].
  - split; [lia|done].
  - destruct (charAt_characters (random i) (Hrandom i)) as (c & Hc & Hin).
    destruct (IH (S i) (String.append result (charAt characters (random i)))) as [Hl Ha].
    + rewrite chars_append, Hc. apply Forall_app. split; [done|].
      cbn. by constructor.
    + split; [|exact Ha]. rewrite Hl, string_length_append, Hc. cbn. lia.
Qed.

(** [generateRandomString(length)] returns exactly [length] characters
    (none for a length that is not positive), each of them one of the
    62 letters and digits. *)
Theorem generateRandomString_shape (random : nat → nat) (length : Z) :
  (∀ k, random k < 62)%nat →
  String.length (generateRandomString random length) = Z.to_nat length
  ∧ Forall (fun c => c ∈ list_ascii_of_string characters)
      (list_ascii_of_string (generateRandomString random length)).
Proof.
  intros Hrandom. unfold generateRandomString.
  destruct (randomLoop_spec random (Z.to_nat length) 0 EmptyString Hrandom) as [Hl Ha].
  - by constructor.
  - split; [exact Hl|exact Ha].
Qed.

Lemma generateRandomString_shape_witness :
  generateRandomString (fun k => (7 * k) mod 62)%nat 4 = "AHOV"
  ∧ String.length (generateRandomString (fun k => (7 * k) mod 62)%nat 4) = 4%nat.
Proof.
  split; [vm_compute; reflexivity|].
  exact (proj1 (generateRandomString_shape (fun k => (7 * k) mod 62)%nat 4
                  ltac:(intros k; apply Nat.mod_upper_bound; discriminate))).
Defined.

(** ** Properties kept by every bot event *)

Lemma preserves_ret {A} (I : State → Prop) (a : A) : preserves I (ret a).
Proof. by intros st. Qed.

Lemma preserves_throw {A} (I : State → Prop) (e : Error) :
  preserves I (throw (A := A) e).
Proof. by intros st. Qed.

Lemma preserves_get (I : State → Prop) : preserves I get.
Proof. by intros st. Qed.

Lemma preserves_bind {A B} (I : State → Prop) (m : M A) (k : A → M B) :
  preserves I m → (∀ a, preserves I (k a)) → preserves I (bind m k).
Proof.
  intros Hm Hk st HI. unfold bind. specialize (Hm st HI).
  destruct (m st) as [[a|e] st1]; cbn in *; [|done].
  by apply Hk.
Qed.

Lemma preserves_try_catch {A} (I : State → Prop) (m : M A) (h : Error → M A) :
  preserves I m → (∀ e, preserves I (h e)) → preserves I (try_catch m h).
Proof.
  intros Hm Hh st HI. unfold try_catch. specialize (Hm st HI).
  destruct (m st) as [[a|e] st1]; cbn in *; [done|].
  by apply Hh.
Qed.

Lemma preserves_forget {A} (I : State → Prop) (m : M A) :
  preserves I m → preserves I (forget m).
Proof. intros Hm. apply preserves_bind; [done|]. intros _. apply preserves_ret. Qed.

Section Stable.
Variable cfg : Config.
Variable I : State → Prop.
Hypothesis I_stable : stable cfg I.

Lemma preserves_emit (e : Event) : preserves I (emit e).
Proof using I_stable. intros st HI. by apply I_stable. Qed.

Lemma preserves_reply (userId : Z) (r : Reply) : preserves I (reply userId r).
Proof using I_stable. apply preserves_emit. Qed.

Lemma preserves_onError (userId : Z) (r : Reply) (e : Error) :
  preserves I (onError userId r e).
Proof using I_stable.
  apply preserves_bind; [apply preserves_emit|]. intros _. apply preserves_reply.
Qed.

Lemma preserves_caught (m : M CommandReply) (answer : Error → CommandReply) :
  preserves I m → preserves I (caught m answer).
Proof using I_stable.
  intros Hm. apply preserves_try_catch; [done|]. intros e.
  apply preserves_bind; [apply preserves_emit|]. intros _. apply preserves_ret.
Qed.

Lemma preserves_getOrCreateUser now userId userData :
  preserves I (getOrCreateUser now userId userData).
Proof using I_stable. apply I_stable. Qed.

Lemma preserves_updateCredits now userId amount :
  preserves I (updateCredits now userId amount).
Proof using I_stable. apply I_stable. Qed.

Lemma preserves_external (ok : bool) : preserves I (external ok).
Proof using I_stable. destruct ok; [apply preserves_ret|apply preserves_throw]. Qed.

Lemma preserves_attachment (a : option string) : preserves I (attachment a).
Proof using I_stable. destruct a; [apply preserves_ret|apply preserves_throw]. Qed.

Lemma preserves_acceptUpload now userId fileType media :
  preserves I (acceptUpload cfg now userId fileType media).
Proof using I_stable.
  unfold acceptUpload.
  apply preserves_bind; [apply preserves_getOrCreateUser|]. intros user.
  destruct (credits user <? CREDIT_PER_CONVERSION cfg); [apply preserves_reply|].
  apply preserves_bind;
    [intros st HI; unfold checkDailyLimit; by destruct (users st !! userId)|].
  intros limited.
  destruct limited; [apply preserves_reply|].
  destruct (negb (isFileSizeValid cfg (media_file_size media)));
    [apply preserves_reply|].
  apply preserves_bind; [|intros _; apply preserves_reply].
  intros st HI. by apply I_stable.
Qed.

Lemma preserves_downloadFile ext fileId : preserves I (downloadFile ext fileId).
Proof using I_stable.
  unfold downloadFile. destruct (fetchFile ext fileId); [apply preserves_ret|].
  apply preserves_bind; [apply preserves_emit|]. intros _. apply preserves_throw.
Qed.

Lemma preserves_convertFile ext info path format :
  preserves I (convertFile ext info path format).
Proof using I_stable.
  unfold convertFile, convertVideo, convertAudio.
  destruct (fileType info).
  - destruct (ffmpegRun ext _); [apply preserves_ret|].
    apply preserves_bind; [apply preserves_emit|]. intros _. apply preserves_throw.
  - destruct (audioCommand path format) as [command|]; [|apply preserves_throw].
    destruct (ffmpegRun ext _); [apply preserves_ret|].
    apply preserves_bind; [apply preserves_emit|]. intros _. apply preserves_throw.
Qed.

Lemma preserves_upload ext now path caption :
  preserves I (uploadToStorageChannel cfg ext now path caption).
Proof using I_stable.
  unfold uploadToStorageChannel.
  destruct (sendToChannel ext _ _ _) as [message|].
  - apply preserves_bind; [apply I_stable|]. intros _. apply preserves_ret.
  - apply preserves_bind; [apply preserves_emit|]. intros _. apply preserves_throw.
Qed.

Lemma preserves_deliver ext now userId info format message :
  preserves I (deliver ext now userId info format message).
Proof using I_stable.
  unfold deliver.
  destruct (fileType info); [destruct (negb (String.eqb format "mp3"))|];
    (apply preserves_bind; [apply preserves_attachment|]; intros f;
     apply preserves_bind; [apply preserves_updateCredits|]; intros remaining;
     apply preserves_bind; [apply preserves_external|]; intros _;
     apply preserves_reply).
Qed.

Lemma preserves_pipeline ext now userId format info :
  preserves I (pipeline cfg ext now userId format info).
Proof using I_stable.
  unfold pipeline.
  apply preserves_bind; [apply preserves_reply|]. intros _.
  apply preserves_bind; [apply preserves_downloadFile|]. intros downloaded.
  apply preserves_bind; [apply preserves_convertFile|]. intros converted.
  apply preserves_bind; [apply preserves_upload|]. intros message.
  apply preserves_bind; [apply preserves_updateCredits|]. intros _.
  apply preserves_bind; [apply I_stable|]. intros _.
  apply preserves_bind; [apply I_stable|]. intros _.
  apply preserves_bind; [apply preserves_external|]. intros _.
  apply preserves_bind; [apply preserves_deliver|]. intros _.
  apply preserves_bind; [apply preserves_emit|]. intros _.
  intros st HI. by apply I_stable.
Qed.

Lemma preserves_convertHandler ext now userId format :
  preserves I (convertHandler cfg ext now userId format).
Proof using I_stable.
  unfold convertHandler.
  apply preserves_try_catch; [|intros e; apply preserves_onError].
  apply preserves_bind; [apply preserves_getOrCreateUser|]. intros user.
  apply preserves_bind; [apply preserves_get|]. intros st0.
  destruct (sessions st0 !! userId) as [info|];
    [apply preserves_pipeline|apply preserves_reply].
Qed.

Lemma preserves_startHandler now userId userName payload :
  preserves I (startHandler cfg now userId userName payload).
Proof using I_stable.
  unfold startHandler.
  apply preserves_try_catch; [|intros e; apply preserves_onError].
  apply preserves_bind; [apply preserves_getOrCreateUser|]. intros user.
  apply preserves_bind; [|intros _; apply preserves_reply].
  destruct (_ && _); [|apply preserves_ret].
  apply preserves_bind; [apply I_stable|]. intros _. apply preserves_ret.
Qed.

Lemma preserves_adminCommands adminId now userId text :
  preserves I (statsHandler cfg adminId now userId)
  ∧ preserves I (addCreditsHandler adminId now userId text)
  ∧ preserves I (resetHandler adminId now userId text).
Proof using I_stable.
  unfold statsHandler, addCreditsHandler, resetHandler.
  repeat split; apply preserves_caught;
    (destruct (notAdmin adminId userId); [apply preserves_ret|]).
  - apply preserves_bind; [by intros st|]. intros stats. apply preserves_ret.
  - destruct (JsText.split " " text) as [|w0 [|w1 [|w2 [|w3 ws]]]];
      try apply preserves_ret.
    destruct (Js.parseInt w1) as [target|]; [|apply preserves_ret].
    destruct (Js.parseInt w2) as [amount|]; [|apply preserves_ret].
    apply preserves_bind; [apply preserves_updateCredits|]. intros b.
    apply preserves_ret.
  - destruct (JsText.split " " text) as [|w0 [|w1 [|w2 ws]]];
      try apply preserves_ret.
    destruct (Js.parseInt w1) as [target|]; [|apply preserves_ret].
    apply preserves_bind; [apply I_stable|]. intros b. apply preserves_ret.
Qed.

Lemma preserves_dispatch adminId ev : preserves I (dispatch cfg adminId ev).
Proof using I_stable.
  destruct ev; cbn [dispatch].
  - apply preserves_startHandler.
  - apply preserves_forget, preserves_ret.
  - apply preserves_forget, preserves_ret.
  - apply preserves_forget, preserves_caught.
    apply preserves_bind; [apply preserves_getOrCreateUser|]. intros u.
    apply preserves_ret.
  - apply preserves_forget, preserves_caught.
    apply preserves_bind; [apply preserves_getOrCreateUser|]. intros u.
    apply preserves_ret.
  - apply preserves_forget, (preserves_adminCommands adminId now userId "").
  - apply preserves_forget, (preserves_adminCommands adminId now userId text).
  - apply preserves_forget, (preserves_adminCommands adminId now userId text).
  - apply preserves_try_catch; [apply preserves_acceptUpload|].
    intros e. apply preserves_onError.
  - apply preserves_try_catch; [apply preserves_acceptUpload|].
    intros e. apply preserves_onError.
  - apply preserves_try_catch; [|intros e; apply preserves_onError].
    destruct (Js.startsWith "video/" _); [apply preserves_acceptUpload|].
    destruct (Js.startsWith "audio/" _); [apply preserves_acceptUpload|].
    apply preserves_reply.
  - apply preserves_convertHandler.
  - apply preserves_try_catch; [|intros e; apply preserves_emit].
    apply preserves_bind; [apply I_stable|]. intros _. apply preserves_ret.
Qed.

Lemma preserves_runBot adminId evs st : I st → I (runBot cfg adminId evs st).
Proof using I_stable.
  revert st. induction evs as [|ev evs IH]; intros st HI; cbn; [done|].
  apply IH. by apply preserves_dispatch.
Qed.

End Stable.

Lemma users_only_stable (cfg : Config) (I : State → Prop) :
  (∀ st st', users st' = users st → I st → I st') →
  (∀ now userId userData, preserves I (getOrCreateUser now userId userData)) →
  (∀ now userId amount, preserves I (updateCredits now userId amount)) →
  (∀ now referrerId newUserId,
     preserves I (processReferral cfg now referrerId newUserId)) →
  (∀ now userId, preserves I (resetUser now userId)) →
  (∀ userId, preserves I (incrementUsage userId)) →
  stable cfg I.
Proof.
  intros Husers H1 H2 H3 H4 H5. unfold stable.
  repeat split; try done.
  - intros t st. by apply Husers.
  - intros m st. by apply Husers.
  - intros now message st. by apply Husers.
  - intros now userId info message format st. by apply Husers.
  - intros ext now st. apply Husers. apply (cleanupOldFiles_rest ext now st).
Qed.

Lemma ledgerOk_stable (cfg : Config) :
  0 ≤ REFERRAL_BONUS cfg → stable cfg ledgerOk.
Proof.
  intros Hb. apply users_only_stable.
  - intros st st' Heq Hok id u. rewrite Heq. apply Hok.
  - intros now id ud st. apply (applyOp_ledgerOk cfg Hb (OpCreate now id ud)).
  - intros now id amount st. apply (applyOp_ledgerOk cfg Hb (OpUpdate now id amount)).
  - intros now r n st. apply (applyOp_ledgerOk cfg Hb (OpReferral now r n)).
  - intros now id st. apply (applyOp_ledgerOk cfg Hb (OpReset now id)).
  - intros id st Hok. unfold incrementUsage.
    destruct (users st !! id) as [u|] eqn:Hu; cbn; [|done].
    apply ledgerOk_insert; [done|]. cbn. by apply (Hok id).
Qed.

Lemma accountsOk_insert (st : State) (id : Z) (u : User) :
  accountsOk st → user_id u = id → is_Some (created_at u) →
  accountsOk (with_users (<[id := u]> (users st)) st).
Proof.
  intros Hok Hid Hc id' v. cbn. rewrite lookup_insert.
  case_decide; [intros [= <-]; by subst | apply Hok].
Qed.

Lemma accountsOk_stable (cfg : Config) : stable cfg accountsOk.
Proof.
  apply users_only_stable.
  - intros st st' Heq Hok id u. rewrite Heq. apply Hok.
  - intros now id ud st Hok. unfold getOrCreateUser.
    destruct (users st !! id) as [u|] eqn:Hu; cbn.
    + apply accountsOk_insert; [done| |]; cbn; by apply (Hok id).
    + by apply accountsOk_insert.
  - intros now id amount st Hok. unfold updateCredits.
    destruct (users st !! id) as [u|] eqn:Hu; cbn; [|done].
    destruct (credits u + amount <? 0); cbn; [done|].
    apply accountsOk_insert; [done| |]; cbn; by apply (Hok id).
  - intros now r n st Hok. unfold processReferral. destruct r as [r|]; [|done].
    destruct ((r =? 0) || (r =? n)); [done|].
    destruct (users st !! r) as [u|] eqn:Hu; cbn; [|done].
    apply accountsOk_insert; [done| |]; cbn; by apply (Hok r).
  - intros now id st Hok. unfold resetUser.
    destruct (users st !! id) as [u|] eqn:Hu; cbn; [|done].
    apply accountsOk_insert; [done| |]; cbn; by apply (Hok id).
  - intros id st Hok. unfold incrementUsage.
    destruct (users st !! id) as [u|] eqn:Hu; cbn; [|done].
    apply accountsOk_insert; [done| |]; cbn; by apply (Hok id).
Qed.

Lemma docsOk_conversions (st st' : State) :
  conversions st' = conversions st → docsOk st → docsOk st'.
Proof. intros Heq Hok i d. rewrite Heq. apply Hok. Qed.

Lemma docsOk_addDoc (d : ConvDoc) (st : State) :
  stageShaped d ∨ usageShaped d → docsOk st → docsOk (addDoc d st).
Proof.
  intros Hd Hok i d'. unfold addDoc; cbn. rewrite lookup_insert.
  case_decide; [intros [= <-]; done | apply Hok].
Qed.

Lemma docsOk_stable (cfg : Config) : stable cfg docsOk.
Proof.
  unfold stable. repeat split.
  - intros t st. by apply docsOk_conversions.
  - intros m st. by apply docsOk_conversions.
  - intros now id ud st. apply docsOk_conversions. unfold getOrCreateUser.
    by destruct (users st !! id).
  - intros now id amount st. apply docsOk_conversions. unfold updateCredits.
    destruct (users st !! id) as [u|]; [|done].
    by destruct (credits u + amount <? 0).
  - intros now r n st. apply docsOk_conversions. unfold processReferral.
    destruct r as [r|]; [|done]. destruct ((r =? 0) || (r =? n)); [done|].
    by destruct (users st !! r).
  - intros now id st. apply docsOk_conversions. unfold resetUser.
    by destruct (users st !! id).
  - intros id st. apply docsOk_conversions. unfold incrementUsage.
    by destruct (users st !! id).
  - intros now message st. apply docsOk_addDoc. left. by split.
  - intros now id info message format st. apply docsOk_addDoc. right. by split.
  - intros ext now st Hok i d. rewrite cleanupOldFiles_conversions.
    intros [Hi _]%map_lookup_filter_Some. by apply (Hok i).
Qed.

Lemma sweep_keeps_counts ext now st today userId :
  docsOk st →
  countSince today userId (cleanupOldFiles ext now st).2
  = countSince today userId st.
Proof.
  intros Hok. unfold countSince, todayConversions. f_equal.
  rewrite cleanupOldFiles_conversions.
  apply map_eq. intros i. apply option_eq. intros d.
  rewrite !map_lookup_filter_Some. cbn.
  split; [tauto|]. intros [Hi Hd]. repeat split; try done.
  unfold isTodayConversionOf in Hd. unfold isExpired.
  destruct (Hok i d Hi) as [[Hu _]|[_ He]].
  - by rewrite Hu in Hd.
  - by rewrite He.
Qed.

Lemma emptyState_ok : ledgerOk emptyState ∧ accountsOk emptyState ∧ docsOk emptyState.
Proof. split; [|split]; intros i d; cbn; by rewrite lookup_empty. Qed.

(** No event of the bot (a command, an upload, a format selection, the
    hourly cleanup job), in any order and with any answers of Telegram
    and ffmpeg, leaves an account with a negative balance, when the
    referral bonus is not negative. *)
Theorem bot_balances_never_negative (cfg : Config) (adminId : option Z)
    (evs : list BotEvent) (st : State) :
  0 ≤ REFERRAL_BONUS cfg → ledgerOk st →
  ledgerOk (runBot cfg adminId evs st).
Proof.
  intros Hb Hok. by apply (preserves_runBot cfg ledgerOk (ledgerOk_stable cfg Hb)).
Qed.

Lemma bot_balances_never_negative_witness :
  0 ≤ REFERRAL_BONUS sampleConfig
  ∧ ledgerOk emptyState
  ∧ ledgerOk (runBot sampleConfig (Some 9) sampleEvents emptyState).
Proof.
  assert (H1 : 0 ≤ REFERRAL_BONUS sampleConfig) by (vm_compute; discriminate).
  assert (H2 : ledgerOk emptyState) by apply emptyState_ok.
  split; [done|]. split; [done|].
  exact (bot_balances_never_negative sampleConfig (Some 9) sampleEvents emptyState H1 H2).
Defined.

(** Whatever the bot has handled, every account is stored under its own
    id and carries a creation time: no handler stores an account under
    another id or drops [created_at]. *)
Theorem bot_accounts_carry_id_and_creation_time (cfg : Config) (adminId : option Z)
    (evs : list BotEvent) (st : State) :
  accountsOk st → accountsOk (runBot cfg adminId evs st).
Proof.
  intros Hok. by apply (preserves_runBot cfg accountsOk (accountsOk_stable cfg)).
Qed.

Lemma bot_accounts_carry_id_and_creation_time_witness :
  accountsOk emptyState
  ∧ accountsOk (runBot sampleConfig (Some 9) sampleEvents emptyState).
Proof.
  assert (H : accountsOk emptyState) by apply emptyState_ok.
  split; [done|].
  exact (bot_accounts_carry_id_and_creation_time sampleConfig (Some 9)
           sampleEvents emptyState H).
Defined.

(** Every conversion document the bot writes is either a stage record
    (an expiry time, no user) or a usage record (a user, no expiry
    time); so the cleanup job, whenever it runs, changes no user's count
    of conversions since any day start. *)
Theorem cleanup_job_never_changes_daily_counts (cfg : Config) (adminId : option Z)
    (evs : list BotEvent) (st : State) :
  docsOk st →
  docsOk (runBot cfg adminId evs st)
  ∧ ∀ ext now today userId,
      countSince today userId
        (runBot cfg adminId (evs ++ [OnCleanupJob ext now]) st)
      = countSince today userId (runBot cfg adminId evs st).
Proof.
  intros Hok.
  pose proof (preserves_runBot cfg docsOk (docsOk_stable cfg) adminId evs st Hok)
    as Hafter.
  split; [done|]. intros ext now today userId.
  unfold runBot. rewrite foldl_app. cbn [foldl dispatch].
  fold (runBot cfg adminId evs st). unfold cleanupJob, try_catch, bind.
  pose proof (sweep_keeps_counts ext now (runBot cfg adminId evs st) today userId
                Hafter) as Hsweep.
  unfold cleanupOldFiles in *. by case_decide.
Qed.

Lemma cleanup_job_never_changes_daily_counts_witness :
  docsOk emptyState
  ∧ countSince 0 2 (runBot sampleConfig (Some 9) sampleEvents emptyState) = 1%nat
  ∧ size (conversions (runBot sampleConfig (Some 9) sampleEvents emptyState)) = 1%nat
  ∧ docsOk (runBot sampleConfig (Some 9) sampleEvents emptyState).
Proof.
  assert (H : docsOk emptyState) by apply emptyState_ok.
  destruct (cleanup_job_never_changes_daily_counts sampleConfig (Some 9)
              (take 6 sampleEvents) emptyState H) as [_ Hcount].
  split; [done|]. split; [|split].
  - change sampleEvents
      with (take 6 sampleEvents
              ++ [OnCleanupJob remoteDeleteFails (400 + 3 * msPerHour)]).
    rewrite Hcount. by vm_compute.
  - by vm_compute.
  - exact (proj1 (cleanup_job_never_changes_daily_counts sampleConfig (Some 9)
                    sampleEvents emptyState H)).
Defined.

(** ** The converted file is sent the way the delivery reads it *)

Lemma append_cons (c : ascii) (a b : string) :
  String.append (String c a) b = String c (String.append a b).
Proof. reflexivity. Qed.

Lemma split_last_sound (c : ascii) (s l r : string) :
  Js.split_last c s = Some (l, r) →
  s = String.append l (String c r) ∧ Js.split_last c r = None.
Proof.
  revert l. induction s as [|a s IH]; intros l; cbn [Js.split_last]; [done|].
  destruct (Js.split_last c s) as [[l' r']|] eqn:Hs.
  - intros [= <- <-]. destruct (IH l' eq_refl) as [-> Hr]. by rewrite append_cons.
  - destruct (Ascii.eqb a c) eqn:Hac; [|done].
    apply Ascii.eqb_eq in Hac as ->. by intros [= <- <-].
Qed.

Lemma split_last_app_Some (c : ascii) (a b l r : string) :
  Js.split_last c b = Some (l, r) →
  Js.split_last c (String.append a b) = Some (String.append a l, r).
Proof.
  intros Hb. induction a as [|x a IH]; [done|].
  rewrite !append_cons. cbn [Js.split_last]. by rewrite IH.
Qed.

Lemma split_last_app_None (c : ascii) (a b : string) :
  Js.split_last c b = None →
  Js.split_last c (String.append a b)
  = match Js.split_last c a with
    | Some (l, r) => Some (l, String.append r b)
    | None => None
    end.
Proof.
  intros Hb. induction a as [|x a IH]; [done|].
  rewrite append_cons. cbn [Js.split_last]. rewrite IH.
  destruct (Js.split_last c a) as [[l r]|]; [done|].
  by destruct (Ascii.eqb x c).
Qed.

Lemma no_sep_prefix (c : ascii) (a b : string) :
  Js.split_last c (String.append a (String c b)) ≠ None.
Proof.
  induction a as [|x a IH].
  - change (String.append "" (String c b)) with (String c b). cbn [Js.split_last].
    destruct (Js.split_last c b) as [[l r]|]; [done|]. by rewrite Ascii.eqb_refl.
  - rewrite append_cons. cbn [Js.split_last].
    by destruct (Js.split_last c (String.append a (String c b))) as [[l r]|].
Qed.

Lemma basename_no_sep (p : string) : Js.split_last "/" (Js.basename p) = None.
Proof.
  unfold Js.basename. destruct (Js.split_last "/" p) as [[l r]|] eqn:Hp; [|done].
  by apply split_last_sound in Hp as [_ Hr].
Qed.

Lemma stem_no_sep (p : string) : Js.split_last "/" (Js.stem p) = None.
Proof.
  unfold Js.stem.
  destruct (Js.split_last "." (Js.basename p)) as [[l r]|] eqn:Hb;
    [|apply basename_no_sep].
  destruct l as [|x l]; [apply basename_no_sep|].
  apply split_last_sound in Hb as [Hb _].
  pose proof (basename_no_sep p) as Hno. rewrite Hb in Hno.
  destruct (Js.split_last "/" (String x l)) as [[l1 r1]|] eqn:Hl; [|done].
  apply split_last_sound in Hl as [Hl _]. rewrite Hl in Hno.
  exfalso. revert Hno.
  replace (String.append (String.append l1 (String "/" r1)) (String "." r))
    with (String.append l1 (String "/" (String.append r1 (String "." r)))).
  - apply no_sep_prefix.
  - clear. induction l1 as [|y l1 IH]; [done|]. rewrite !append_cons. by rewrite IH.
Qed.

(** The extension of a file written to [dir] under a name that ends in
    [suffix], when [suffix] has a dot and what precedes that dot in the
    name is not empty. *)
Lemma extname_join (dir x suffix l r : string) :
  Js.split_last "/" x = None →
  Js.split_last "/" suffix = None →
  Js.split_last "." suffix = Some (l, r) →
  String.append x l ≠ "" →
  Js.extname (pathJoin dir (String.append x suffix)) = String "." r.
Proof.
  intros Hx Hsuffix Hdot Hne.
  assert (Hbase : Js.basename (pathJoin dir (String.append x suffix))
                  = String.append x suffix).
  { unfold Js.basename, pathJoin.
    rewrite (split_last_app_Some "/" dir (String "/" (String.append x suffix))
               "" (String.append x suffix)); [done|].
    cbn [Js.split_last]. rewrite split_last_app_None, Hx by done. done. }
  unfold Js.extname. rewrite Hbase.
  rewrite (split_last_app_Some "." x suffix l r Hdot).
  by destruct (String.append x l).
Qed.

Lemma videoCommand_sent_as (p format : string) :
  format ∈ (snd <$> getAvailableFormats Video) →
  sendMethodFor (cmd_output (videoCommand p format)) = methodRead Video format.
Proof.
  cbn. rewrite !elem_of_cons, elem_of_nil.
  assert (Hext : ∀ l, l ≠ "" →
            ∀ e, Js.split_last "/" (String.append l (String "." e)) = None →
                 Js.split_last "." (String.append l (String "." e)) = Some (l, e) →
            Js.extname (pathJoin tempDir
              (String.append (Js.stem p) (String.append l (String "." e))))
            = String "." e).
  { intros l Hl e Hsep Hdot.
    apply (extname_join tempDir (Js.stem p) _ l e); [apply stem_no_sep|done..|].
    destruct l as [|c l]; [done|]. apply append_nonempty. }
  unfold sendMethodFor.
  intros [->|[->|[->|[->|[->|[]]]]]].
  - change (cmd_output (videoCommand p "360p"))
      with (pathJoin tempDir (String.append (Js.stem p)
              (String.append "_360p" (String "." "mp4")))).
    by rewrite Hext.
  - change (cmd_output (videoCommand p "480p"))
      with (pathJoin tempDir (String.append (Js.stem p)
              (String.append "_480p" (String "." "mp4")))).
    by rewrite Hext.
  - change (cmd_output (videoCommand p "720p"))
      with (pathJoin tempDir (String.append (Js.stem p)
              (String.append "_720p" (String "." "mp4")))).
    by rewrite Hext.
  - change (cmd_output (videoCommand p "1080p"))
      with (pathJoin tempDir (String.append (Js.stem p)
              (String.append "_1080p" (String "." "mp4")))).
    by rewrite Hext.
  - change (cmd_output (videoCommand p "mp3"))
      with (pathJoin tempDir (String.append (Js.stem p)
              (String.append "_mp3" (String "." "mp3")))).
    by rewrite Hext.
Qed.

Lemma audioCommand_sent_as (p format : string) (c : FfmpegCommand) :
  format ∈ (snd <$> getAvailableFormats Audio) →
  Js.stem p ≠ "" →
  audioCommand p format = Some c →
  sendMethodFor (cmd_output c) = SendAudio.
Proof.
  cbn. rewrite !elem_of_cons, elem_of_nil.
  intros Hin Hstem.
  assert (Hext : ∀ e, Js.split_last "/" (String "." e) = None →
                      Js.split_last "." (String "." e) = Some ("", e) →
            Js.extname (pathJoin tempDir (String.append (Js.stem p) (String "." e)))
            = String "." e).
  { intros e Hsep Hdot.
    apply (extname_join tempDir (Js.stem p) _ "" e); [apply stem_no_sep|done..|].
    destruct (Js.stem p); [done|]. by rewrite append_cons. }
  unfold sendMethodFor.
  destruct Hin as [->|[->|[->|[]]]]; intros [= <-]; cbn [cmd_output];
    by rewrite Hext.
Qed.

Lemma deliver_reads (ext : Externals) (now userId : Z) (info : FileInfo)
    (format : string) (message : Message) (st : State) :
  kind message = kindSent (methodRead (fileType info) format) →
  (deliver ext now userId info format message st).1 ≠ Throw TypeError.
Proof.
  unfold deliver, methodRead, msg_video, msg_audio.
  destruct (fileType info); [destruct (negb (String.eqb format "mp3"))|];
    cbn [kindSent]; intros ->; cbn [attachment];
    unfold bind, ret, updateCredits;
    (destruct (users st !! userId) as [u|]; [|done]);
    (destruct (credits u + 0 <? 0); [done|]);
    unfold external; destruct (replyWithMedia ext); done.
Qed.

(** For every format offered as a button, the converted file has an
    extension that [uploadToStorageChannel] sends with the method whose
    attachment [convertHandler] reads afterwards: a video converted to a
    resolution goes out with [sendVideo] and is read as [message.video],
    everything else goes out with [sendAudio] and is read as
    [message.audio].  So when Telegram answers with the attachment of
    the method used, the delivery never fails on a missing attachment.
    For an audio file this needs the downloaded file to have a
    non-empty name. *)
Theorem delivery_reads_the_attachment_sent (ext : Externals) (now userId : Z)
    (info : FileInfo) (p format out : string) (st st1 : State) :
  format ∈ (snd <$> getAvailableFormats (fileType info)) →
  (fileType info = Audio → Js.stem p ≠ "") →
  convertFile ext info p format st = (Ok out, st1) →
  sendMethodFor out = methodRead (fileType info) format
  ∧ ∀ message st2,
      kind message = kindSent (sendMethodFor out) →
      (deliver ext now userId info format message st2).1 ≠ Throw TypeError.
Proof.
  intros Hin Hstem Hconv.
  assert (Hsent : sendMethodFor out = methodRead (fileType info) format).
  { revert Hconv. unfold convertFile, convertVideo, convertAudio.
    destruct (fileType info).
    - destruct (ffmpegRun ext _); [|done]. intros [= <- <-].
      by apply videoCommand_sent_as.
    - destruct (audioCommand p format) as [c|] eqn:Hc; [|done].
      destruct (ffmpegRun ext c); [|done]. intros [= <- <-].
      apply (audioCommand_sent_as p format c); auto. }
  split; [done|]. intros message st2 Hkind. apply deliver_reads.
  by rewrite <- Hsent.
Qed.

Lemma delivery_reads_the_attachment_sent_witness :
  sendMethodFor "temp/1700000000000_42_720p.mp4" = SendVideo
  ∧ ∀ message st2,
      kind message = kindSent (sendMethodFor "temp/1700000000000_42_720p.mp4") →
      (deliver reliable 400 2 sampleInfo "720p" message st2).1 ≠ Throw TypeError.
Proof.
  apply (delivery_reads_the_attachment_sent reliable 400 2 sampleInfo
           "temp/1700000000000_42" "720p" "temp/1700000000000_42_720p.mp4"
           emptyState emptyState).
  - cbn. rewrite !elem_of_cons. tauto.
  - discriminate.
  - reflexivity.
Defined.

(** ** Events that change no balance *)

Section Quiet.
Variable cfg : Config.
Variable I : State → Prop.
Hypothesis I_quiet : quiet I.

Lemma quiet_emit (e : Event) : preserves I (emit e).
Proof using I_quiet. intros st. by apply I_quiet. Qed.

Lemma quiet_caught (m : M CommandReply) (answer : Error → CommandReply) :
  preserves I m → preserves I (caught m answer).
Proof using I_quiet.
  intros Hm. apply preserves_try_catch; [done|]. intros e.
  apply preserves_bind; [apply quiet_emit|]. intros _. apply preserves_ret.
Qed.

Lemma quiet_onError (userId : Z) (r : Reply) (e : Error) :
  preserves I (onError userId r e).
Proof using I_quiet.
  apply preserves_bind; [apply quiet_emit|]. intros _. apply quiet_emit.
Qed.

Lemma quiet_acceptUpload now userId fileType media :
  preserves I (acceptUpload cfg now userId fileType media).
Proof using I_quiet.
  unfold acceptUpload.
  apply preserves_bind; [apply I_quiet|]. intros user.
  destruct (credits user <? CREDIT_PER_CONVERSION cfg); [apply quiet_emit|].
  apply preserves_bind;
    [intros st HI; unfold checkDailyLimit; by destruct (users st !! userId)|].
  intros limited.
  destruct limited; [apply quiet_emit|].
  destruct (negb (isFileSizeValid cfg (media_file_size media)));
    [apply quiet_emit|].
  apply preserves_bind; [|intros _; apply quiet_emit].
  intros st. by apply I_quiet.
Qed.

Lemma quiet_dispatch adminId ev :
  chargeFree ev = true → preserves I (dispatch cfg adminId ev).
Proof using I_quiet.
  destruct ev; cbn [chargeFree dispatch]; intros Hfree; try done.
  - apply preserves_forget, preserves_ret.
  - apply preserves_forget, preserves_ret.
  - apply preserves_forget, quiet_caught.
    apply preserves_bind; [apply I_quiet|]. intros u. apply preserves_ret.
  - apply preserves_forget, quiet_caught.
    apply preserves_bind; [apply I_quiet|]. intros u. apply preserves_ret.
  - apply preserves_forget, quiet_caught.
    destruct (notAdmin adminId userId); [apply preserves_ret|].
    apply preserves_bind; [by intros st|]. intros stats. apply preserves_ret.
  - apply preserves_try_catch; [apply quiet_acceptUpload|].
    intros e. apply quiet_onError.
  - apply preserves_try_catch; [apply quiet_acceptUpload|].
    intros e. apply quiet_onError.
  - apply preserves_try_catch; [|intros e; apply quiet_onError].
    destruct (Js.startsWith "video/" _); [apply quiet_acceptUpload|].
    destruct (Js.startsWith "audio/" _); [apply quiet_acceptUpload|].
    apply quiet_emit.
  - apply preserves_try_catch; [|intros e; apply quiet_emit].
    apply preserves_bind; [|intros _; apply preserves_ret].
    intros st. apply I_quiet. apply (cleanupOldFiles_rest ext now st).
Qed.

End Quiet.

Lemma sameCounters_quiet (id : Z) (u : User) : quiet (sameCounters id u).
Proof.
  split.
  - intros st st' Heq (u' & Hu' & H). exists u'. by rewrite Heq.
  - intros now userId ud st (u' & Hu' & H). unfold sameCounters, getOrCreateUser.
    destruct (users st !! userId) as [v|] eqn:Hv; cbn.
    + destruct (decide (userId = id)) as [->|Hne].
      * rewrite lookup_insert_eq. eexists. split; [done|]. by simplify_eq.
      * rewrite lookup_insert_ne by done. by exists u'.
    + rewrite lookup_insert_ne by congruence. by exists u'.
Qed.

(** Only /start, /addcredits, /reset and a format selection can change
    an account's balance, referral count or usage count: every other
    event (/help, /buy, /credits, /refer, /stats, an upload of any kind
    whether accepted or turned away, the cleanup job) leaves the three
    counters of every existing account as they were. *)
Theorem counters_change_only_by_four_events (cfg : Config) (adminId : option Z)
    (ev : BotEvent) (st : State) (id : Z) (u : User) :
  chargeFree ev = true →
  users st !! id = Some u →
  ∃ u', users (dispatch cfg adminId ev st).2 !! id = Some u'
        ∧ credits u' = credits u ∧ referrals u' = referrals u
        ∧ usage_count u' = usage_count u.
Proof.
  intros Hfree Hu.
  apply (quiet_dispatch cfg (sameCounters id u) (sameCounters_quiet id u)
           adminId ev Hfree st).
  by exists u.
Qed.

Lemma counters_change_only_by_four_events_witness :
  ∃ u', users (dispatch sampleConfig (Some 9) (OnVideo 300 1 sampleMedia)
                 (oneUser 1 10)).2 !! 1 = Some u'
        ∧ credits u' = 10 ∧ referrals u' = 0 ∧ usage_count u' = 0.
Proof.
  apply (counters_change_only_by_four_events sampleConfig (Some 9)
           (OnVideo 300 1 sampleMedia) (oneUser 1 10) 1 (sampleUser 1 10)).
  - reflexivity.
  - by vm_compute.
Defined.

(** ** A selection that fails before the debit *)

(** A format selection whose pipeline fails at the download, at the
    transcoding or at the upload to the storage channel costs nothing:
    the handler's only write to the accounts is the one
    [getOrCreateUser] makes before the pipeline starts (the sender's
    [last_activity], or the sender's new account), so no existing
    account changes its balance, referral count or usage count and no
    other account changes at all; no conversion record is written, the
    session stays, and the handler logs the error and answers
    "conversion failed". *)
Theorem failure_before_debit_is_free (cfg : Config) (ext : Externals)
    (now userId : Z) (format : string) (info : FileInfo) (st st1 : State) (e : Error) :
  sessions st !! userId = Some info →
  pipeline cfg ext now userId format info (getOrCreateUser now userId noUserData st).2
  = (Throw e, st1) →
  thrownBeforeDebit e = true →
  let st' := (convertHandler cfg ext now userId format st).2 in
  users st' = users (getOrCreateUser now userId noUserData st).2
  ∧ (∀ id u, users st !! id = Some u →
       ∃ u', users st' !! id = Some u'
             ∧ credits u' = credits u ∧ referrals u' = referrals u
             ∧ usage_count u' = usage_count u)
  ∧ (∀ id, id ≠ userId → users st' !! id = users st !! id)
  ∧ conversions st' = conversions st
  ∧ sessions st' = sessions st
  ∧ trace st' = trace st1 ++ [ConsoleError e; Replied userId ConversionFailed].
Proof.
  intros Hs Hrun He. cbn zeta.
  rewrite (convertHandler_with_session _ _ _ _ _ _ _ Hs), Hrun.
  cbn [snd users conversions sessions trace with_trace].
  destruct (pipeline_failure_before_debit _ _ _ _ _ _ _ _ _ Hrun He)
    as (Hu & Hc & Hses).
  rewrite Hu, Hc, Hses.
  split; [done|].
  split.
  { intros id u Hid.
    apply (proj2 (sameCounters_quiet id u) now userId noUserData st).
    by exists u. }
  split.
  { intros id Hne. unfold getOrCreateUser.
    destruct (users st !! userId); cbn; by rewrite lookup_insert_ne. }
  split; [apply getOrCreateUser_keeps_conversions|].
  split; [apply getOrCreateUser_keeps_sessions|done].
Qed.

Lemma failure_before_debit_is_free_witness :
  let st' := (convertHandler sampleConfig downloadFails 100 1 "720p" (uploaded 1 10)).2 in
  users st' !! 1 = Some (set_last_activity 100 (sampleUser 1 10))
  ∧ conversions st' = conversions (uploaded 1 10)
  ∧ sessions st' = sessions (uploaded 1 10)
  ∧ ∃ st1, trace st'
           = trace st1 ++ [ConsoleError FailedToDownload; Replied 1 ConversionFailed].
Proof.
  cbn zeta.
  set (st0 := (getOrCreateUser 100 1 noUserData (uploaded 1 10)).2).
  assert (pipeline sampleConfig downloadFails 100 1 "720p" sampleInfo st0
          = (Throw FailedToDownload,
             (pipeline sampleConfig downloadFails 100 1 "720p" sampleInfo st0).2))
    as Hrun by (vm_compute; reflexivity).
  destruct (failure_before_debit_is_free sampleConfig downloadFails 100 1 "720p"
              sampleInfo (uploaded 1 10) _ FailedToDownload eq_refl Hrun eq_refl)
    as (Hu & _ & _ & Hc & Hs & Ht).
  split; [rewrite Hu; by vm_compute|].
  split; [exact Hc|]. split; [exact Hs|]. eexists. exact Ht.
Defined.
